(** * The ad serving decision engine of [ads_impl.cc]

    A shallow embedding of the class [ads::AdsImpl] of [src/ads_impl.cc]
    and the verification of its rate limits, its winner-over-time
    aggregation, its ad selection and its initialisation guard.

    Conventions of the embedding.
    - [uint64_t] values are integers of [Z]; the places where the C++
      arithmetic wraps modulo [2^64] are written out with [wrap64].
    - [double] is the primitive binary64 type [float] of Rocq, with its
      IEEE-754 addition; no algebraic law of the addition is used.
    - [std::string] is [string]; [std::vector] and [std::deque] are lists;
      [std::map] is stdpp's [gmap].
    - A method of [AdsImpl] is a computation of the monad [M]: it reads and
      writes the fields of the object, records the calls it makes to the
      host and to the other collaborators, and may end in a [fault] where
      the C++ program has undefined behaviour.
    - What the engine reads from its environment during one invocation
      (the host configuration, the clock, the random source, the constants
      of [static_values.h]) is one record [Env]. *)

From Stdlib Require Import ZArith PrimFloat String Ascii Lia.
From stdpp Require Import base tactics option list strings gmap.

(** ** Machine integers *)

Definition wrap64 (z : Z) : Z := (z mod 2 ^ 64)%Z.

(** ** [std::string] operations used by the engine *)

Module Str.

(** [s.empty()] *)
Definition empty (s : string) : bool :=
  match s with
  | EmptyString => true
  | String _ _ => false
  end.

(** [s.find_last_of(c)]: the position of the last occurrence of [c], or
    [None] for [std::string::npos]. *)
Fixpoint find_last_of (s : string) (c : ascii) : option nat :=
  match s with
  | EmptyString => None
  | String a s' =>
      match find_last_of s' c with
      | Some pos => Some (S pos)
      | None => if Ascii.eqb a c then Some 0 else None
      end
  end.

(** [s.substr(pos, n)] for [pos <= s.size()], the only use in the engine
    being [substr(0, pos)] with [pos] a position of [s]. *)
Definition substr (s : string) (pos n : nat) : string := String.substring pos n s.

(** The characters of a string, used to state where a character occurs. *)
Fixpoint chars (s : string) : list ascii :=
  match s with
  | EmptyString => []
  | String a s' => a :: chars s'
  end.

End Str.

(** Modelled from the spec: [helper::String::Split] ([string_helper.h] is not
    among the sources).  The spec uses it as "split on ['_'], take first
    segment" and to produce the "array of hyphen-split labels" of the
    reports: the segments of [s] between the occurrences of [delimiter],
    in order. *)
Fixpoint Split (s : string) (delimiter : ascii) : list string :=
  match s with
  | EmptyString => [EmptyString]
  | String a s' =>
      if Ascii.eqb a delimiter then EmptyString :: Split s' delimiter
      else
        match Split s' delimiter with
        | segment :: segments => String a segment :: segments
        | [] => [String a EmptyString]
        end
  end.

(** ** Data of the interface *)

Inductive Result := SUCCESS | FAILED.

Inductive NotificationResultInfoResultType := CLICKED | DISMISSED | TIMEOUT.

Module AdInfo.
Record t := mk {
  creative_set_id : string;
  advertiser : string;
  notification_text : string;
  notification_url : string;
  uuid : string
}.
End AdInfo.

Module NotificationInfo.
Record t := mk {
  advertiser : string;
  category : string;
  text : string;
  url : string;
  creative_set_id : string;
  uuid : string
}.
(** [NotificationInfo()] *)
Definition default : t := mk "" "" "" "" "" "".
End NotificationInfo.

Module UrlComponents.
Record t := mk {
  scheme : string;
  hostname : string
}.
End UrlComponents.

(** The page classifier [usermodel::UserModel], an external library: an
    instance answers [IsInitialized], [classifyPage] and [winningCategory]. *)
Module UserModel.
Record t := mk {
  IsInitialized : bool;
  classifyPage : string -> list float;
  winningCategory : list float -> string
}.
End UserModel.

(** [BundleState::categories], a [std::map] from category to ads, as the
    list of its entries in key order (the order [std::advance] walks). *)
Definition BundleCategories := list (string * list AdInfo.t).

(** ** The client state adapter

    Modelled from the spec: the class [Client] ([client.h] and [client.cc]
    are not among the sources).  Section 3 of the spec lists what it holds:
    "locale, list of supported locales, page-score history (ordered
    sequence of score vectors), ads-shown history (ordered sequence of
    timestamps), ads-seen (set of UUIDs), search-flag, shopping-flag,
    current SSID, current place, ad-uuid", and sections 4.2 and 4.6 add
    the stored [available] flag and the last activity and idle-stop times.
    Persisting the state ([LoadState], [SaveState]) is a call to the
    outside, recorded in the trace (see [Out.call]). *)
Module Client.

Record t := mk {
  locale : string;
  locales : list string;
  page_score_history : list (list float);
  ads_shown_history : list Z;
  ads_uuid_seen : gmap string Z;
  available : bool;
  search_state : bool;
  shop_state : bool;
  current_ssid : string;
  current_place : string;
  ad_uuid : string;
  last_user_activity : Z;
  last_user_idle_stop_time : Z
}.

(** A client that holds nothing yet. *)
Definition fresh : t := mk "" [] [] [] ∅ false false false "" "" "" 0 0.

Definition GetLocale (c : t) : string := locale c.
Definition GetAvailable (c : t) : bool := available c.
Definition GetPageScoreHistory (c : t) : list (list float) := page_score_history c.
Definition GetAdsShownHistory (c : t) : list Z := ads_shown_history c.
Definition GetAdsUUIDSeen (c : t) : gmap string Z := ads_uuid_seen c.
Definition GetCurrentPlace (c : t) : string := current_place c.
Definition GetSearchState (c : t) : bool := search_state c.

(** Modelled from the spec: "if locale is in supported set, store it". *)
Definition SetLocale (l : string) (c : t) : t :=
  mk l (locales c) (page_score_history c) (ads_shown_history c) (ads_uuid_seen c)
     (available c) (search_state c) (shop_state c) (current_ssid c) (current_place c)
     (ad_uuid c) (last_user_activity c) (last_user_idle_stop_time c).

(** Modelled from the spec: "processes host-reported locale list (stores
    into client)". *)
Definition SetLocales (ls : list string) (c : t) : t :=
  mk (locale c) ls (page_score_history c) (ads_shown_history c) (ads_uuid_seen c)
     (available c) (search_state c) (shop_state c) (current_ssid c) (current_place c)
     (ad_uuid c) (last_user_activity c) (last_user_idle_stop_time c).

(** Modelled from the spec: "Invoke classifier, append score to client
    history". *)
Definition AppendPageScoreToPageScoreHistory (page_score : list float) (c : t) : t :=
  mk (locale c) (locales c) (page_score_history c ++ [page_score]) (ads_shown_history c)
     (ads_uuid_seen c) (available c) (search_state c) (shop_state c) (current_ssid c)
     (current_place c) (ad_uuid c) (last_user_activity c) (last_user_idle_stop_time c).

(** Modelled from the spec: "Append [now] to ads-shown-history". *)
Definition AppendCurrentTimeToAdsShownHistory (now : Z) (c : t) : t :=
  mk (locale c) (locales c) (page_score_history c) (ads_shown_history c ++ [now])
     (ads_uuid_seen c) (available c) (search_state c) (shop_state c) (current_ssid c)
     (current_place c) (ad_uuid c) (last_user_activity c) (last_user_idle_stop_time c).

Definition set_ads_uuid_seen (seen : gmap string Z) (c : t) : t :=
  mk (locale c) (locales c) (page_score_history c) (ads_shown_history c) seen
     (available c) (search_state c) (shop_state c) (current_ssid c) (current_place c)
     (ad_uuid c) (last_user_activity c) (last_user_idle_stop_time c).

(** Modelled from the spec: "mark ad uuid seen". *)
Definition UpdateAdsUUIDSeen (uuid : string) (value : Z) (c : t) : t :=
  set_ads_uuid_seen (<[uuid := value]> (ads_uuid_seen c)) c.

(** Modelled from the spec: "reset [ads_seen] for this candidate set",
    "[ads_seen ∩ candidates] is cleared": the uuid of every candidate is
    taken out of the seen set, the other uuids stay. *)
Definition ResetAdsUUIDSeen (ads : list AdInfo.t) (c : t) : t :=
  set_ads_uuid_seen
    (foldl (λ seen ad, delete (AdInfo.uuid ad) seen) (ads_uuid_seen c) ads) c.

(** Modelled from the spec: "Compare to client's stored [available] flag;
    if changed, update". *)
Definition SetAvailable (b : bool) (c : t) : t :=
  mk (locale c) (locales c) (page_score_history c) (ads_shown_history c) (ads_uuid_seen c)
     b (search_state c) (shop_state c) (current_ssid c) (current_place c)
     (ad_uuid c) (last_user_activity c) (last_user_idle_stop_time c).

Definition set_search_state (b : bool) (c : t) : t :=
  mk (locale c) (locales c) (page_score_history c) (ads_shown_history c) (ads_uuid_seen c)
     (available c) b (shop_state c) (current_ssid c) (current_place c)
     (ad_uuid c) (last_user_activity c) (last_user_idle_stop_time c).

Definition set_shop_state (b : bool) (c : t) : t :=
  mk (locale c) (locales c) (page_score_history c) (ads_shown_history c) (ads_uuid_seen c)
     (available c) (search_state c) b (current_ssid c) (current_place c)
     (ad_uuid c) (last_user_activity c) (last_user_idle_stop_time c).

(** Modelled from the spec: "set search flag with weight 1.0; else unset",
    "set client shopping flag with weight 1.0; else unset".  The flag is
    what the engine reads back ([GetSearchState]); the url and the weight
    are stored for the reports only and are not part of this model. *)
Definition FlagSearchState (url : string) (score : float) (c : t) : t := set_search_state true c.
Definition UnflagSearchState (url : string) (c : t) : t := set_search_state false c.
Definition FlagShoppingState (url : string) (score : float) (c : t) : t := set_shop_state true c.
Definition UnflagShoppingState (c : t) : t := set_shop_state false c.

(** Modelled from the spec: "retrieves SSID (substituting [kUnknownSSID]
    when empty)" and stores it as the current SSID. *)
Definition SetCurrentSSID (ssid : string) (c : t) : t :=
  mk (locale c) (locales c) (page_score_history c) (ads_shown_history c) (ads_uuid_seen c)
     (available c) (search_state c) (shop_state c) ssid (current_place c)
     (ad_uuid c) (last_user_activity c) (last_user_idle_stop_time c).

(** Modelled from the spec: "update client ad-uuid"; the new value comes
    from the environment. *)
Definition UpdateAdUUID (uuid : string) (c : t) : t :=
  mk (locale c) (locales c) (page_score_history c) (ads_shown_history c) (ads_uuid_seen c)
     (available c) (search_state c) (shop_state c) (current_ssid c) (current_place c)
     uuid (last_user_activity c) (last_user_idle_stop_time c).

(** Modelled from the spec: "update last-activity". *)
Definition UpdateLastUserActivity (now : Z) (c : t) : t :=
  mk (locale c) (locales c) (page_score_history c) (ads_shown_history c) (ads_uuid_seen c)
     (available c) (search_state c) (shop_state c) (current_ssid c) (current_place c)
     (ad_uuid c) now (last_user_idle_stop_time c).

(** Modelled from the spec: "update client last-idle-stop time". *)
Definition UpdateLastUserIdleStopTime (now : Z) (c : t) : t :=
  mk (locale c) (locales c) (page_score_history c) (ads_shown_history c) (ads_uuid_seen c)
     (available c) (search_state c) (shop_state c) (current_ssid c) (current_place c)
     (ad_uuid c) (last_user_activity c) now.

(** Modelled from the spec: "clear client history": the page-score history
    and the ads-shown history become empty. *)
Definition RemoveAllHistory (c : t) : t :=
  mk (locale c) (locales c) [] [] (ads_uuid_seen c)
     (available c) (search_state c) (shop_state c) (current_ssid c) (current_place c)
     (ad_uuid c) (last_user_activity c) (last_user_idle_stop_time c).

End Client.

(** ** The environment of one invocation *)

(** The three places where the engine calls [helper::Math::Random]. *)
Inductive draw_site := AdDraw | SampleCategoryDraw | SampleAdDraw.

(** What the engine reads from outside during one invocation.  The host
    adapter [AdsClient] is an abstract class: its reading operations are
    fields here, its operations with an effect are calls ([Out.call]).
    [static_values.h], [time_helper.h], [math_helper.h], [locale_helper.h],
    [search_providers.h] and the [usermodel] library are not among the
    sources: their values are taken as fields too. *)
Record Env := {
  (* AdsClient *)
  IsAdsEnabled : bool;
  IsNotificationsAvailable : bool;
  GetLocales : list string;
  GetAdsLocale : string;
  GetSSID : string;
  GetAdsPerHour : Z;
  GetAdsPerDay : Z;
  (* the handle [SetTimer(seconds)] returns, 0 when the timer is refused *)
  SetTimer : Z -> Z;
  (* [GetUrlComponents(url, &components)] on a default-constructed
     [components]: the result and [components] after the call *)
  GetUrlComponents : string -> bool * UrlComponents.t;
  LoadJsonSchema : string -> string;
  (* helpers *)
  Now : Z;
  (* [helper::Math::Random(max)] at each of its call sites *)
  Random : draw_site -> nat -> nat;
  GetCountryCode : string -> string;
  IsSearchEngine : UrlComponents.t -> bool;
  GenerateUUID : string;
  (* [usermodel::UserModel::CreateInstance()] followed by
     [initializePageClassifier(json)] *)
  CreateUserModel : string -> UserModel.t;
  (* [bundle_->GetCatalogId()] *)
  GetCatalogId : string;
  (* [BundleState::LoadFromJson(json, schema)]: the categories when it
     succeeds *)
  LoadFromJson : string -> string -> option BundleCategories;
  (* static_values.h *)
  kIdleThresholdInSeconds : Z;
  kSustainAdInteractionAfterSeconds : Z;
  kDebugOneHourInSeconds : Z;
  kNextEasterEggStartsInSeconds : Z;
  kDefaultLanguage : string;
  kUnknownSSID : string;
  _bundle_schema_name : string;
  _is_debug : bool;
  _is_testing : bool
}.

(** Modelled from the spec: [static_values.h] is not among the sources;
    section 6 of the spec gives [kOneHourInSeconds = 3600]. *)
Definition kOneHourInSeconds : Z := 3600.

(** ** Reports and calls to the outside *)

(** The records handed to [EventLog].  The JSON envelope and the time stamp
    are left out; a constructor carries the fields the engine computes. *)
Module Report.
Inductive notification_type := generated | clicked | dismissed | timeout.
Inductive tab_type := search | click.
Inductive t :=
| restart (place : string)
| background (place : string)
| foreground (place : string)
| settings (available : bool) (place locale : string) (adsPerDay adsPerHour : Z)
| load (tabId : Z) (tabType : tab_type) (tabUrl : string)
       (tabClassification : list string) (pageScore : option (list float))
| focus (tabId : Z)
| blur (tabId : Z)
| destroy (tabId : Z)
| notify (notificationType : notification_type) (notificationClassification : list string)
         (notificationCatalog notificationUrl : string)
| sustain (notificationId : string).
End Report.

(** The calls the engine makes to its host and to its collaborators. *)
Module Out.
Inductive call :=
(* AdsClient *)
| EventLog (json : Report.t)
| ShowNotification (info : NotificationInfo.t)
| GetAds (region category : string)
| LoadUserModelForLocale (locale : string)
| LoadSampleBundle
| SetIdleThreshold (seconds : Z)
| SetTimer (seconds : Z)
| KillTimer (timer_id : Z)
(* Client *)
| LoadState
| SaveState
(* AdsServe and Bundle *)
| DownloadCatalog
| ResetAdsServe
| ResetBundle.
End Out.

(** ** The engine object *)

(** The fields of [AdsImpl] that hold state.  [user_model_] is a
    [std::unique_ptr]: [None] is the null pointer.  [client_] is the client
    state adapter; [ads_client_], [bundle_] and [ads_serve_] are reached
    through [Env] and [Out.call]. *)
Record AdsImpl := mkAdsImpl {
  is_first_run_ : bool;
  is_initialized_ : bool;
  is_foreground_ : bool;
  last_shown_tab_url_ : string;
  last_shown_notification_info_ : NotificationInfo.t;
  last_page_classification_ : string;
  page_score_cache_ : gmap string (list float);
  collect_activity_timer_id_ : Z;
  sustained_ad_interaction_timer_id_ : Z;
  media_playing_ : gmap Z bool;
  next_easter_egg_ : Z;
  user_model_ : option UserModel.t;
  client_ : Client.t
}.

(** The constructor [AdsImpl::AdsImpl] (lines 29-45); [user_model_] is not
    in the initialiser list, a [unique_ptr] starts null. *)
Definition AdsImpl_new : AdsImpl :=
  {| is_first_run_ := true;
     is_initialized_ := false;
     is_foreground_ := false;
     last_shown_tab_url_ := "";
     last_shown_notification_info_ := NotificationInfo.default;
     last_page_classification_ := "";
     page_score_cache_ := ∅;
     collect_activity_timer_id_ := 0;
     sustained_ad_interaction_timer_id_ := 0;
     media_playing_ := ∅;
     next_easter_egg_ := 0;
     user_model_ := None;
     client_ := Client.fresh |}.

(** Assignments to the fields. *)
Definition set_is_first_run (b : bool) (s : AdsImpl) : AdsImpl :=
  mkAdsImpl b (is_initialized_ s) (is_foreground_ s) (last_shown_tab_url_ s)
    (last_shown_notification_info_ s) (last_page_classification_ s) (page_score_cache_ s)
    (collect_activity_timer_id_ s) (sustained_ad_interaction_timer_id_ s) (media_playing_ s)
    (next_easter_egg_ s) (user_model_ s) (client_ s).

Definition set_is_initialized (b : bool) (s : AdsImpl) : AdsImpl :=
  mkAdsImpl (is_first_run_ s) b (is_foreground_ s) (last_shown_tab_url_ s)
    (last_shown_notification_info_ s) (last_page_classification_ s) (page_score_cache_ s)
    (collect_activity_timer_id_ s) (sustained_ad_interaction_timer_id_ s) (media_playing_ s)
    (next_easter_egg_ s) (user_model_ s) (client_ s).

Definition set_is_foreground (b : bool) (s : AdsImpl) : AdsImpl :=
  mkAdsImpl (is_first_run_ s) (is_initialized_ s) b (last_shown_tab_url_ s)
    (last_shown_notification_info_ s) (last_page_classification_ s) (page_score_cache_ s)
    (collect_activity_timer_id_ s) (sustained_ad_interaction_timer_id_ s) (media_playing_ s)
    (next_easter_egg_ s) (user_model_ s) (client_ s).

Definition set_last_shown_tab_url (url : string) (s : AdsImpl) : AdsImpl :=
  mkAdsImpl (is_first_run_ s) (is_initialized_ s) (is_foreground_ s) url
    (last_shown_notification_info_ s) (last_page_classification_ s) (page_score_cache_ s)
    (collect_activity_timer_id_ s) (sustained_ad_interaction_timer_id_ s) (media_playing_ s)
    (next_easter_egg_ s) (user_model_ s) (client_ s).

Definition set_last_shown_notification_info (info : NotificationInfo.t) (s : AdsImpl) : AdsImpl :=
  mkAdsImpl (is_first_run_ s) (is_initialized_ s) (is_foreground_ s) (last_shown_tab_url_ s)
    info (last_page_classification_ s) (page_score_cache_ s)
    (collect_activity_timer_id_ s) (sustained_ad_interaction_timer_id_ s) (media_playing_ s)
    (next_easter_egg_ s) (user_model_ s) (client_ s).

Definition set_last_page_classification (c : string) (s : AdsImpl) : AdsImpl :=
  mkAdsImpl (is_first_run_ s) (is_initialized_ s) (is_foreground_ s) (last_shown_tab_url_ s)
    (last_shown_notification_info_ s) c (page_score_cache_ s)
    (collect_activity_timer_id_ s) (sustained_ad_interaction_timer_id_ s) (media_playing_ s)
    (next_easter_egg_ s) (user_model_ s) (client_ s).

Definition set_page_score_cache (m : gmap string (list float)) (s : AdsImpl) : AdsImpl :=
  mkAdsImpl (is_first_run_ s) (is_initialized_ s) (is_foreground_ s) (last_shown_tab_url_ s)
    (last_shown_notification_info_ s) (last_page_classification_ s) m
    (collect_activity_timer_id_ s) (sustained_ad_interaction_timer_id_ s) (media_playing_ s)
    (next_easter_egg_ s) (user_model_ s) (client_ s).

Definition set_collect_activity_timer_id (id : Z) (s : AdsImpl) : AdsImpl :=
  mkAdsImpl (is_first_run_ s) (is_initialized_ s) (is_foreground_ s) (last_shown_tab_url_ s)
    (last_shown_notification_info_ s) (last_page_classification_ s) (page_score_cache_ s)
    id (sustained_ad_interaction_timer_id_ s) (media_playing_ s)
    (next_easter_egg_ s) (user_model_ s) (client_ s).

Definition set_sustained_ad_interaction_timer_id (id : Z) (s : AdsImpl) : AdsImpl :=
  mkAdsImpl (is_first_run_ s) (is_initialized_ s) (is_foreground_ s) (last_shown_tab_url_ s)
    (last_shown_notification_info_ s) (last_page_classification_ s) (page_score_cache_ s)
    (collect_activity_timer_id_ s) id (media_playing_ s)
    (next_easter_egg_ s) (user_model_ s) (client_ s).

Definition set_media_playing (m : gmap Z bool) (s : AdsImpl) : AdsImpl :=
  mkAdsImpl (is_first_run_ s) (is_initialized_ s) (is_foreground_ s) (last_shown_tab_url_ s)
    (last_shown_notification_info_ s) (last_page_classification_ s) (page_score_cache_ s)
    (collect_activity_timer_id_ s) (sustained_ad_interaction_timer_id_ s) m
    (next_easter_egg_ s) (user_model_ s) (client_ s).

Definition set_next_easter_egg (t : Z) (s : AdsImpl) : AdsImpl :=
  mkAdsImpl (is_first_run_ s) (is_initialized_ s) (is_foreground_ s) (last_shown_tab_url_ s)
    (last_shown_notification_info_ s) (last_page_classification_ s) (page_score_cache_ s)
    (collect_activity_timer_id_ s) (sustained_ad_interaction_timer_id_ s) (media_playing_ s)
    t (user_model_ s) (client_ s).

Definition set_user_model (um : option UserModel.t) (s : AdsImpl) : AdsImpl :=
  mkAdsImpl (is_first_run_ s) (is_initialized_ s) (is_foreground_ s) (last_shown_tab_url_ s)
    (last_shown_notification_info_ s) (last_page_classification_ s) (page_score_cache_ s)
    (collect_activity_timer_id_ s) (sustained_ad_interaction_timer_id_ s) (media_playing_ s)
    (next_easter_egg_ s) um (client_ s).

Definition set_client (c : Client.t) (s : AdsImpl) : AdsImpl :=
  mkAdsImpl (is_first_run_ s) (is_initialized_ s) (is_foreground_ s) (last_shown_tab_url_ s)
    (last_shown_notification_info_ s) (last_page_classification_ s) (page_score_cache_ s)
    (collect_activity_timer_id_ s) (sustained_ad_interaction_timer_id_ s) (media_playing_ s)
    (next_easter_egg_ s) (user_model_ s) c.

(** ** The monad of the methods *)

(** Where the C++ program has undefined behaviour or aborts. *)
Inductive fault :=
| NullDereference   (* [user_model_->...] on a null [unique_ptr] *)
| DivisionByZero    (* integer division by zero *)
| OutOfRange.       (* [vector::at] or [std::advance] past the end *)

Inductive outcome (A : Type) :=
| Ok (a : A)
| Fault (f : fault).
Arguments Ok {A} a.
Arguments Fault {A} f.

(** A method run from a state of the object: its result, the state it
    leaves and the calls it made, in order; or a fault. *)
Definition M (A : Type) : Type := AdsImpl -> outcome (A * AdsImpl * list Out.call).

Definition ret {A} (a : A) : M A := λ s, Ok (a, s, []).

Definition bind {A B} (m : M A) (k : A -> M B) : M B :=
  λ s, match m s with
       | Ok (a, s1, out1) =>
           match k a s1 with
           | Ok (b, s2, out2) => Ok (b, s2, out1 ++ out2)
           | Fault f => Fault f
           end
       | Fault f => Fault f
       end.

Definition crash {A} (f : fault) : M A := λ _, Fault f.

(** Read the object. *)
Definition reads {A} (f : AdsImpl -> A) : M A := λ s, Ok (f s, s, []).

(** Write the object. *)
Definition modify (f : AdsImpl -> AdsImpl) : M unit := λ s, Ok (tt, f s, []).

(** A method of [client_] that changes the client state. *)
Definition client (f : Client.t -> Client.t) : M unit :=
  modify (λ s, set_client (f (client_ s)) s).

(** A call to the host or to a collaborator. *)
Definition call (c : Out.call) : M unit := λ s, Ok (tt, s, [c]).

(** [v.at(i)] *)
Definition at_ {A} (v : list A) (i : nat) : M A :=
  match v !! i with
  | Some x => ret x
  | None => crash OutOfRange
  end.

(** [if (c) { m }] *)
Definition when (c : bool) (m : M unit) : M unit := if c then m else ret tt.

Declare Scope ads_scope.
Delimit Scope ads_scope with ads.
Notation "'do' x <- m ; k" := (bind m (λ x, k))
  (at level 10, x name, m at level 100, k at level 200) : ads_scope.
Notation "m ;; k" := (bind m (λ _, k))
  (at level 100, k at level 200, right associativity) : ads_scope.
Open Scope ads_scope.

(** [*user_model_]: dereferencing the null pointer is a fault. *)
Definition user_model : M UserModel.t :=
  λ s, match user_model_ s with
       | Some um => Ok (um, s, [])
       | None => Fault NullDereference
       end.

(** [v.front()]; on an empty vector the behaviour is undefined. *)
Definition front {A} (v : list A) : M A :=
  match v with
  | x :: _ => ret x
  | [] => crash OutOfRange
  end.

(** Division of [uint64_t] values. *)
Definition udiv (a b : Z) : M Z :=
  if (b =? 0)%Z then crash DivisionByZero else ret (a / b)%Z.

(** [v.empty()] *)
Definition is_empty {A} (v : list A) : bool :=
  match v with
  | [] => true
  | _ :: _ => false
  end.

Record LoadInfo := { tab_id : Z; tab_url : string }.

(** ** The methods of [AdsImpl] *)

Section Engine.

Context (E : Env).

(** *** Reports (lines 951-1256, without the load report) *)

Definition GenerateAdReportingRestartEvent : M unit :=
  do place <- reads (λ s, Client.GetCurrentPlace (client_ s));
  call (Out.EventLog (Report.restart place)).

Definition GenerateAdReportingSustainEvent (info : NotificationInfo.t) : M unit :=
  call (Out.EventLog (Report.sustain (NotificationInfo.uuid info))).

Definition GenerateAdReportingBackgroundEvent : M unit :=
  do place <- reads (λ s, Client.GetCurrentPlace (client_ s));
  call (Out.EventLog (Report.background place)).

Definition GenerateAdReportingForegroundEvent : M unit :=
  do place <- reads (λ s, Client.GetCurrentPlace (client_ s));
  call (Out.EventLog (Report.foreground place)).

(** [BlurInfo], [DestroyInfo] and [FocusInfo] hold a [tab_id] only. *)
Definition GenerateAdReportingBlurEvent (tab_id : Z) : M unit :=
  call (Out.EventLog (Report.blur tab_id)).

Definition GenerateAdReportingDestroyEvent (tab_id : Z) : M unit :=
  call (Out.EventLog (Report.destroy tab_id)).

Definition GenerateAdReportingFocusEvent (tab_id : Z) : M unit :=
  call (Out.EventLog (Report.focus tab_id)).

Definition GenerateAdReportingSettingsEvent : M unit :=
  let configured := IsNotificationsAvailable E in
  do place <- reads (λ s, Client.GetCurrentPlace (client_ s));
  do locale <- reads (λ s, Client.GetLocale (client_ s));
  let ads_per_day := GetAdsPerDay E in
  let ads_per_hour := GetAdsPerHour E in
  call (Out.EventLog (Report.settings configured place locale ads_per_day ads_per_hour)).

(** *** Initialisation guard (lines 213-221)

    [!is_initialized_ || !ads_client_->IsAdsEnabled() ||
     !user_model_->IsInitialized()]: the operands of [||] are evaluated
    left to right and the evaluation stops at the first that holds, so
    [user_model_] is dereferenced only when the first two are false. *)
Definition IsInitialized : M bool :=
  do is_initialized <- reads is_initialized_;
  if negb is_initialized then ret false
  else if negb (IsAdsEnabled E) then ret false
  else
    do um <- user_model;
    if negb (UserModel.IsInitialized um) then ret false
    else ret true.

(** *** Foreground and media (lines 223-277) *)

Definition OnForeground : M unit :=
  modify (set_is_foreground true) ;;
  GenerateAdReportingForegroundEvent.

Definition OnBackground : M unit :=
  modify (set_is_foreground false) ;;
  GenerateAdReportingBackgroundEvent.

Definition IsForeground : M bool := reads is_foreground_.

Definition OnIdle : M unit := ret tt.

Definition OnMediaPlaying (tab_id : Z) : M unit :=
  do media_playing <- reads media_playing_;
  match media_playing !! tab_id with
  | Some _ => ret tt
  | None => modify (set_media_playing (<[tab_id := true]> media_playing))
  end.

Definition OnMediaStopped (tab_id : Z) : M unit :=
  do media_playing <- reads media_playing_;
  match media_playing !! tab_id with
  | None => ret tt
  | Some _ => modify (set_media_playing (delete tab_id media_playing))
  end.

Definition IsMediaPlaying : M bool :=
  do media_playing <- reads media_playing_;
  if bool_decide (media_playing = ∅) then ret false else ret true.

(** *** Timers (lines 447-470 and 700-757) *)

Definition IsCollectingActivity : M bool :=
  do id <- reads collect_activity_timer_id_;
  if (id =? 0)%Z then ret false else ret true.

Definition StopCollectingActivity : M unit :=
  do collecting <- IsCollectingActivity;
  if negb collecting then ret tt
  else
    do id <- reads collect_activity_timer_id_;
    call (Out.KillTimer id) ;;
    modify (set_collect_activity_timer_id 0).

Definition StartCollectingActivity (start_timer_in : Z) : M unit :=
  StopCollectingActivity ;;
  call (Out.SetTimer start_timer_in) ;;
  modify (set_collect_activity_timer_id (SetTimer E start_timer_in)) ;;
  do id <- reads collect_activity_timer_id_;
  if (id =? 0)%Z then ret tt else ret tt.

Definition IsSustainingAdInteraction : M bool :=
  do id <- reads sustained_ad_interaction_timer_id_;
  if (id =? 0)%Z then ret false else ret true.

Definition StopSustainingAdInteraction : M unit :=
  do sustaining <- IsSustainingAdInteraction;
  if negb sustaining then ret tt
  else
    do id <- reads sustained_ad_interaction_timer_id_;
    call (Out.KillTimer id) ;;
    modify (set_sustained_ad_interaction_timer_id 0).

Definition StartSustainingAdInteraction (start_timer_in : Z) : M unit :=
  StopSustainingAdInteraction ;;
  call (Out.SetTimer start_timer_in) ;;
  modify (set_sustained_ad_interaction_timer_id (SetTimer E start_timer_in)) ;;
  do id <- reads sustained_ad_interaction_timer_id_;
  if (id =? 0)%Z then ret tt else ret tt.

Definition IsStillViewingAd : M bool :=
  do info <- reads last_shown_notification_info_;
  do url <- reads last_shown_tab_url_;
  if negb (String.eqb (NotificationInfo.url info) url) then ret false else ret true.

Definition SustainAdInteraction : M unit :=
  do viewing <- IsStillViewingAd;
  if negb viewing then ret tt
  else
    do info <- reads last_shown_notification_info_;
    GenerateAdReportingSustainEvent info ;;
    StartSustainingAdInteraction (kSustainAdInteractionAfterSeconds E).

(** *** Notification reports (lines 49-169) *)

Definition notification_catalog (info : NotificationInfo.t) : string :=
  if Str.empty (NotificationInfo.creative_set_id info) then "sample-catalog"
  else NotificationInfo.creative_set_id info.

Definition GenerateAdReportingNotificationShownEvent (info : NotificationInfo.t) : M unit :=
  do is_first_run <- reads is_first_run_;
  when is_first_run
    (modify (set_is_first_run false) ;; GenerateAdReportingRestartEvent) ;;
  let classifications := Split (NotificationInfo.category info) "-" in
  call (Out.EventLog (Report.notify Report.generated classifications
          (notification_catalog info) (NotificationInfo.url info))).

Definition GenerateAdReportingNotificationResultEvent
    (info : NotificationInfo.t) (type : NotificationResultInfoResultType) : M unit :=
  do is_first_run <- reads is_first_run_;
  when is_first_run
    (modify (set_is_first_run false) ;; GenerateAdReportingRestartEvent) ;;
  do notification_type <-
    match type with
    | CLICKED =>
        client (Client.UpdateAdsUUIDSeen (NotificationInfo.uuid info) 1) ;;
        StartSustainingAdInteraction (kSustainAdInteractionAfterSeconds E) ;;
        ret Report.clicked
    | DISMISSED =>
        client (Client.UpdateAdsUUIDSeen (NotificationInfo.uuid info) 1) ;;
        ret Report.dismissed
    | TIMEOUT => ret Report.timeout
    end;
  let classifications := Split (NotificationInfo.category info) "-" in
  call (Out.EventLog (Report.notify notification_type classifications
          (notification_catalog info) (NotificationInfo.url info))).

(** *** Collection timer, history and locales (lines 319-331, 759-781, 820-826) *)

Definition ConfirmAdUUIDIfAdEnabled : M unit :=
  if negb (IsAdsEnabled E) then StopCollectingActivity
  else
    client (Client.UpdateAdUUID (GenerateUUID E)) ;;
    if _is_debug E then StartCollectingActivity (kDebugOneHourInSeconds E)
    else StartCollectingActivity kOneHourInSeconds.

Definition RemoveAllHistory : M unit :=
  client Client.RemoveAllHistory ;;
  ConfirmAdUUIDIfAdEnabled.

Definition SaveCachedInfo : M unit :=
  when (negb (IsAdsEnabled E)) (client Client.RemoveAllHistory) ;;
  call Out.SaveState.

Definition RetrieveSSID : M unit :=
  let ssid := GetSSID E in
  let ssid := if Str.empty ssid then kUnknownSSID E else ssid in
  client (Client.SetCurrentSSID ssid).

Definition ProcessLocales (locales : list string) : M unit :=
  if is_empty locales then ret tt
  else client (Client.SetLocales locales).

(** *** Initialisation, first part (lines 171-195, 482-512) *)

Definition Deinitialize : M unit :=
  do initialized <- IsInitialized;
  if negb initialized then ret tt
  else
    call Out.ResetAdsServe ;;
    StopSustainingAdInteraction ;;
    RemoveAllHistory ;;
    call Out.ResetBundle ;;
    modify (set_user_model None) ;;
    modify (set_last_shown_notification_info NotificationInfo.default) ;;
    modify (set_last_page_classification "") ;;
    modify (set_page_score_cache ∅) ;;
    modify (set_is_first_run true) ;;
    modify (set_is_initialized false) ;;
    modify (set_is_foreground false).

Definition Initialize : M unit :=
  do initialized <- IsInitialized;
  if initialized then ret tt
  else if negb (IsAdsEnabled E) then Deinitialize
  else
    do initialized <- IsInitialized;
    if initialized then ret tt
    else call Out.LoadState.

Definition LoadUserModel : M unit :=
  do locale <- reads (λ s, Client.GetLocale (client_ s));
  call (Out.LoadUserModelForLocale locale).

Definition InitializeStep2 : M unit :=
  ProcessLocales (GetLocales E) ;;
  LoadUserModel.

(** *** Rate limits (lines 867-886 and 930-949) *)

(** The loop of lines 938-942: [now - ad_shown] is a difference of unsigned
    64-bit values, compared with the [uint64_t] window; [recent_count++]
    is an unsigned 64-bit increment. *)
Definition count_recent (now seconds_window : Z) (ads_shown_history : list Z) : Z :=
  foldl (λ recent_count ad_shown,
           if (wrap64 (now - ad_shown) <? seconds_window)%Z
           then wrap64 (recent_count + 1)
           else recent_count)
        0%Z ads_shown_history.

Definition AdsShownHistoryRespectsRollingTimeConstraint
    (seconds_window allowable_ad_count : Z) : M bool :=
  do ads_shown_history <- reads (λ s, Client.GetAdsShownHistory (client_ s));
  let now := Now E in
  let recent_count := count_recent now seconds_window ads_shown_history in
  if (recent_count <=? allowable_ad_count)%Z then ret true
  else ret false.

Definition IsAllowedToShowAds : M bool :=
  let hour_window := kOneHourInSeconds in
  let hour_allowed := GetAdsPerHour E in
  do respects_hour_limit <-
    AdsShownHistoryRespectsRollingTimeConstraint hour_window hour_allowed;
  let day_window := kOneHourInSeconds in
  let day_allowed := GetAdsPerDay E in
  do respects_day_limit <-
    AdsShownHistoryRespectsRollingTimeConstraint day_window day_allowed;
  do minimum_wait_time <- udiv hour_window hour_allowed;
  do respects_minimum_wait_time <-
    AdsShownHistoryRespectsRollingTimeConstraint minimum_wait_time 0;
  ret (respects_hour_limit && respects_day_limit && respects_minimum_wait_time).

(** *** Showing an ad (lines 850-865 and 888-928) *)

Definition IsAdValid (ad_info : AdInfo.t) : bool :=
  if Str.empty (AdInfo.advertiser ad_info)
     || Str.empty (AdInfo.notification_text ad_info)
     || Str.empty (AdInfo.notification_url ad_info)
  then false
  else true.

Definition ShowAd (ad_info : AdInfo.t) (category : string) : M bool :=
  if negb (IsAdValid ad_info) then ret false
  else
    let notification_info :=
      {| NotificationInfo.advertiser := AdInfo.advertiser ad_info;
         NotificationInfo.category := category;
         NotificationInfo.text := AdInfo.notification_text ad_info;
         NotificationInfo.url := AdInfo.notification_url ad_info;
         NotificationInfo.creative_set_id := AdInfo.creative_set_id ad_info;
         NotificationInfo.uuid := AdInfo.uuid ad_info |} in
    modify (set_last_shown_notification_info notification_info) ;;
    call (Out.ShowNotification notification_info) ;;
    client (Client.AppendCurrentTimeToAdsShownHistory (Now E)) ;;
    ret true.

(** [std::remove_if] with [erase]: the ads whose uuid is a key of the seen
    map are removed, the others keep their order. *)
Definition GetUnseenAds (ads : list AdInfo.t) : M (list AdInfo.t) :=
  do ads_seen <- reads (λ s, Client.GetAdsUUIDSeen (client_ s));
  ret (filter (λ info, ads_seen !! AdInfo.uuid info = None) ads).

(** *** The answer of the catalog (lines 585-635)

    The two blocks of the method end in [return] on some of their paths:
    each block yields whether the method goes on. *)
Definition OnGetAds (result : Result) (region category : string)
    (ads : list AdInfo.t) : M unit :=
  do returned <-
    match result with
    | FAILED =>
        match Str.find_last_of category "-" with
        | Some pos =>
            let new_category := Str.substr category 0 pos in
            call (Out.GetAds region new_category) ;;
            ret true
        | None =>
            if is_empty ads then ret true else ret false
        end
    | SUCCESS => ret false
    end;
  if returned then ret tt
  else
    do ads_unseen <- GetUnseenAds ads;
    do ads_unseen <-
      if is_empty ads_unseen then
        client (Client.ResetAdsUUIDSeen ads) ;;
        do ads_unseen <- GetUnseenAds ads;
        if is_empty ads_unseen then ret None else ret (Some ads_unseen)
      else ret (Some ads_unseen);
    match ads_unseen with
    | None => ret tt
    | Some ads_unseen =>
        let rand := Random E AdDraw (length ads_unseen - 1) in
        do ad <- at_ ads_unseen rand;
        ShowAd ad category ;;
        ret tt
    end.

(** *** The sample bundle (lines 438-445 and 637-688) *)

Definition OnLoadSampleBundle (result : Result) (json : string) : M unit :=
  match result with
  | FAILED => ret tt
  | SUCCESS =>
      match LoadFromJson E json (LoadJsonSchema E (_bundle_schema_name E)) with
      | None => ret tt
      | Some categories =>
          let categories_count := length categories in
          if categories_count =? 0 then ret tt
          else
            let category_rand := Random E SampleCategoryDraw (categories_count - 1) in
            do entry <- at_ categories category_rand;
            let category := entry.1 in
            let ads := entry.2 in
            let ads_count := length ads in
            if ads_count =? 0 then ret tt
            else
              let ad_rand := Random E SampleAdDraw (ads_count - 1) in
              do ad <- at_ ads ad_rand;
              ShowAd ad category ;;
              ret tt
      end
  end.

Definition ServeSampleAd : M unit :=
  do initialized <- IsInitialized;
  if negb initialized then ret tt
  else call Out.LoadSampleBundle.

(** *** Winning categories (lines 539-583) *)

Definition GetWinningCategory (page_score : list float) : M string :=
  do um <- user_model;
  ret (UserModel.winningCategory um page_score).

(** The inner loop of lines 561-563,
    [winner_over_time_page_scores[i] += page_scores[i]] for [i] below
    [page_scores.size()].  It runs after the size check of line 557, so
    both indexings are in range; the last case is never taken. *)
Definition add_page_scores (winner_over_time_page_scores page_scores : list float)
    : list float :=
  foldl (λ winner i,
           match winner !! i, page_scores !! i with
           | Some w, Some p => <[i := (w + p)%float]> winner
           | _, _ => winner
           end)
        winner_over_time_page_scores (seq 0 (length page_scores)).

(** The loop of lines 556-564; [None] when line 558 returns. *)
Fixpoint sum_page_score_history (count : nat) (winner_over_time_page_scores : list float)
    (page_score_history : list (list float)) : option (list float) :=
  match page_score_history with
  | [] => Some winner_over_time_page_scores
  | page_scores :: rest =>
      if negb (length page_scores =? count) then None
      else sum_page_score_history count
             (add_page_scores winner_over_time_page_scores page_scores) rest
  end.

Definition GetWinnerOverTimeCategory : M string :=
  do page_score_history <- reads (λ s, Client.GetPageScoreHistory (client_ s));
  match page_score_history with
  | [] => ret ""
  | front :: _ =>
      let count := length front in
      let winner_over_time_page_scores := replicate count 0%float in
      match sum_page_score_history count winner_over_time_page_scores
              page_score_history with
      | None => ret ""
      | Some winner_over_time_page_scores =>
          do um <- user_model;
          ret (UserModel.winningCategory um winner_over_time_page_scores)
      end
  end.

Definition CachePageScore (url : string) (page_score : list float) : M unit :=
  do page_score_cache <- reads page_score_cache_;
  match page_score_cache !! url with
  | None => modify (set_page_score_cache (<[url := page_score]> page_score_cache))
  | Some _ => modify (set_page_score_cache (<[url := page_score]> page_score_cache))
  end.

(** *** The decision cycle (lines 379-436 and 828-848) *)

Definition ServeAdFromCategory (category : string) : M unit :=
  let catalog_id := GetCatalogId E in
  if Str.empty catalog_id then ret tt
  else if Str.empty category then ret tt
  else
    let locale := GetAdsLocale E in
    let region := GetCountryCode E locale in
    call (Out.GetAds region category).

Definition CheckReadyAdServe (forced : bool) : M unit :=
  do initialized <- IsInitialized;
  if negb initialized then ret tt
  else
    do returned <-
      if negb forced then
        do foreground <- IsForeground;
        if negb foreground then ret true
        else
          do media_playing <- IsMediaPlaying;
          if media_playing then ret true
          else
            do allowed <- IsAllowedToShowAds;
            if negb allowed then ret true else ret false
      else ret false;
    if returned then ret tt
    else
      do category <- GetWinnerOverTimeCategory;
      ServeAdFromCategory category.

(** [CheckReadyAdServe()] at line 406 takes the default argument of the
    declaration; section 4.6 of the spec gives it as [forced=false]. *)
Definition NotificationAllowedCheck (serve : bool) : M unit :=
  let ok := IsNotificationsAvailable E in
  do previous <- reads (λ s, Client.GetAvailable (client_ s));
  when (negb (Bool.eqb ok previous)) (client (Client.SetAvailable ok)) ;;
  when (negb serve || negb (Bool.eqb ok previous)) GenerateAdReportingSettingsEvent ;;
  if negb serve then ret tt
  else if negb ok then ret tt
  else CheckReadyAdServe false.

Definition OnUnIdle : M unit :=
  client (Client.UpdateLastUserIdleStopTime (Now E)) ;;
  NotificationAllowedCheck true.

(** *** Initialisation, second part (lines 197-211 and 514-537) *)

Definition InitializeStep3 : M unit :=
  modify (set_is_initialized true) ;;
  call (Out.SetIdleThreshold (kIdleThresholdInSeconds E)) ;;
  NotificationAllowedCheck false ;;
  RetrieveSSID ;;
  ConfirmAdUUIDIfAdEnabled ;;
  call Out.DownloadCatalog.

Definition InitializeUserModel (json : string) : M unit :=
  modify (set_user_model (Some (CreateUserModel E json))).

Definition OnUserModelLoaded (result : Result) (json : string) : M unit :=
  match result with
  | FAILED => ret tt
  | SUCCESS =>
      InitializeUserModel json ;;
      do initialized <- IsInitialized;
      if negb initialized then InitializeStep3 else ret tt
  end.

(** *** Pages and locales (lines 333-377 and 783-818) *)

Definition TestShoppingData (url : string) : M unit :=
  do initialized <- IsInitialized;
  if negb initialized then ret tt
  else
    let '(parsed, components) := GetUrlComponents E url in
    if negb parsed then ret tt
    else if String.eqb (UrlComponents.hostname components) "www.amazon.com"
    then client (Client.FlagShoppingState url 1%float)
    else client Client.UnflagShoppingState.

Definition TestSearchState (url : string) : M unit :=
  do initialized <- IsInitialized;
  if negb initialized then ret tt
  else
    let '(parsed, components) := GetUrlComponents E url in
    if negb parsed then ret tt
    else if IsSearchEngine E components
    then client (Client.FlagSearchState url 1%float)
    else client (Client.UnflagSearchState url).

Definition ClassifyPage (url html : string) : M unit :=
  do initialized <- IsInitialized;
  if negb initialized then ret tt
  else
    TestShoppingData url ;;
    TestSearchState url ;;
    do um <- user_model;
    let page_score := UserModel.classifyPage um html in
    client (Client.AppendPageScoreToPageScoreHistory page_score) ;;
    do category <- GetWinningCategory page_score;
    modify (set_last_page_classification category).

(** [std::find(locales.begin(), locales.end(), x) != locales.end()] is
    membership of [x] in the vector. *)
Definition ChangeLocale (locale : string) : M unit :=
  do initialized <- IsInitialized;
  if negb initialized then ret tt
  else
    let locales := GetLocales E in
    (if bool_decide (locale ∈ locales) then client (Client.SetLocale locale)
     else
       let locale_components := Split locale "_" in
       do language_code <- front locale_components;
       let closest_match_for_locale :=
         if bool_decide (language_code ∈ locales) then language_code
         else kDefaultLanguage E in
       client (Client.SetLocale closest_match_for_locale)) ;;
    LoadUserModel.

(** *** Tabs (lines 279-317 and 980-1048) *)

Definition GenerateAdReportingLoadEvent (info : LoadInfo) : M unit :=
  let '(parsed, components) := GetUrlComponents E (tab_url info) in
  if parsed
     || (negb (String.eqb (UrlComponents.scheme components) "http")
         && negb (String.eqb (UrlComponents.scheme components) "https"))
  then ret tt
  else
    do search_state <- reads (λ s, Client.GetSearchState (client_ s));
    let tab_type := if search_state then Report.search else Report.click in
    do last_page_classification <- reads last_page_classification_;
    let classifications := Split last_page_classification "-" in
    do page_score_cache <- reads page_score_cache_;
    let cached_page_score := page_score_cache !! tab_url info in
    call (Out.EventLog
            (Report.load (tab_id info) tab_type (tab_url info) classifications
               cached_page_score)) ;;
    let now := Now E in
    do next_easter_egg <- reads next_easter_egg_;
    if _is_testing E && String.eqb (tab_url info) "https://www.iab.com/"
       && (next_easter_egg <? now)%Z
    then
      modify (set_next_easter_egg (wrap64 (now + kNextEasterEggStartsInSeconds E))) ;;
      CheckReadyAdServe true
    else ret tt.

Definition TabUpdated (tab_id : Z) (url : string) (is_active is_incognito : bool) : M unit :=
  if is_incognito then ret tt
  else
    client (Client.UpdateLastUserActivity (Now E)) ;;
    GenerateAdReportingLoadEvent {| tab_id := tab_id; tab_url := url |} ;;
    if is_active then
      modify (set_last_shown_tab_url url) ;;
      TestShoppingData url ;;
      TestSearchState url ;;
      GenerateAdReportingFocusEvent tab_id
    else GenerateAdReportingBlurEvent tab_id.

Definition TabClosed (tab_id : Z) : M unit :=
  OnMediaStopped tab_id ;;
  GenerateAdReportingDestroyEvent tab_id.

(** *** Timer ticks (lines 472-478 and 690-698) *)

Definition CollectActivity : M unit :=
  do initialized <- IsInitialized;
  if negb initialized then ret tt
  else call Out.DownloadCatalog.

Definition OnTimer (timer_id : Z) : M unit :=
  do collect_activity_timer_id <- reads collect_activity_timer_id_;
  do sustained_ad_interaction_timer_id <- reads sustained_ad_interaction_timer_id_;
  if (timer_id =? collect_activity_timer_id)%Z then CollectActivity
  else if (timer_id =? sustained_ad_interaction_timer_id)%Z then SustainAdInteraction
  else ret tt.

End Engine.

(** ** The engine as a transition system *)

(** The ways the host and the collaborators enter the engine, with their
    arguments: the operations of the interface [Ads] (section 6 of the
    spec), the completions of the requests the engine makes ([OnTimer],
    [OnUserModelLoaded], [OnGetAds], [OnLoadSampleBundle], the loading of
    the client state), and the other methods that begin with
    [IsInitialized].  [InitializeStep3] is entered from [OnUserModelLoaded]
    only, its one call in the sources (line 528). *)
Inductive invocation :=
| DoInitialize
| DoInitializeStep2
| DoDeinitialize
| DoOnForeground
| DoOnBackground
| DoOnIdle
| DoOnUnIdle
| DoOnMediaPlaying (tab_id : Z)
| DoOnMediaStopped (tab_id : Z)
| DoTabUpdated (tab_id : Z) (url : string) (is_active is_incognito : bool)
| DoTabClosed (tab_id : Z)
| DoRemoveAllHistory
| DoSaveCachedInfo
| DoClassifyPage (url html : string)
| DoChangeLocale (locale : string)
| DoCheckReadyAdServe (forced : bool)
| DoServeSampleAd
| DoCollectActivity
| DoTestShoppingData (url : string)
| DoTestSearchState (url : string)
| DoOnTimer (timer_id : Z)
| DoOnUserModelLoaded (result : Result) (json : string)
| DoOnGetAds (result : Result) (region category : string) (ads : list AdInfo.t)
| DoOnLoadSampleBundle (result : Result) (json : string)
| DoGenerateAdReportingNotificationShownEvent (info : NotificationInfo.t)
| DoGenerateAdReportingNotificationResultEvent
    (info : NotificationInfo.t) (type : NotificationResultInfoResultType)
| DoClientStateLoaded (loaded : Client.t).

(** Modelled from the spec: the completion of [client_->LoadState()]
    ("Requests client state load asynchronously; completion calls phase
    2"): the client holds the loaded state and calls [InitializeStep2]. *)
Definition OnClientStateLoaded (E : Env) (loaded : Client.t) : M unit :=
  client (λ _, loaded) ;;
  InitializeStep2 E.

Definition invoke (E : Env) (i : invocation) : M unit :=
  match i with
  | DoInitialize => Initialize E
  | DoInitializeStep2 => InitializeStep2 E
  | DoDeinitialize => Deinitialize E
  | DoOnForeground => OnForeground
  | DoOnBackground => OnBackground
  | DoOnIdle => OnIdle
  | DoOnUnIdle => OnUnIdle E
  | DoOnMediaPlaying tab_id => OnMediaPlaying tab_id
  | DoOnMediaStopped tab_id => OnMediaStopped tab_id
  | DoTabUpdated tab_id url is_active is_incognito =>
      TabUpdated E tab_id url is_active is_incognito
  | DoTabClosed tab_id => TabClosed tab_id
  | DoRemoveAllHistory => RemoveAllHistory E
  | DoSaveCachedInfo => SaveCachedInfo E
  | DoClassifyPage url html => ClassifyPage E url html
  | DoChangeLocale locale => ChangeLocale E locale
  | DoCheckReadyAdServe forced => CheckReadyAdServe E forced
  | DoServeSampleAd => ServeSampleAd E
  | DoCollectActivity => CollectActivity E
  | DoTestShoppingData url => TestShoppingData E url
  | DoTestSearchState url => TestSearchState E url
  | DoOnTimer timer_id => OnTimer E timer_id
  | DoOnUserModelLoaded result json => OnUserModelLoaded E result json
  | DoOnGetAds result region category ads => OnGetAds E result region category ads
  | DoOnLoadSampleBundle result json => OnLoadSampleBundle E result json
  | DoGenerateAdReportingNotificationShownEvent info =>
      GenerateAdReportingNotificationShownEvent info
  | DoGenerateAdReportingNotificationResultEvent info type =>
      GenerateAdReportingNotificationResultEvent E info type
  | DoClientStateLoaded loaded => OnClientStateLoaded E loaded
  end.

(** Invocations one after the other, in one environment. *)
Fixpoint invoke_all (E : Env) (invocations : list invocation) : M unit :=
  match invocations with
  | [] => ret tt
  | i :: rest => invoke E i ;; invoke_all E rest
  end.

(** The states the object goes through from its construction; the
    environment may differ from one invocation to the next. *)
Inductive reachable : AdsImpl -> Prop :=
| reachable_new : reachable AdsImpl_new
| reachable_invoke E i s s' out :
    reachable s -> invoke E i s = Ok (tt, s', out) -> reachable s'.

(** ** The statements of the specification *)

(** The time since a dispatch, as line 939 computes it: the unsigned 64-bit
    difference [now - ad_shown].  For a dispatch that is not after [now] it
    is the difference of the integers ([elapsed_past]). *)
Definition elapsed (now ad_shown : Z) : Z := wrap64 (now - ad_shown).

(** The number of timestamps [t] of the history with [now - t < window]. *)
Definition shown_within (now window : Z) (ads_shown_history : list Z) : Z :=
  Z.of_nat (length (filter (λ t, (elapsed now t < window)%Z) ads_shown_history)).

(** The length of the day window of the specification, in seconds. *)
Definition one_day_in_seconds : Z := 86400.

(** The pointwise sum of the vectors of a history, over the indices below
    [n]: entry [i] is the sum of the entries [i] of the vectors, added in
    the order of the history, from zero. *)
Definition pointwise_sum (n : nat) (page_score_history : list (list float)) : list float :=
  map (λ i, foldl (λ sum page_scores, (sum + nth i page_scores 0)%float)
              0%float page_score_history)
      (seq 0 n).

(** The first segment of [s] when it is split at [delimiter]: what comes
    before the first [delimiter], or [s] when it has none. *)
Fixpoint first_segment (s : string) (delimiter : ascii) : string :=
  match s with
  | EmptyString => EmptyString
  | String a s' =>
      if Ascii.eqb a delimiter then EmptyString
      else String a (first_segment s' delimiter)
  end.

(** The candidates that are not in the seen set. *)
Definition unseen (ads_seen : gmap string Z) (ads : list AdInfo.t) : list AdInfo.t :=
  filter (λ ad, AdInfo.uuid ad ∉ dom ads_seen) ads.

(** An invocation dispatches when it hands a notification to the host. *)
Definition dispatches (out : list Out.call) : Prop :=
  ∃ info, Out.ShowNotification info ∈ out.

(** An [OnGetAds] invocation reaches the selection of lines 616-635 when it
    does not return from the block of lines 590-614. *)
Definition reaches_selection (result : Result) (category : string)
    (ads : list AdInfo.t) : Prop :=
  result = SUCCESS ∨ (Str.find_last_of category "-" = None ∧ ads ≠ []).

(** The last two lines of [OnGetAds] for a draw [rand]: [ShowAd] on the
    candidate at that position. *)
Definition show_at (E : Env) (category : string) (candidates : list AdInfo.t)
    (rand : nat) : M unit :=
  do ad <- at_ candidates rand;
  ShowAd E ad category ;;
  ret tt.

(** The last three lines of [OnGetAds]: the draw is the one the random
    source gives for the bound [size - 1]. *)
Definition show_drawn (E : Env) (category : string) (candidates : list AdInfo.t) : M unit :=
  show_at E category candidates (Random E AdDraw (length candidates - 1)).

(** The two fields the initialisation guard depends on. *)
Definition guard_fields (s : AdsImpl) : bool * option UserModel.t :=
  (is_initialized_ s, user_model_ s).

(** [is_initialized_] is set only while a user model exists. *)
Definition guarded (k : bool * option UserModel.t) : Prop :=
  k.1 = true -> is_Some k.2.

(** A method run from a state that satisfies [P] does not fault on a null
    [user_model_], and its result and final state satisfy [Q]. *)
Definition triple {A} (P : AdsImpl -> Prop) (m : M A) (Q : A -> AdsImpl -> Prop) : Prop :=
  ∀ s, P s ->
    match m s with
    | Ok (a, s', _) => Q a s'
    | Fault f => f ≠ NullDereference
    end.

(** A method that leaves the two fields of the guard as they are. *)
Definition keeps {A} (k : bool * option UserModel.t) (m : M A) (Q : A -> Prop) : Prop :=
  triple (λ s, guard_fields s = k) m (λ a s', guard_fields s' = k ∧ Q a).

(** Every call a method makes satisfies [P]. *)
Definition emits {A} (P : Out.call -> Prop) (m : M A) : Prop :=
  ∀ s,
    match m s with
    | Ok (_, _, out) => Forall P out
    | Fault _ => True
    end.

(** A call that hands no incomplete notification to the host. *)
Definition complete_notification (c : Out.call) : Prop :=
  match c with
  | Out.ShowNotification info =>
      NotificationInfo.advertiser info ≠ "" ∧
      NotificationInfo.text info ≠ "" ∧
      NotificationInfo.url info ≠ ""
  | _ => True
  end.

(** ** Sample data for the examples *)

Module Sample.

Definition labels : list string := ["news"; "sports"; "tech"].

(** A classifier with three categories; the winner is the label of the
    highest score, the leftmost on a tie. *)
Fixpoint winner_from (labels : list string) (scores : list float)
    (best : string) (best_score : float) : string :=
  match labels, scores with
  | l :: labels', x :: scores' =>
      if (best_score <? x)%float then winner_from labels' scores' l x
      else winner_from labels' scores' best best_score
  | _, _ => best
  end.

Definition winning (scores : list float) : string :=
  match labels, scores with
  | l :: labels', x :: scores' => winner_from labels' scores' l x
  | _, _ => ""
  end.

Definition classifier : UserModel.t :=
  {| UserModel.IsInitialized := true;
     UserModel.classifyPage := λ _, [0.125; 0.75; 0.25]%float;
     UserModel.winningCategory := winning |}.

Definition ad (uuid : string) : AdInfo.t :=
  {| AdInfo.creative_set_id := "set-1";
     AdInfo.advertiser := "Brave";
     AdInfo.notification_text := "Try the browser";
     AdInfo.notification_url := "https://brave.com/";
     AdInfo.uuid := uuid |}.

Definition ad_without_text (uuid : string) : AdInfo.t :=
  {| AdInfo.creative_set_id := "set-1";
     AdInfo.advertiser := "Brave";
     AdInfo.notification_text := "";
     AdInfo.notification_url := "https://brave.com/";
     AdInfo.uuid := uuid |}.

(** A url parser that succeeds on every url and reports [https]. *)
Definition parse_https (url : string) : bool * UrlComponents.t :=
  (true, {| UrlComponents.scheme := "https"; UrlComponents.hostname := "example.com" |}).

(** A url parser that fails, leaving [http] in the components. *)
Definition parse_fails_http (url : string) : bool * UrlComponents.t :=
  (false, {| UrlComponents.scheme := "http"; UrlComponents.hostname := "" |}).

(** A host with ads enabled. *)
Definition host (locales : list string) (ads_per_hour ads_per_day now : Z)
    (parser : string -> bool * UrlComponents.t) (draw : nat) : Env :=
  {| IsAdsEnabled := true;
     IsNotificationsAvailable := true;
     GetLocales := locales;
     GetAdsLocale := "en_US";
     GetSSID := "";
     GetAdsPerHour := ads_per_hour;
     GetAdsPerDay := ads_per_day;
     SetTimer := λ _, 7%Z;
     GetUrlComponents := parser;
     LoadJsonSchema := λ _, "";
     Now := now;
     Random := λ _ _, draw;
     GetCountryCode := λ _, "US";
     IsSearchEngine := λ _, false;
     GenerateUUID := "ad-uuid";
     CreateUserModel := λ _, classifier;
     GetCatalogId := "catalog-1";
     LoadFromJson := λ _ _, None;
     kIdleThresholdInSeconds := 15;
     kSustainAdInteractionAfterSeconds := 10;
     kDebugOneHourInSeconds := 25;
     kNextEasterEggStartsInSeconds := 30;
     kDefaultLanguage := "en";
     kUnknownSSID := "Unknown";
     _bundle_schema_name := "bundle-schema.json";
     _is_debug := false;
     _is_testing := false |}.

(** An initialised engine in the foreground, with the given client
    histories and seen set. *)
Definition running (ads_shown_history : list Z) (page_score_history : list (list float))
    (ads_uuid_seen : gmap string Z) : AdsImpl :=
  {| is_first_run_ := false;
     is_initialized_ := true;
     is_foreground_ := true;
     last_shown_tab_url_ := "";
     last_shown_notification_info_ := NotificationInfo.default;
     last_page_classification_ := "";
     page_score_cache_ := ∅;
     collect_activity_timer_id_ := 7;
     sustained_ad_interaction_timer_id_ := 0;
     media_playing_ := ∅;
     next_easter_egg_ := 0;
     user_model_ := Some classifier;
     client_ :=
       {| Client.locale := "en";
          Client.locales := ["en"; "fr"; "de"];
          Client.page_score_history := page_score_history;
          Client.ads_shown_history := ads_shown_history;
          Client.ads_uuid_seen := ads_uuid_seen;
          Client.available := true;
          Client.search_state := false;
          Client.shop_state := false;
          Client.current_ssid := "Unknown";
          Client.current_place := "";
          Client.ad_uuid := "ad-uuid";
          Client.last_user_activity := 0;
          Client.last_user_idle_stop_time := 0 |} |}.

End Sample.

(** ** Statements about the rest of the engine *)

(** The call that cancels a pending timer; the handle 0 stands for no
    timer, and nothing is cancelled. *)
Definition kill_pending (timer_id : Z) : list Out.call :=
  if (timer_id =? 0)%Z then [] else [Out.KillTimer timer_id].

(** The number of ['-'] of a category. *)
Definition hyphens (category : string) : nat :=
  length (filter (λ a, a = "-"%char) (Str.chars category)).

Definition is_notification (c : Out.call) : bool :=
  match c with
  | Out.ShowNotification _ => true
  | _ => false
  end.

(** The number of notifications among the calls of an invocation. *)
Definition notifications (out : list Out.call) : nat :=
  length (filter (λ c, is_notification c = true) out).

(** A call that is not a notification. *)
Definition not_notification (c : Out.call) : Prop := is_notification c = false.

(** The invocations that bring an answer with ads: the answer of the
    catalog and the sample bundle. *)
Definition brings_ads (i : invocation) : bool :=
  match i with
  | DoOnGetAds _ _ _ _ => true
  | DoOnLoadSampleBundle _ _ => true
  | _ => false
  end.

(** The notification that lines 907-913 build from an ad and a category. *)
Definition notification_of (ad : AdInfo.t) (category : string) : NotificationInfo.t :=
  {| NotificationInfo.advertiser := AdInfo.advertiser ad;
     NotificationInfo.category := category;
     NotificationInfo.text := AdInfo.notification_text ad;
     NotificationInfo.url := AdInfo.notification_url ad;
     NotificationInfo.creative_set_id := AdInfo.creative_set_id ad;
     NotificationInfo.uuid := AdInfo.uuid ad |}.

(** The object after lines 915-925 showed a notification: the notification
    is the one shown last and the time is appended to the ads-shown
    history. *)
Definition after_show (E : Env) (info : NotificationInfo.t) (s : AdsImpl) : AdsImpl :=
  set_client (Client.AppendCurrentTimeToAdsShownHistory (Now E) (client_ s))
    (set_last_shown_notification_info info s).

(** The host [E] in a build with [_is_testing] as given and a sample
    bundle that parses to [bundle]. *)
Definition host_with (testing : bool) (bundle : option BundleCategories) (E : Env) : Env :=
  {| IsAdsEnabled := IsAdsEnabled E;
     IsNotificationsAvailable := IsNotificationsAvailable E;
     GetLocales := GetLocales E;
     GetAdsLocale := GetAdsLocale E;
     GetSSID := GetSSID E;
     GetAdsPerHour := GetAdsPerHour E;
     GetAdsPerDay := GetAdsPerDay E;
     SetTimer := SetTimer E;
     GetUrlComponents := GetUrlComponents E;
     LoadJsonSchema := LoadJsonSchema E;
     Now := Now E;
     Random := Random E;
     GetCountryCode := GetCountryCode E;
     IsSearchEngine := IsSearchEngine E;
     GenerateUUID := GenerateUUID E;
     CreateUserModel := CreateUserModel E;
     GetCatalogId := GetCatalogId E;
     LoadFromJson := λ _ _, bundle;
     kIdleThresholdInSeconds := kIdleThresholdInSeconds E;
     kSustainAdInteractionAfterSeconds := kSustainAdInteractionAfterSeconds E;
     kDebugOneHourInSeconds := kDebugOneHourInSeconds E;
     kNextEasterEggStartsInSeconds := kNextEasterEggStartsInSeconds E;
     kDefaultLanguage := kDefaultLanguage E;
     kUnknownSSID := kUnknownSSID E;
     _bundle_schema_name := _bundle_schema_name E;
     _is_debug := _is_debug E;
     _is_testing := testing |}.

(** Every fault a method can end in satisfies [F]. *)
Definition faults {A} (F : fault -> Prop) (m : M A) : Prop :=
  ∀ s,
    match m s with
    | Ok _ => True
    | Fault f => F f
    end.

(** What a fault of the engine can come from: a null [user_model_], a host
    that allows no ad per hour (the division of line 878), or a draw of
    [helper::Math::Random(max)] beyond [max]. *)
Definition explained (E : Env) (f : fault) : Prop :=
  f = NullDereference
  ∨ (f = DivisionByZero ∧ GetAdsPerHour E = 0%Z)
  ∨ (f = OutOfRange ∧ ∃ site bound, bound < Random E site bound).

(** The invocations that clear the histories of the client or replace the
    client state. *)
Definition replaces_history (i : invocation) : bool :=
  match i with
  | DoDeinitialize | DoRemoveAllHistory | DoSaveCachedInfo | DoClientStateLoaded _ => true
  | _ => false
  end.

(** A method that records its dispatches: the ads-shown history it leaves
    is the one it found with the time of the invocation appended once for
    every notification it hands to the host. *)
Definition records_dispatches {A} (E : Env) (m : M A) : Prop :=
  ∀ s,
    match m s with
    | Ok (_, s', out) =>
        Client.GetAdsShownHistory (client_ s')
        = Client.GetAdsShownHistory (client_ s) ++ replicate (notifications out) (Now E)
    | Fault _ => True
    end.

(** * Verification *)

(** ** Machine integers and strings *)

Lemma wrap64_small z : (0 ≤ z < 2 ^ 64)%Z -> wrap64 z = z.
Proof. intros Hz. unfold wrap64. apply Z.mod_small. exact Hz. Qed.

Lemma elapsed_past now t : (0 ≤ t ≤ now)%Z -> (now < 2 ^ 64)%Z -> elapsed now t = (now - t)%Z.
Proof. intros Ht Hnow. unfold elapsed. apply wrap64_small. lia. Qed.

(** A dispatch stamped after [now] is never within a window that fits in 64
    bits less the distance: the unsigned difference wraps around. *)
Lemma elapsed_future now t :
  (0 ≤ now < t)%Z -> (t < 2 ^ 64)%Z -> elapsed now t = (2 ^ 64 - (t - now))%Z.
Proof.
  intros Hnow Ht. unfold elapsed, wrap64.
  replace (now - t)%Z with ((2 ^ 64 - (t - now)) + (-1) * 2 ^ 64)%Z by lia.
  rewrite Z.mod_add by lia. apply Z.mod_small. lia.
Qed.

(** For a history of past dispatches the count is the one of the integer
    differences. *)
Lemma shown_within_past now window history :
  (now < 2 ^ 64)%Z ->
  Forall (λ t, (0 ≤ t ≤ now)%Z) history ->
  shown_within now window history
  = Z.of_nat (length (filter (λ t, (now - t < window)%Z) history)).
Proof.
  intros Hnow Hpast. unfold shown_within. do 2 f_equal.
  induction Hpast as [| t history Ht _ IH]; [reflexivity |].
  rewrite !filter_cons, IH, (elapsed_past now t Ht Hnow). reflexivity.
Qed.

Lemma shown_within_nil now window : shown_within now window [] = 0%Z.
Proof. reflexivity. Qed.

Lemma shown_within_cons now window t history :
  shown_within now window (t :: history) =
  ((if bool_decide (elapsed now t < window)%Z then 1 else 0) + shown_within now window history)%Z.
Proof.
  unfold shown_within. rewrite filter_cons.
  destruct (decide (elapsed now t < window)%Z) as [Hlt | Hge].
  - rewrite bool_decide_eq_true_2 by exact Hlt. simpl length. lia.
  - rewrite bool_decide_eq_false_2 by exact Hge. lia.
Qed.

Lemma shown_within_bounds now window history :
  (0 ≤ shown_within now window history ≤ Z.of_nat (length history))%Z.
Proof.
  unfold shown_within. split; [lia |].
  apply inj_le. apply length_filter.
Qed.

(** The loop of [AdsShownHistoryRespectsRollingTimeConstraint] started with
    a counter [recent_count]: the counter does not wrap as long as the
    history has fewer than [2^64] entries. *)
Lemma count_recent_from now window history :
  ∀ recent_count,
    (0 ≤ recent_count)%Z ->
    (recent_count + Z.of_nat (length history) < 2 ^ 64)%Z ->
    foldl (λ recent_count ad_shown,
             if (wrap64 (now - ad_shown) <? window)%Z
             then wrap64 (recent_count + 1)
             else recent_count)
          recent_count history
    = (recent_count + shown_within now window history)%Z.
Proof.
  induction history as [| t history IH]; intros recent_count Hpos Hlen.
  - rewrite shown_within_nil. simpl. lia.
  - rewrite shown_within_cons. simpl foldl. simpl length in Hlen.
    fold (elapsed now t).
    destruct (Z.ltb_spec (elapsed now t) window) as [Hlt | Hge].
    + rewrite bool_decide_eq_true_2 by exact Hlt.
      rewrite wrap64_small by lia.
      rewrite IH by lia. lia.
    + rewrite bool_decide_eq_false_2 by lia.
      rewrite IH by lia. lia.
Qed.

Lemma count_recent_shown_within now window history :
  (Z.of_nat (length history) < 2 ^ 64)%Z ->
  count_recent now window history = shown_within now window history.
Proof.
  intros Hlen. unfold count_recent.
  rewrite count_recent_from by lia. lia.
Qed.

(** ** Rate limits *)

Section RateLimits.

Context (E : Env).

Local Open Scope Z_scope.

Lemma AdsShownHistoryRespectsRollingTimeConstraint_run seconds_window allowable_ad_count s :
  AdsShownHistoryRespectsRollingTimeConstraint E seconds_window allowable_ad_count s
  = Ok (count_recent (Now E) seconds_window (Client.GetAdsShownHistory (client_ s))
          <=? allowable_ad_count, s, []).
Proof.
  unfold AdsShownHistoryRespectsRollingTimeConstraint, bind, reads.
  destruct (_ <=? _); reflexivity.
Qed.

(** With no ad allowed per hour, line 878 divides by zero. *)
Lemma IsAllowedToShowAds_zero s :
  GetAdsPerHour E = 0 -> IsAllowedToShowAds E s = Fault DivisionByZero.
Proof.
  intros Hzero. unfold IsAllowedToShowAds, bind at 1 2.
  rewrite !AdsShownHistoryRespectsRollingTimeConstraint_run.
  unfold bind, udiv. rewrite Hzero. reflexivity.
Qed.

(** Otherwise the method returns the conjunction of its three checks and
    leaves the object as it is. *)
Lemma IsAllowedToShowAds_run s :
  GetAdsPerHour E ≠ 0 ->
  let history := Client.GetAdsShownHistory (client_ s) in
  IsAllowedToShowAds E s
  = Ok ((count_recent (Now E) kOneHourInSeconds history <=? GetAdsPerHour E)
        && (count_recent (Now E) kOneHourInSeconds history <=? GetAdsPerDay E)
        && (count_recent (Now E) (kOneHourInSeconds / GetAdsPerHour E) history <=? 0),
        s, []).
Proof.
  intros Hpos history. unfold IsAllowedToShowAds, bind at 1 2.
  rewrite !AdsShownHistoryRespectsRollingTimeConstraint_run.
  unfold bind at 1. unfold udiv.
  destruct (Z.eqb_spec (GetAdsPerHour E) 0) as [Heq | _]; [contradiction |].
  unfold ret at 1. unfold bind.
  rewrite AdsShownHistoryRespectsRollingTimeConstraint_run.
  reflexivity.
Qed.

(** C2: for every ads-shown history (of fewer than [2^64] entries, with a
    positive number of ads per hour), [IsAllowedToShowAds] returns, and it
    returns true if and only if the three rolling checks pass: the number
    of timestamps [t] with [now - t < 3600] is at most [GetAdsPerHour()],
    the number counted by the day limit over its window (which the code
    sets to [kOneHourInSeconds]) is at most [GetAdsPerDay()], and the
    number of timestamps with [now - t < 3600 / GetAdsPerHour()] is at most
    0.  The window comparisons are strict, the count comparisons
    inclusive; [now - t] is the unsigned difference [elapsed]. *)
Theorem IsAllowedToShowAds_three_checks s :
  0 < GetAdsPerHour E ->
  Z.of_nat (length (Client.GetAdsShownHistory (client_ s))) < 2 ^ 64 ->
  let history := Client.GetAdsShownHistory (client_ s) in
  let now := Now E in
  ∃ allowed,
    IsAllowedToShowAds E s = Ok (allowed, s, []) ∧
    (allowed = true ↔
       shown_within now 3600 history ≤ GetAdsPerHour E ∧
       shown_within now kOneHourInSeconds history ≤ GetAdsPerDay E ∧
       shown_within now (3600 / GetAdsPerHour E) history ≤ 0).
Proof.
  intros Hpos Hlen history now.
  eexists. split.
  - apply IsAllowedToShowAds_run. lia.
  - fold history now. rewrite !count_recent_shown_within by exact Hlen.
    rewrite !andb_true_iff, !Z.leb_le.
    change kOneHourInSeconds with 3600. tauto.
Qed.

(** C10: line 878 computes the minimum wait as [3600 / GetAdsPerHour()]
    without a guard: the method ends in the division fault exactly when
    [GetAdsPerHour()] is 0, and returns a boolean for every other value. *)
Theorem IsAllowedToShowAds_total_iff_ads_per_hour_positive s :
  (IsAllowedToShowAds E s = Fault DivisionByZero ↔ GetAdsPerHour E = 0) ∧
  (GetAdsPerHour E ≠ 0 -> ∃ allowed, IsAllowedToShowAds E s = Ok (allowed, s, [])) ∧
  (GetAdsPerHour E = 0 -> ∀ r, IsAllowedToShowAds E s ≠ Ok r).
Proof.
  split; [split |split].
  - intros Hfault.
    destruct (Z.eq_dec (GetAdsPerHour E) 0) as [Hzero | Hpos]; [exact Hzero |].
    rewrite (IsAllowedToShowAds_run s Hpos) in Hfault. discriminate.
  - apply IsAllowedToShowAds_zero.
  - intros Hpos. eexists. apply (IsAllowedToShowAds_run s Hpos).
  - intros Hzero r. rewrite (IsAllowedToShowAds_zero s Hzero). discriminate.
Qed.

End RateLimits.

Lemma IsAllowedToShowAds_three_checks_witness :
  let E := Sample.host ["en"] 4 20 100000 Sample.parse_https 0 in
  let s := Sample.running [96000; 92000]%Z [] ∅ in
  (0 < GetAdsPerHour E)%Z ∧
  (Z.of_nat (length (Client.GetAdsShownHistory (client_ s))) < 2 ^ 64)%Z ∧
  ∃ allowed,
    IsAllowedToShowAds E s = Ok (allowed, s, []) ∧
    (allowed = true ↔
       (shown_within (Now E) 3600 (Client.GetAdsShownHistory (client_ s)) ≤ GetAdsPerHour E)%Z ∧
       (shown_within (Now E) kOneHourInSeconds (Client.GetAdsShownHistory (client_ s))
        ≤ GetAdsPerDay E)%Z ∧
       (shown_within (Now E) (3600 / GetAdsPerHour E) (Client.GetAdsShownHistory (client_ s))
        ≤ 0)%Z).
Proof.
  intros E s.
  split; [vm_compute; reflexivity |].
  split; [vm_compute; reflexivity |].
  apply (IsAllowedToShowAds_three_checks E s); vm_compute; reflexivity.
Defined.

Lemma IsAllowedToShowAds_total_iff_ads_per_hour_positive_witness :
  let E := Sample.host ["en"] 0 20 100000 Sample.parse_https 0 in
  let s := Sample.running [96000; 92000]%Z [] ∅ in
  GetAdsPerHour E = 0%Z ∧ IsAllowedToShowAds E s = Fault DivisionByZero.
Proof.
  intros E s. split; [reflexivity |].
  apply (IsAllowedToShowAds_total_iff_ads_per_hour_positive E s). reflexivity.
Defined.

(** Scenario S2 of the specification: four ads in the last forty seconds
    block the next one. *)
Example IsAllowedToShowAds_S2 :
  let E := Sample.host ["en"] 4 20 100000 Sample.parse_https 0 in
  let s := Sample.running [99990; 99980; 99970; 99960]%Z [] ∅ in
  IsAllowedToShowAds E s = Ok (false, s, []).
Proof. vm_compute. reflexivity. Qed.

(** The window is strict and the count inclusive: with two ads per hour the
    minimum wait is 1800 seconds; a dispatch exactly 1800 seconds old is
    outside it, one of 1799 seconds is inside; two dispatches in the hour
    are as many as allowed. *)
Example IsAllowedToShowAds_boundaries :
  let E := Sample.host ["en"] 2 2 100000 Sample.parse_https 0 in
  IsAllowedToShowAds E (Sample.running [96401; 98200]%Z [] ∅)
    = Ok (true, Sample.running [96401; 98200]%Z [] ∅, []) ∧
  IsAllowedToShowAds E (Sample.running [96401; 98201]%Z [] ∅)
    = Ok (false, Sample.running [96401; 98201]%Z [] ∅, []) ∧
  shown_within 100000 3600 [96401; 98200]%Z = 2%Z ∧
  shown_within 100000 3600 [96400; 98200]%Z = 1%Z.
Proof. vm_compute. repeat split; reflexivity. Qed.

Lemma shown_within_none now window history :
  Forall (λ t, (window ≤ elapsed now t)%Z) history ->
  shown_within now window history = 0%Z.
Proof.
  induction 1 as [| t history Ht _ IH]; [reflexivity |].
  cbv beta in Ht.
  rewrite shown_within_cons, bool_decide_eq_false_2 by lia.
  rewrite IH. reflexivity.
Qed.

(** The day limit looks at the last hour only: when every dispatch is an
    hour old or older, the method allows the next ad whatever
    [GetAdsPerDay()] is (a count cannot be negative). *)
Lemma IsAllowedToShowAds_older_than_an_hour E s :
  (0 < GetAdsPerHour E)%Z ->
  (0 ≤ GetAdsPerDay E)%Z ->
  (Z.of_nat (length (Client.GetAdsShownHistory (client_ s))) < 2 ^ 64)%Z ->
  Forall (λ t, (3600 ≤ elapsed (Now E) t)%Z) (Client.GetAdsShownHistory (client_ s)) ->
  IsAllowedToShowAds E s = Ok (true, s, []).
Proof.
  intros Hhour Hday Hlen Hold.
  rewrite IsAllowedToShowAds_run by lia.
  rewrite !count_recent_shown_within by exact Hlen.
  change kOneHourInSeconds with 3600%Z.
  assert (Hwait : (3600 / GetAdsPerHour E ≤ 3600)%Z)
    by (apply Z.div_le_upper_bound; lia).
  rewrite !shown_within_none; [| | exact Hold].
  - do 3 f_equal. rewrite !andb_true_iff, !Z.leb_le. lia.
  - eapply Forall_impl; [exact Hold |]. intros t Ht. cbv beta in Ht. lia.
Qed.

(** C1: [IsAllowedToShowAds] returns true only if the number of dispatch
    timestamps [t] with [now - t < 86400] is at most [GetAdsPerDay()], so
    that at most [GetAdsPerDay()] notifications are dispatched in a day.
    This does not hold of the code.  With six ads allowed per day, seven
    ads were dispatched in the last 28000 seconds, 4000 seconds apart; the
    number of timestamps with [now - t < 86400] is 7, above
    [GetAdsPerDay()], and [IsAllowedToShowAds] returns true: line 873
    sets the day window to [kOneHourInSeconds]. *)
Theorem IsAllowedToShowAds_ignores_the_day_window :
  let E := Sample.host ["en"] 2 6 100000 Sample.parse_https 0 in
  let history := [72000; 76000; 80000; 84000; 88000; 92000; 96000]%Z in
  let s := Sample.running history [] ∅ in
  IsAllowedToShowAds E s = Ok (true, s, []) ∧
  shown_within (Now E) one_day_in_seconds history = 7%Z ∧
  ¬ (shown_within (Now E) one_day_in_seconds history ≤ GetAdsPerDay E)%Z.
Proof.
  intros E history s. split; [| split].
  - vm_compute. reflexivity.
  - vm_compute. reflexivity.
  - vm_compute. intros Hle. apply Hle. reflexivity.
Qed.

(** ** Winner over time *)

(** The inner loop adds the two vectors entry by entry. *)
Lemma add_page_scores_prefix page_scores :
  ∀ k winner,
    k ≤ length page_scores ->
    length winner = length page_scores ->
    let result :=
      foldl (λ winner i,
               match winner !! i, page_scores !! i with
               | Some w, Some p => <[i := (w + p)%float]> winner
               | _, _ => winner
               end)
            winner (seq 0 k) in
    length result = length winner ∧
    ∀ i, result !! i =
         if decide (i < k) then zip_with PrimFloat.add winner page_scores !! i
         else winner !! i.
Proof.
  induction k as [| k IH]; intros winner Hk Hlen result.
  - split; [reflexivity |]. intros i. destruct (decide (i < 0)); [lia | reflexivity].
  - subst result. rewrite seq_S, foldl_snoc. simpl.
    destruct (IH winner ltac:(lia) Hlen) as [IHlen IHlookup].
    set (before := foldl _ winner (seq 0 k)) in *.
    destruct (lookup_lt_is_Some_2 winner k ltac:(lia)) as [w Hw].
    destruct (lookup_lt_is_Some_2 page_scores k ltac:(lia)) as [p Hp].
    rewrite (IHlookup k). destruct (decide (k < k)) as [? | _]; [lia |].
    rewrite Hw, Hp. split.
    + rewrite length_insert. exact IHlen.
    + intros i. destruct (decide (i = k)) as [-> | Hne].
      * rewrite list_lookup_insert_eq by lia.
        destruct (decide (k < S k)) as [_ | ?]; [| lia].
        rewrite lookup_zip_with, Hw, Hp. reflexivity.
      * rewrite list_lookup_insert_ne by congruence.
        rewrite IHlookup.
        destruct (decide (i < k)), (decide (i < S k)); try lia; reflexivity.
Qed.

Lemma add_page_scores_zip_with winner page_scores :
  length winner = length page_scores ->
  add_page_scores winner page_scores = zip_with PrimFloat.add winner page_scores.
Proof.
  intros Hlen. unfold add_page_scores.
  destruct (add_page_scores_prefix page_scores (length page_scores) winner
              ltac:(lia) Hlen) as [_ Hlookup].
  apply list_eq. intros i. rewrite Hlookup.
  destruct (decide (i < length page_scores)) as [_ | Hge]; [reflexivity |].
  rewrite lookup_zip_with.
  rewrite (lookup_ge_None_2 winner i) by lia. reflexivity.
Qed.

(** The outer loop: the sum of the vectors when they all have [count]
    entries ... *)
Lemma sum_page_score_history_uniform count page_score_history :
  ∀ winner,
    length winner = count ->
    Forall (λ page_scores, length page_scores = count) page_score_history ->
    sum_page_score_history count winner page_score_history
    = Some (foldl (zip_with PrimFloat.add) winner page_score_history).
Proof.
  induction page_score_history as [| page_scores rest IH]; intros winner Hlen Hall.
  - reflexivity.
  - apply Forall_cons in Hall as [Hhead Hrest]. simpl.
    rewrite (proj2 (Nat.eqb_eq _ _) Hhead). simpl.
    rewrite add_page_scores_zip_with by congruence.
    apply IH; [| exact Hrest].
    rewrite length_zip_with_l_eq; congruence.
Qed.

(** ... and the early return as soon as one vector has another size,
    whatever was added before. *)
Lemma sum_page_score_history_mismatch count page_score_history :
  ∀ winner,
    Exists (λ page_scores, length page_scores ≠ count) page_score_history ->
    sum_page_score_history count winner page_score_history = None.
Proof.
  induction page_score_history as [| page_scores rest IH]; intros winner Hex.
  - inversion Hex.
  - simpl. destruct (Nat.eqb_spec (length page_scores) count) as [Heq | Hne].
    + simpl. apply IH. apply Exists_cons in Hex as [Hhead | Hrest]; [contradiction | exact Hrest].
    + reflexivity.
Qed.

Lemma foldl_zip_with_length page_score_history :
  ∀ winner,
    Forall (λ page_scores, length page_scores = length winner) page_score_history ->
    length (foldl (zip_with PrimFloat.add) winner page_score_history) = length winner.
Proof.
  induction page_score_history as [| page_scores rest IH]; intros winner Hall.
  - reflexivity.
  - apply Forall_cons in Hall as [Hhead Hrest]. simpl.
    assert (Hzip : length (zip_with PrimFloat.add winner page_scores) = length winner)
      by (rewrite length_zip_with_l_eq; congruence).
    rewrite IH; [exact Hzip |].
    eapply Forall_impl; [exact Hrest |]. intros v Hv. cbv beta in Hv. congruence.
Qed.

Lemma foldl_zip_with_lookup page_score_history :
  ∀ winner i w,
    Forall (λ page_scores, length page_scores = length winner) page_score_history ->
    winner !! i = Some w ->
    foldl (zip_with PrimFloat.add) winner page_score_history !! i
    = Some (foldl (λ sum page_scores, (sum + nth i page_scores 0)%float) w page_score_history).
Proof.
  induction page_score_history as [| page_scores rest IH]; intros winner i w Hall Hw.
  - exact Hw.
  - apply Forall_cons in Hall as [Hhead Hrest]. simpl.
    assert (Hi : i < length winner) by (apply lookup_lt_is_Some; eauto).
    destruct (lookup_lt_is_Some_2 page_scores i ltac:(lia)) as [p Hp].
    apply IH.
    + rewrite length_zip_with_l_eq by congruence.
      exact Hrest.
    + rewrite lookup_zip_with, Hw, Hp. simpl.
      rewrite (nth_lookup_Some _ _ _ _ Hp). reflexivity.
Qed.

(** What the two loops compute from the zero vector is the pointwise sum. *)
Lemma foldl_zip_with_pointwise_sum n page_score_history :
  Forall (λ page_scores, length page_scores = n) page_score_history ->
  foldl (zip_with PrimFloat.add) (replicate n 0%float) page_score_history
  = pointwise_sum n page_score_history.
Proof.
  intros Hall.
  assert (Hall' : Forall (λ page_scores, length page_scores = length (replicate n 0%float))
                    page_score_history)
    by (rewrite length_replicate; exact Hall).
  apply list_eq. intros i. unfold pointwise_sum. rewrite list_lookup_fmap.
  destruct (decide (i < n)) as [Hlt | Hge].
  - rewrite (foldl_zip_with_lookup _ _ i 0%float Hall')
      by (apply lookup_replicate_2; exact Hlt).
    rewrite lookup_seq_lt by exact Hlt. reflexivity.
  - rewrite lookup_seq_ge by lia.
    apply lookup_ge_None_2.
    rewrite foldl_zip_with_length by exact Hall'.
    rewrite length_replicate. lia.
Qed.

(** C3: for every page-score history, [GetWinnerOverTimeCategory] returns
    the empty string when the history is empty; it returns the empty
    string when some vector has another length than the first one, without
    calling the classifier and without changing the object; and otherwise
    it returns the classifier's winning category of the pointwise sum of
    the vectors of the history. *)
Theorem GetWinnerOverTimeCategory_spec (s : AdsImpl) :
  let page_score_history := Client.GetPageScoreHistory (client_ s) in
  (page_score_history = [] -> GetWinnerOverTimeCategory s = Ok ("", s, [])) ∧
  (∀ first rest,
     page_score_history = first :: rest ->
     Exists (λ page_scores, length page_scores ≠ length first) page_score_history ->
     GetWinnerOverTimeCategory s = Ok ("", s, [])) ∧
  (∀ first rest um,
     page_score_history = first :: rest ->
     Forall (λ page_scores, length page_scores = length first) page_score_history ->
     user_model_ s = Some um ->
     GetWinnerOverTimeCategory s
     = Ok (UserModel.winningCategory um (pointwise_sum (length first) page_score_history),
           s, [])).
Proof.
  intros page_score_history. subst page_score_history.
  unfold GetWinnerOverTimeCategory, bind, reads.
  split; [| split].
  - intros ->. reflexivity.
  - intros first rest -> Hex.
    rewrite (sum_page_score_history_mismatch _ _ _ Hex). reflexivity.
  - intros first rest um -> Hall Hum.
    rewrite (sum_page_score_history_uniform _ _ _ (length_replicate _ _) Hall).
    rewrite (foldl_zip_with_pointwise_sum _ _ Hall).
    unfold user_model. rewrite Hum. reflexivity.
Qed.

Lemma GetWinnerOverTimeCategory_spec_witness :
  let uniform := [[0.125; 0.75; 0.25]; [0.5; 0.25; 0.125]; [0.25; 0.5; 0.125]]%float in
  let ragged := [[0.125; 0.75; 0.25]; [0.5; 0.25]; [0.25; 0.5; 0.125]]%float in
  GetWinnerOverTimeCategory (Sample.running [] [] ∅)
    = Ok ("", Sample.running [] [] ∅, []) ∧
  GetWinnerOverTimeCategory (Sample.running [] ragged ∅)
    = Ok ("", Sample.running [] ragged ∅, []) ∧
  pointwise_sum 3 uniform = [0.875; 1.5; 0.5]%float ∧
  GetWinnerOverTimeCategory (Sample.running [] uniform ∅)
    = Ok ("sports", Sample.running [] uniform ∅, []).
Proof.
  intros uniform ragged. split; [| split; [| split]].
  - apply (GetWinnerOverTimeCategory_spec (Sample.running [] [] ∅)). reflexivity.
  - eapply (GetWinnerOverTimeCategory_spec (Sample.running [] ragged ∅)).
    + reflexivity.
    + apply Exists_cons_tl, Exists_cons_hd. simpl. lia.
  - vm_compute. reflexivity.
  - refine (proj2 (proj2 (GetWinnerOverTimeCategory_spec (Sample.running [] uniform ∅)))
              _ _ Sample.classifier eq_refl _ eq_refl).
    repeat constructor.
Defined.

(** ** Showing an ad *)

Lemma empty_false_iff s : Str.empty s = false ↔ s ≠ "".
Proof. destruct s; simpl; split; congruence. Qed.

Lemma IsAdValid_true_iff ad :
  IsAdValid ad = true ↔
  AdInfo.advertiser ad ≠ "" ∧ AdInfo.notification_text ad ≠ "" ∧
  AdInfo.notification_url ad ≠ "".
Proof.
  unfold IsAdValid. rewrite <- !empty_false_iff.
  destruct (Str.empty (AdInfo.advertiser ad)), (Str.empty (AdInfo.notification_text ad)),
    (Str.empty (AdInfo.notification_url ad)); simpl; intuition congruence.
Qed.

(** [ShowAd] on a valid ad: the notification is built from the ad and the
    category, stored, handed to the host, and the time is appended to the
    ads-shown history. *)
Lemma ShowAd_valid E ad category s :
  IsAdValid ad = true ->
  let info :=
    {| NotificationInfo.advertiser := AdInfo.advertiser ad;
       NotificationInfo.category := category;
       NotificationInfo.text := AdInfo.notification_text ad;
       NotificationInfo.url := AdInfo.notification_url ad;
       NotificationInfo.creative_set_id := AdInfo.creative_set_id ad;
       NotificationInfo.uuid := AdInfo.uuid ad |} in
  ShowAd E ad category s
  = Ok (true,
        set_client (Client.AppendCurrentTimeToAdsShownHistory (Now E) (client_ s))
          (set_last_shown_notification_info info s),
        [Out.ShowNotification info]).
Proof. intros Hvalid info. unfold ShowAd. rewrite Hvalid. reflexivity. Qed.

Lemma ShowAd_invalid E ad category s :
  IsAdValid ad = false -> ShowAd E ad category s = Ok (false, s, []).
Proof. intros Hinvalid. unfold ShowAd. rewrite Hinvalid. reflexivity. Qed.

(** C4: every notification that [ShowAd] hands to the host's
    [ShowNotification] comes from an ad that satisfies [IsAdValid], and its
    advertiser, text and url are not empty; for an ad that fails
    [IsAdValid], [ShowAd] returns false, calls nothing and leaves the object
    as it is: the ads-shown history, [last_shown_notification_info_] and
    the seen set are the ones before the call. *)
Theorem ShowAd_only_valid_ads E ad category s :
  (∀ shown s' out info,
     ShowAd E ad category s = Ok (shown, s', out) ->
     Out.ShowNotification info ∈ out ->
     IsAdValid ad = true ∧
     NotificationInfo.advertiser info = AdInfo.advertiser ad ∧
     NotificationInfo.text info = AdInfo.notification_text ad ∧
     NotificationInfo.url info = AdInfo.notification_url ad ∧
     NotificationInfo.advertiser info ≠ "" ∧
     NotificationInfo.text info ≠ "" ∧
     NotificationInfo.url info ≠ "") ∧
  (IsAdValid ad = false ->
     ShowAd E ad category s = Ok (false, s, []) ∧
     ∀ shown s' out,
       ShowAd E ad category s = Ok (shown, s', out) ->
       shown = false ∧ out = [] ∧
       Client.GetAdsShownHistory (client_ s') = Client.GetAdsShownHistory (client_ s) ∧
       last_shown_notification_info_ s' = last_shown_notification_info_ s ∧
       Client.GetAdsUUIDSeen (client_ s') = Client.GetAdsUUIDSeen (client_ s)).
Proof.
  split.
  - intros shown s' out info Hrun Hin.
    destruct (IsAdValid ad) eqn:Hvalid.
    + rewrite (ShowAd_valid E ad category s Hvalid) in Hrun.
      injection Hrun as _ _ <-.
      apply list_elem_of_singleton in Hin. injection Hin as ->.
      apply IsAdValid_true_iff in Hvalid. simpl. tauto.
    + rewrite (ShowAd_invalid E ad category s Hvalid) in Hrun.
      injection Hrun as _ _ <-. inversion Hin.
  - intros Hinvalid. split; [exact (ShowAd_invalid E ad category s Hinvalid) |].
    intros shown s' out Hrun.
    rewrite (ShowAd_invalid E ad category s Hinvalid) in Hrun.
    injection Hrun as <- <- <-. repeat split; reflexivity.
Qed.

Lemma ShowAd_only_valid_ads_witness :
  let E := Sample.host ["en"] 4 20 100000 Sample.parse_https 0 in
  let s := Sample.running [96000]%Z [] ∅ in
  IsAdValid (Sample.ad_without_text "a1") = false ∧
  ShowAd E (Sample.ad_without_text "a1") "sports" s = Ok (false, s, []) ∧
  IsAdValid (Sample.ad "a1") = true ∧
  ∃ s' info,
    ShowAd E (Sample.ad "a1") "sports" s = Ok (true, s', [Out.ShowNotification info]) ∧
    NotificationInfo.text info ≠ "".
Proof.
  intros E s.
  split; [reflexivity |].
  split; [apply (ShowAd_only_valid_ads E (Sample.ad_without_text "a1") "sports" s);
          reflexivity |].
  split; [reflexivity |].
  eexists _, _. split; [vm_compute; reflexivity |].
  eapply (proj1 (ShowAd_only_valid_ads E (Sample.ad "a1") "sports" s)).
  - vm_compute. reflexivity.
  - apply list_elem_of_singleton. reflexivity.
Defined.

(** ** Running the monad *)

Lemma bind_ret_l {A B} (a : A) (k : A -> M B) s : bind (ret a) k s = k a s.
Proof. unfold bind, ret. destruct (k a s) as [[[b s2] out2] | f]; reflexivity. Qed.

Lemma bind_reads {A B} (f : AdsImpl -> A) (k : A -> M B) s : bind (reads f) k s = k (f s) s.
Proof. unfold bind, reads. destruct (k (f s) s) as [[[b s2] out2] | e]; reflexivity. Qed.

Lemma bind_modify {B} (f : AdsImpl -> AdsImpl) (k : unit -> M B) s :
  bind (modify f) k s = k tt (f s).
Proof. unfold bind, modify. destruct (k tt (f s)) as [[[b s2] out2] | e]; reflexivity. Qed.

Lemma bind_client {B} (f : Client.t -> Client.t) (k : unit -> M B) s :
  bind (client f) k s = k tt (set_client (f (client_ s)) s).
Proof. unfold client. rewrite bind_modify. reflexivity. Qed.

Lemma bind_crash {A B} (f : fault) (k : A -> M B) s : bind (crash f) k s = Fault f.
Proof. reflexivity. Qed.

Lemma bind_ret_r {A} (m : M A) s : bind m ret s = m s.
Proof.
  unfold bind, ret. destruct (m s) as [[[a s1] out1] | f]; [| reflexivity].
  rewrite app_nil_r. reflexivity.
Qed.

Lemma bind_assoc {A B C} (m : M A) (f : A -> M B) (g : B -> M C) s :
  bind (bind m f) g s = bind m (λ a, bind (f a) g) s.
Proof.
  unfold bind. destruct (m s) as [[[a s1] out1] | e]; [| reflexivity].
  destruct (f a s1) as [[[b s2] out2] | e]; [| reflexivity].
  destruct (g b s2) as [[[c s3] out3] | e]; [| reflexivity].
  rewrite app_assoc. reflexivity.
Qed.

(** A method that only reads: the continuation runs from the same state. *)
Lemma bind_pure {A B} (m : M A) (k : A -> M B) s a :
  m s = Ok (a, s, []) -> bind m k s = k a s.
Proof.
  intros Hm. unfold bind. rewrite Hm.
  destruct (k a s) as [[[b s2] out2] | f]; reflexivity.
Qed.

Lemma bind_call {B} (c : Out.call) (k : unit -> M B) s :
  bind (call c) k s
  = match k tt s with
    | Ok (b, s2, out2) => Ok (b, s2, c :: out2)
    | Fault f => Fault f
    end.
Proof. reflexivity. Qed.

(** ** The answer of the catalog: selection *)

Lemma GetUnseenAds_run ads s :
  GetUnseenAds ads s = Ok (unseen (Client.GetAdsUUIDSeen (client_ s)) ads, s, []).
Proof.
  unfold GetUnseenAds. rewrite bind_reads. unfold ret, unseen. do 3 f_equal.
  apply list_filter_iff. intros ad. symmetry. apply not_elem_of_dom.
Qed.

Lemma elem_of_unseen ads_seen ads ad :
  ad ∈ unseen ads_seen ads ↔ ad ∈ ads ∧ AdInfo.uuid ad ∉ dom ads_seen.
Proof. unfold unseen. rewrite list_elem_of_filter. tauto. Qed.

(** The reset takes the uuids of the candidates out of the seen map and
    leaves the other entries. *)
Lemma reset_lookup (ads : list AdInfo.t) :
  ∀ (ads_seen : gmap string Z) uuid,
    foldl (λ seen ad, delete (AdInfo.uuid ad) seen) ads_seen ads !! uuid
    = if decide (uuid ∈ AdInfo.uuid <$> ads) then None else ads_seen !! uuid.
Proof.
  induction ads as [| ad ads IH]; intros ads_seen uuid.
  - simpl. destruct (decide (uuid ∈ [])) as [Hin | _]; [inversion Hin | reflexivity].
  - simpl foldl. rewrite IH. rewrite fmap_cons.
    destruct (decide (uuid ∈ AdInfo.uuid <$> ads)) as [Hin | Hout].
    + rewrite decide_True by (apply list_elem_of_further; exact Hin). reflexivity.
    + destruct (decide (uuid = AdInfo.uuid ad)) as [-> | Hne].
      * rewrite decide_True by apply list_elem_of_here. apply lookup_delete_eq.
      * rewrite decide_False.
        -- apply lookup_delete_ne. congruence.
        -- intros Hin. apply elem_of_cons in Hin as [? | ?]; contradiction.
Qed.

Lemma ResetAdsUUIDSeen_dom ads c :
  dom (Client.GetAdsUUIDSeen (Client.ResetAdsUUIDSeen ads c))
  = dom (Client.GetAdsUUIDSeen c) ∖ list_to_set (AdInfo.uuid <$> ads).
Proof.
  apply set_eq. intros uuid.
  rewrite elem_of_difference, !elem_of_dom, elem_of_list_to_set.
  unfold Client.ResetAdsUUIDSeen, Client.GetAdsUUIDSeen. simpl.
  rewrite reset_lookup.
  destruct (decide (uuid ∈ AdInfo.uuid <$> ads)) as [Hin | Hout].
  - split; [intros [? ?]; discriminate | tauto].
  - tauto.
Qed.

Lemma unseen_all ads_seen ads :
  Forall (λ ad, AdInfo.uuid ad ∉ dom ads_seen) ads -> unseen ads_seen ads = ads.
Proof.
  unfold unseen. induction 1 as [| ad ads Had _ IH]; [reflexivity |].
  rewrite filter_cons_True by exact Had. rewrite IH. reflexivity.
Qed.

Lemma unseen_after_reset ads c :
  unseen (Client.GetAdsUUIDSeen (Client.ResetAdsUUIDSeen ads c)) ads = ads.
Proof.
  apply unseen_all, Forall_forall. intros ad Hin.
  rewrite ResetAdsUUIDSeen_dom, elem_of_difference, elem_of_list_to_set.
  intros [_ Hout]. apply Hout. apply list_elem_of_fmap. eauto.
Qed.

Lemma is_empty_true_iff {A} (v : list A) : is_empty v = true ↔ v = [].
Proof. destruct v; simpl; split; congruence. Qed.

Lemma is_empty_false_iff {A} (v : list A) : is_empty v = false ↔ v ≠ [].
Proof. destruct v; simpl; split; congruence. Qed.

(** Lines 616-635 from the state [s], once the first block is passed. *)
Lemma OnGetAds_reaches_selection E result region category ads s :
  reaches_selection result category ads ->
  let reset := set_client (Client.ResetAdsUUIDSeen ads (client_ s)) s in
  OnGetAds E result region category ads s
  = match unseen (Client.GetAdsUUIDSeen (client_ s)) ads with
    | _ :: _ => show_drawn E category (unseen (Client.GetAdsUUIDSeen (client_ s)) ads) s
    | [] =>
        match unseen (Client.GetAdsUUIDSeen (client_ reset)) ads with
        | [] => Ok (tt, reset, [])
        | _ :: _ =>
            show_drawn E category (unseen (Client.GetAdsUUIDSeen (client_ reset)) ads) reset
        end
    end.
Proof.
  intros Hreach reset. unfold OnGetAds.
  assert (Hfirst : ∀ B (k : bool -> M B),
            bind match result with
                 | FAILED =>
                     match Str.find_last_of category "-" with
                     | Some pos =>
                         call (Out.GetAds region (Str.substr category 0 pos)) ;; ret true
                     | None => if is_empty ads then ret true else ret false
                     end
                 | SUCCESS => ret false
                 end k s = k false s).
  { intros B k. destruct Hreach as [-> | [-> Hads]].
    - apply bind_ret_l.
    - destruct result; [apply bind_ret_l |].
      apply is_empty_false_iff in Hads. rewrite Hads. apply bind_ret_l. }
  rewrite Hfirst. cbv beta iota.
  rewrite (bind_pure _ _ _ _ (GetUnseenAds_run ads s)).
  destruct (unseen (Client.GetAdsUUIDSeen (client_ s)) ads) as [| ad0 rest] eqn:Hunseen.
  - simpl is_empty. cbv iota.
    rewrite bind_assoc, bind_client, bind_assoc. fold reset.
    rewrite (bind_pure _ _ _ _ (GetUnseenAds_run ads reset)).
    destruct (unseen (Client.GetAdsUUIDSeen (client_ reset)) ads);
      simpl is_empty; cbv iota; rewrite bind_ret_l; reflexivity.
  - simpl is_empty. cbv iota. rewrite bind_ret_l. reflexivity.
Qed.

(** The candidate that [show_drawn] shows is the one at the position the
    random source returns; for a draw within [0 .. size - 1] there is one. *)
Lemma show_drawn_in_range E category candidates s :
  candidates ≠ [] ->
  Random E AdDraw (length candidates - 1) ≤ length candidates - 1 ->
  ∃ ad,
    candidates !! Random E AdDraw (length candidates - 1) = Some ad ∧
    show_drawn E category candidates s = (ShowAd E ad category ;; ret tt) s.
Proof.
  intros Hne Hdraw.
  assert (Hlen : 0 < length candidates) by (destruct candidates; [congruence | simpl; lia]).
  destruct (lookup_lt_is_Some_2 candidates (Random E AdDraw (length candidates - 1))
              ltac:(lia)) as [ad Had].
  exists ad. split; [exact Had |].
  unfold show_drawn, show_at, at_. rewrite Had.
  exact (bind_ret_l ad (λ ad, ShowAd E ad category ;; ret tt) s).
Qed.

(** Over the draws [0 .. size - 1], each position of the list is shown for
    exactly one draw, its index: a uniform draw shows each position with
    the same probability. *)
Lemma show_at_enumerates E category candidates s :
  (λ rand, show_at E category candidates rand s) <$> seq 0 (length candidates)
  = (λ ad, (ShowAd E ad category ;; ret tt) s) <$> candidates.
Proof.
  apply list_eq. intros i. rewrite !list_lookup_fmap.
  destruct (candidates !! i) as [ad |] eqn:Had.
  - assert (Hi : i < length candidates) by (apply lookup_lt_is_Some; eauto).
    rewrite lookup_seq_lt by exact Hi. simpl. f_equal.
    unfold show_at, at_. rewrite Had.
    exact (bind_ret_l ad (λ ad, ShowAd E ad category ;; ret tt) s).
  - apply lookup_ge_None in Had. rewrite lookup_seq_ge by exact Had. reflexivity.
Qed.

(** C5: in every [OnGetAds] invocation that reaches the selection, the
    unseen ads are the candidates whose uuid is not in the seen set of the
    client, in the order of the candidates.  If there is one, [ShowAd] is
    called on the unseen ad at the position drawn by
    [helper::Math::Random(size - 1)].  If there is none, the seen set is
    reset for exactly the candidates and the unseen ads are computed again:
    if there is still none the invocation returns, calling nothing;
    otherwise [ShowAd] is called on the ad at the position drawn among
    them.  The reset takes the uuids of the candidates, and no other, out
    of the seen set, so that the second computation gives all the
    candidates.  A draw within [0 .. size - 1] always designates an ad of
    the list, and over these draws each position of the list is shown for
    exactly one draw: the ad shown is uniform over the positions when the
    draw is uniform over its range. *)
Theorem OnGetAds_selection E result region category ads s :
  reaches_selection result category ads ->
  let ads_seen := Client.GetAdsUUIDSeen (client_ s) in
  let reset := set_client (Client.ResetAdsUUIDSeen ads (client_ s)) s in
  let ads_seen' := Client.GetAdsUUIDSeen (client_ reset) in
  GetUnseenAds ads s = Ok (unseen ads_seen ads, s, []) ∧
  (∀ ad, ad ∈ unseen ads_seen ads ↔ ad ∈ ads ∧ AdInfo.uuid ad ∉ dom ads_seen) ∧
  (unseen ads_seen ads ≠ [] ->
     OnGetAds E result region category ads s
     = show_drawn E category (unseen ads_seen ads) s) ∧
  (unseen ads_seen ads = [] ->
     GetUnseenAds ads reset = Ok (unseen ads_seen' ads, reset, []) ∧
     (unseen ads_seen' ads = [] ->
        OnGetAds E result region category ads s = Ok (tt, reset, [])) ∧
     (unseen ads_seen' ads ≠ [] ->
        OnGetAds E result region category ads s
        = show_drawn E category (unseen ads_seen' ads) reset)) ∧
  (dom ads_seen' = dom ads_seen ∖ list_to_set (AdInfo.uuid <$> ads) ∧
   unseen ads_seen' ads = ads) ∧
  (∀ candidates s0,
     candidates ≠ [] ->
     Random E AdDraw (length candidates - 1) ≤ length candidates - 1 ->
     ∃ ad,
       candidates !! Random E AdDraw (length candidates - 1) = Some ad ∧
       show_drawn E category candidates s0 = (ShowAd E ad category ;; ret tt) s0) ∧
  (∀ candidates s0,
     show_drawn E category candidates s0
     = show_at E category candidates (Random E AdDraw (length candidates - 1)) s0 ∧
     (λ rand, show_at E category candidates rand s0) <$> seq 0 (length candidates)
     = (λ ad, (ShowAd E ad category ;; ret tt) s0) <$> candidates).
Proof.
  intros Hreach ads_seen reset ads_seen'.
  pose proof (OnGetAds_reaches_selection E result region category ads s Hreach) as Hrun.
  cbv zeta in Hrun. fold reset ads_seen ads_seen' in Hrun.
  split; [apply GetUnseenAds_run |].
  split; [intros ad; apply elem_of_unseen |].
  split; [| split; [| split; [| split]]].
  - intros Hsome. rewrite Hrun.
    destruct (unseen ads_seen ads); [congruence | reflexivity].
  - intros Hnone. rewrite Hnone in Hrun.
    split; [apply GetUnseenAds_run |]. split.
    + intros Hstill. rewrite Hrun, Hstill. reflexivity.
    + intros Hsome. rewrite Hrun.
      destruct (unseen ads_seen' ads); [congruence | reflexivity].
  - split; [apply ResetAdsUUIDSeen_dom | apply unseen_after_reset].
  - intros candidates s0. apply show_drawn_in_range.
  - intros candidates s0. split; [reflexivity | apply show_at_enumerates].
Qed.

Lemma OnGetAds_selection_witness :
  let E := Sample.host ["en"] 4 20 100000 Sample.parse_https 1 in
  let ads := [Sample.ad "a1"; Sample.ad "a2"; Sample.ad "a3"] in
  let s := Sample.running [] [] (<["a2" := 1%Z]> ∅) in
  reaches_selection SUCCESS "sports" ads ∧
  unseen (Client.GetAdsUUIDSeen (client_ s)) ads = [Sample.ad "a1"; Sample.ad "a3"] ∧
  OnGetAds E SUCCESS "US" "sports" ads s
  = show_drawn E "sports" (unseen (Client.GetAdsUUIDSeen (client_ s)) ads) s.
Proof.
  intros E ads s.
  split; [left; reflexivity |].
  split; [vm_compute; reflexivity |].
  apply (OnGetAds_selection E SUCCESS "US" "sports" ads s).
  - left. reflexivity.
  - vm_compute. discriminate.
Defined.

(** With the draw 1 among the unseen ads [a1] and [a3], the ad [a3] is
    shown and the time is added to the history. *)
Example OnGetAds_shows_the_drawn_unseen_ad :
  let E := Sample.host ["en"] 4 20 100000 Sample.parse_https 1 in
  let ads := [Sample.ad "a1"; Sample.ad "a2"; Sample.ad "a3"] in
  let s := Sample.running [] [] (<["a2" := 1%Z]> ∅) in
  ∃ s' info,
    OnGetAds E SUCCESS "US" "sports" ads s = Ok (tt, s', [Out.ShowNotification info]) ∧
    NotificationInfo.uuid info = "a3" ∧
    Client.GetAdsShownHistory (client_ s') = [100000%Z].
Proof. intros E ads s. eexists _, _. vm_compute. repeat split; reflexivity. Qed.

(** Scenario S4 of the specification: both ads of the category are seen;
    the seen set is cleared of them and one of the two is shown. *)
Example OnGetAds_S4 :
  let E := Sample.host ["en"] 4 20 100000 Sample.parse_https 0 in
  let ads := [Sample.ad "a1"; Sample.ad "a2"] in
  let s := Sample.running [] [] (<["a1" := 1%Z]> (<["a2" := 1%Z]> (<["b7" := 1%Z]> ∅))) in
  ∃ s' info,
    OnGetAds E SUCCESS "US" "sports" ads s = Ok (tt, s', [Out.ShowNotification info]) ∧
    NotificationInfo.uuid info = "a1" ∧
    Client.GetAdsUUIDSeen (client_ s') = <["b7" := 1%Z]> ∅.
Proof. intros E ads s. eexists _, _. vm_compute. repeat split; reflexivity. Qed.

(** ** The answer of the catalog: failure *)

Lemma find_last_of_None s c : Str.find_last_of s c = None ↔ c ∉ Str.chars s.
Proof.
  induction s as [| a s IH]; simpl.
  - split; [intros _ Hin; inversion Hin | reflexivity].
  - rewrite not_elem_of_cons.
    destruct (Str.find_last_of s c) as [pos |].
    + split; [discriminate |]. intros [_ Hout]. apply IH in Hout. discriminate.
    + destruct (Ascii.eqb_spec a c) as [-> | Hne].
      * split; [discriminate | intros [Hne _]; congruence].
      * split; [| reflexivity]. intros _. split; [congruence | apply IH; reflexivity].
Qed.

(** A position found by [find_last_of] splits the string: what
    [substr(0, pos)] keeps, the character, and a rest without it. *)
Lemma find_last_of_Some s c :
  ∀ pos,
    Str.find_last_of s c = Some pos ->
    ∃ suffix,
      s = (Str.substr s 0 pos +:+ String c suffix) ∧
      (c ∉ Str.chars suffix) ∧
      String.length (Str.substr s 0 pos) = pos.
Proof.
  unfold Str.substr.
  induction s as [| a s IH]; simpl; intros pos Hfind; [discriminate |].
  destruct (Str.find_last_of s c) as [p |] eqn:Hrest.
  - injection Hfind as <-.
    destruct (IH p eq_refl) as (suffix & Hsplit & Hout & Hlen).
    exists suffix. split; [| split; [exact Hout | simpl; f_equal; exact Hlen]].
    change (String a s = String a (substring 0 p s +:+ String c suffix)).
    f_equal. exact Hsplit.
  - destruct (Ascii.eqb_spec a c) as [-> | Hne]; [| discriminate].
    injection Hfind as <-. exists s. simpl.
    split; [reflexivity |]. split; [| reflexivity].
    apply find_last_of_None. exact Hrest.
Qed.

Lemma find_last_of_is_Some s c : c ∈ Str.chars s -> is_Some (Str.find_last_of s c).
Proof.
  intros Hin. destruct (Str.find_last_of s c) eqn:Hfind; [eauto |].
  apply find_last_of_None in Hfind. contradiction.
Qed.

Lemma not_dispatches_nil : ¬ dispatches [].
Proof. intros [info Hin]. inversion Hin. Qed.

Lemma not_dispatches_GetAds region category : ¬ dispatches [Out.GetAds region category].
Proof. intros [info Hin]. apply list_elem_of_singleton in Hin. discriminate. Qed.

Lemma OnGetAds_failed_retry E region category ads s pos :
  Str.find_last_of category "-" = Some pos ->
  OnGetAds E FAILED region category ads s
  = Ok (tt, s, [Out.GetAds region (Str.substr category 0 pos)]).
Proof. intros Hfind. unfold OnGetAds. rewrite Hfind. reflexivity. Qed.

Lemma OnGetAds_failed_no_ads E region category s :
  Str.find_last_of category "-" = None ->
  OnGetAds E FAILED region category [] s = Ok (tt, s, []).
Proof. intros Hfind. unfold OnGetAds. rewrite Hfind. reflexivity. Qed.

(** C6, as the code has it: for every [OnGetAds] callback with result
    [FAILED], if the category contains a ['-'], the engine asks the host
    again for the same region with the category cut at its last ['-'],
    dispatches nothing and leaves the object as it is; if the category
    contains no ['-'] and the answer holds no ad, the invocation returns,
    calling nothing; if the category contains no ['-'] and the answer holds
    ads, the invocation goes on to the selection as for [SUCCESS]. *)
Theorem OnGetAds_failed E region category ads s :
  ("-"%char ∈ Str.chars category ->
     ∃ pos suffix,
       Str.find_last_of category "-" = Some pos ∧
       category = (Str.substr category 0 pos +:+ String "-" suffix) ∧
       ("-"%char ∉ Str.chars suffix) ∧
       OnGetAds E FAILED region category ads s
       = Ok (tt, s, [Out.GetAds region (Str.substr category 0 pos)]) ∧
       ¬ dispatches [Out.GetAds region (Str.substr category 0 pos)]) ∧
  ("-"%char ∉ Str.chars category ->
     (ads = [] -> OnGetAds E FAILED region category ads s = Ok (tt, s, [])) ∧
     (ads ≠ [] ->
        reaches_selection FAILED category ads ∧
        OnGetAds E FAILED region category ads s
        = OnGetAds E SUCCESS region category ads s)).
Proof.
  split.
  - intros Hin.
    destruct (find_last_of_is_Some _ _ Hin) as [pos Hfind].
    destruct (find_last_of_Some _ _ _ Hfind) as (suffix & Hsplit & Hout & _).
    exists pos, suffix.
    split; [exact Hfind |]. split; [exact Hsplit |]. split; [exact Hout |].
    split; [apply OnGetAds_failed_retry; exact Hfind | apply not_dispatches_GetAds].
  - intros Hout. apply find_last_of_None in Hout. split.
    + intros ->. apply OnGetAds_failed_no_ads. exact Hout.
    + intros Hads.
      assert (Hreach : reaches_selection FAILED category ads) by (right; auto).
      split; [exact Hreach |].
      rewrite (OnGetAds_reaches_selection E FAILED region category ads s Hreach).
      rewrite (OnGetAds_reaches_selection E SUCCESS region category ads s)
        by (left; reflexivity).
      reflexivity.
Qed.

Lemma OnGetAds_failed_witness :
  let E := Sample.host ["en"] 4 20 100000 Sample.parse_https 0 in
  let s := Sample.running [] [] ∅ in
  ("-"%char ∈ Str.chars "news-finance-crypto") ∧
  (∃ pos suffix,
     Str.find_last_of "news-finance-crypto" "-" = Some pos ∧
     "news-finance-crypto" = (Str.substr "news-finance-crypto" 0 pos +:+ String "-" suffix) ∧
     ("-"%char ∉ Str.chars suffix) ∧
     OnGetAds E FAILED "US" "news-finance-crypto" [] s
     = Ok (tt, s, [Out.GetAds "US" (Str.substr "news-finance-crypto" 0 pos)]) ∧
     ¬ dispatches [Out.GetAds "US" (Str.substr "news-finance-crypto" 0 pos)]) ∧
  ("-"%char ∉ Str.chars "news") ∧
  OnGetAds E FAILED "US" "news" [] s = Ok (tt, s, []).
Proof.
  intros E s.
  assert (Hin : "-"%char ∈ Str.chars "news-finance-crypto")
    by (simpl; do 4 apply list_elem_of_further; apply list_elem_of_here).
  assert (Hout : "-"%char ∉ Str.chars "news")
    by (apply find_last_of_None; reflexivity).
  split; [exact Hin |].
  split; [exact (proj1 (OnGetAds_failed E "US" "news-finance-crypto" [] s) Hin) |].
  split; [exact Hout |].
  exact (proj1 (proj2 (OnGetAds_failed E "US" "news" [] s) Hout) eq_refl).
Defined.

(** Scenario S3 of the specification: the first two answers fail and the
    category is cut twice. *)
Example OnGetAds_S3 :
  let E := Sample.host ["en"] 4 20 100000 Sample.parse_https 0 in
  let s := Sample.running [] [] ∅ in
  OnGetAds E FAILED "US" "news-finance-crypto" [] s
    = Ok (tt, s, [Out.GetAds "US" "news-finance"]) ∧
  OnGetAds E FAILED "US" "news-finance" [] s = Ok (tt, s, [Out.GetAds "US" "news"]) ∧
  ∃ s' info,
    OnGetAds E SUCCESS "US" "news" [Sample.ad "a1"; Sample.ad "a2"] s
    = Ok (tt, s', [Out.ShowNotification info]).
Proof.
  intros E s. split; [vm_compute; reflexivity |]. split; [vm_compute; reflexivity |].
  eexists _, _. vm_compute. reflexivity.
Qed.

Lemma length_append s1 s2 :
  String.length (s1 +:+ s2) = String.length s1 + String.length s2.
Proof. induction s1 as [| a s1 IH]; simpl; [reflexivity | rewrite IH; reflexivity]. Qed.

(** The category of the retry is shorter: the fallback ends. *)
Lemma OnGetAds_retry_shorter category pos :
  Str.find_last_of category "-" = Some pos ->
  String.length (Str.substr category 0 pos) < String.length category.
Proof.
  intros Hfind.
  destruct (find_last_of_Some _ _ _ Hfind) as (suffix & Hsplit & _ & Hlen).
  rewrite Hsplit at 2. rewrite length_append. simpl. lia.
Qed.

(** C6, as the specification states it: with result [FAILED] and a
    category without ['-'], the invocation dispatches no ad.  This does not
    hold: the answer is [FAILED], the category ["news"] contains no ['-'],
    the answer holds an ad, and the invocation hands a notification to the
    host. *)
Lemma OnGetAds_failed_leaf_category_dispatches :
  ¬ (∀ E region category ads s s' out,
       "-"%char ∉ Str.chars category ->
       OnGetAds E FAILED region category ads s = Ok (tt, s', out) ->
       ¬ dispatches out).
Proof.
  intros Hnever.
  pose (E := Sample.host ["en"] 4 20 100000 Sample.parse_https 0).
  pose (s := Sample.running [] [] ∅).
  assert (Hout : "-"%char ∉ Str.chars "news") by (apply find_last_of_None; reflexivity).
  destruct (OnGetAds E FAILED "US" "news" [Sample.ad "a1"] s)
    as [[[[] s'] out] | f] eqn:Hrun; [| vm_compute in Hrun; discriminate].
  apply (Hnever E "US" "news" [Sample.ad "a1"] s s' out Hout Hrun).
  vm_compute in Hrun. injection Hrun as _ <-.
  eexists. apply list_elem_of_here.
Qed.

(** ** The initialisation guard *)

(** What [IsInitialized] returns, by the fields it looks at, in the order
    it looks at them. *)
Lemma IsInitialized_run E s :
  IsInitialized E s
  = if negb (is_initialized_ s) then Ok (false, s, [])
    else if negb (IsAdsEnabled E) then Ok (false, s, [])
    else match user_model_ s with
         | None => Fault NullDereference
         | Some um => Ok (UserModel.IsInitialized um, s, [])
         end.
Proof.
  unfold IsInitialized. rewrite bind_reads.
  destruct (is_initialized_ s); [| reflexivity].
  destruct (IsAdsEnabled E); [| reflexivity].
  simpl. unfold bind, user_model.
  destruct (user_model_ s) as [um |]; [| reflexivity].
  destruct (UserModel.IsInitialized um); reflexivity.
Qed.

Lemma IsInitialized_pure E s r : IsInitialized E s = Ok r -> r = (r.1.1, s, []).
Proof.
  rewrite IsInitialized_run.
  destruct (is_initialized_ s), (IsAdsEnabled E), (user_model_ s); simpl;
    intros H; inversion H; reflexivity.
Qed.

Lemma IsInitialized_true E s :
  IsInitialized E s = Ok (true, s, []) ↔
  is_initialized_ s = true ∧ IsAdsEnabled E = true ∧
  ∃ um, user_model_ s = Some um ∧ UserModel.IsInitialized um = true.
Proof.
  rewrite IsInitialized_run.
  destruct (is_initialized_ s), (IsAdsEnabled E), (user_model_ s) as [um |]; simpl;
    split; try (intros H; discriminate H); try (intros (? & ? & ?); discriminate).
  - intros H. injection H as H. eauto.
  - intros (_ & _ & um' & Heq & Hinit). injection Heq as <-. rewrite Hinit. reflexivity.
  - intros (_ & _ & um' & Heq & _). discriminate.
Qed.

(** ** Locales *)

Lemma Split_first_segment s delimiter :
  ∃ segments, Split s delimiter = first_segment s delimiter :: segments.
Proof.
  induction s as [| a s [segments IH]]; simpl.
  - eauto.
  - destruct (Ascii.eqb a delimiter); [eauto |].
    rewrite IH. eauto.
Qed.

(** The first segment holds no delimiter, and the string is the first
    segment alone or the first segment, a delimiter and a rest. *)
Lemma first_segment_spec s delimiter :
  (delimiter ∉ Str.chars (first_segment s delimiter)) ∧
  (s = first_segment s delimiter ∨
   ∃ rest, s = (first_segment s delimiter +:+ String delimiter rest)).
Proof.
  induction s as [| a s [IHout IHsplit]]; simpl.
  - split; [intros Hin; inversion Hin | left; reflexivity].
  - destruct (Ascii.eqb_spec a delimiter) as [-> | Hne]; simpl.
    + split; [intros Hin; inversion Hin | right; eauto].
    + split.
      * apply not_elem_of_cons. split; [congruence | exact IHout].
      * destruct IHsplit as [Heq | [rest Heq]].
        -- left. f_equal. exact Heq.
        -- right. exists rest.
           change (String a s
                   = String a (first_segment s delimiter +:+ String delimiter rest)).
           f_equal. exact Heq.
Qed.

Lemma LoadUserModel_run s :
  LoadUserModel s = Ok (tt, s, [Out.LoadUserModelForLocale (Client.GetLocale (client_ s))]).
Proof. reflexivity. Qed.

(** C7: for every [ChangeLocale(locale)] call on an initialised engine: if
    [locale] is in the list of locales of the host, the client locale is
    set to [locale]; otherwise, if the first of the segments of [locale]
    separated by ['_'] is in the list, the client locale is set to that
    segment; otherwise it is set to [kDefaultLanguage]; and in all cases
    the user model is then requested for the stored locale. *)
Theorem ChangeLocale_spec E locale s :
  IsInitialized E s = Ok (true, s, []) ->
  let stored :=
    if bool_decide (locale ∈ GetLocales E) then locale
    else if bool_decide (first_segment locale "_" ∈ GetLocales E)
         then first_segment locale "_"
         else kDefaultLanguage E in
  ∃ s',
    ChangeLocale E locale s = Ok (tt, s', [Out.LoadUserModelForLocale stored]) ∧
    s' = set_client (Client.SetLocale stored (client_ s)) s ∧
    Client.GetLocale (client_ s') = stored.
Proof.
  intros Hinit stored. eexists. split; [| split; reflexivity].
  unfold ChangeLocale. rewrite (bind_pure _ _ _ _ Hinit). cbv beta iota delta [negb].
  subst stored.
  destruct (bool_decide (locale ∈ GetLocales E)); cbv iota.
  - rewrite bind_client. reflexivity.
  - destruct (Split_first_segment locale "_") as [segments ->].
    unfold front. rewrite bind_assoc, bind_ret_l, bind_client. reflexivity.
Qed.

Lemma ChangeLocale_spec_witness :
  let E := Sample.host ["en"; "fr"; "de"] 4 20 100000 Sample.parse_https 0 in
  let s := Sample.running [] [] ∅ in
  IsInitialized E s = Ok (true, s, []) ∧
  (∃ s', ChangeLocale E "fr_CA" s = Ok (tt, s', [Out.LoadUserModelForLocale "fr"]) ∧
         s' = set_client (Client.SetLocale "fr" (client_ s)) s ∧
         Client.GetLocale (client_ s') = "fr") ∧
  (∃ s', ChangeLocale E "es_MX" s = Ok (tt, s', [Out.LoadUserModelForLocale "en"]) ∧
         s' = set_client (Client.SetLocale "en" (client_ s)) s ∧
         Client.GetLocale (client_ s') = "en") ∧
  (∃ s', ChangeLocale E "de" s = Ok (tt, s', [Out.LoadUserModelForLocale "de"]) ∧
         s' = set_client (Client.SetLocale "de" (client_ s)) s ∧
         Client.GetLocale (client_ s') = "de").
Proof.
  intros E s.
  assert (Hinit : IsInitialized E s = Ok (true, s, [])) by (vm_compute; reflexivity).
  split; [exact Hinit |].
  split; [exact (ChangeLocale_spec E "fr_CA" s Hinit) |].
  split; [exact (ChangeLocale_spec E "es_MX" s Hinit) |].
  exact (ChangeLocale_spec E "de" s Hinit).
Defined.

(** ** Outbound notifications *)

Lemma emits_ret {A} P (a : A) : emits P (ret a).
Proof. intros s. simpl. constructor. Qed.

Lemma emits_bind {A B} P (m : M A) (k : A -> M B) :
  emits P m -> (∀ a, emits P (k a)) -> emits P (bind m k).
Proof.
  intros Hm Hk s. unfold bind. specialize (Hm s).
  destruct (m s) as [[[a s1] out1] | f]; [| exact I].
  specialize (Hk a s1). destruct (k a s1) as [[[b s2] out2] | f]; [| exact I].
  apply Forall_app. auto.
Qed.

Lemma emits_reads {A} P (f : AdsImpl -> A) : emits P (reads f).
Proof. intros s. simpl. constructor. Qed.

Lemma emits_modify P (f : AdsImpl -> AdsImpl) : emits P (modify f).
Proof. intros s. simpl. constructor. Qed.

Lemma emits_client P (f : Client.t -> Client.t) : emits P (client f).
Proof. apply emits_modify. Qed.

Lemma emits_call (P : Out.call -> Prop) c : P c -> emits P (call c).
Proof. intros Hc s. simpl. repeat constructor. exact Hc. Qed.

Lemma emits_crash {A} P (f : fault) : emits P (crash (A := A) f).
Proof. intros s. exact I. Qed.

Lemma emits_at {A} P (v : list A) i : emits P (at_ v i).
Proof. unfold at_. destruct (v !! i); [apply emits_ret | apply emits_crash]. Qed.

Lemma emits_front {A} P (v : list A) : emits P (front v).
Proof. unfold front. destruct v; [apply emits_crash | apply emits_ret]. Qed.

Lemma emits_udiv P a b : emits P (udiv a b).
Proof. unfold udiv. destruct (b =? 0)%Z; [apply emits_crash | apply emits_ret]. Qed.

Lemma emits_user_model P : emits P user_model.
Proof. intros s. unfold user_model. destruct (user_model_ s); [constructor | exact I]. Qed.

Create HintDb emits.

#[local] Hint Resolve emits_ret emits_reads emits_modify emits_client emits_crash emits_at
  emits_front emits_udiv emits_user_model : emits.
#[local] Hint Extern 1 (emits complete_notification (call _)) =>
  (apply emits_call; exact I) : emits.

Ltac emits_step :=
  cbv beta zeta;
  lazymatch goal with
  | |- emits _ (bind _ _) => apply emits_bind; [ | intros ? ]
  | |- emits _ (when _ _) => unfold when
  | |- emits _ (match ?x with _ => _ end) => destruct x
  | |- emits _ _ => solve [ eauto with emits ]
  end.

Ltac emits_auto := repeat emits_step.

(** [ShowAd] is the one method that calls [ShowNotification], and it does so
    after [IsAdValid]. *)
Lemma ShowAd_emits E ad_info category :
  emits complete_notification (ShowAd E ad_info category).
Proof.
  intros s. destruct (IsAdValid ad_info) eqn:Hvalid.
  - rewrite (ShowAd_valid E ad_info category s Hvalid).
    apply IsAdValid_true_iff in Hvalid. repeat constructor; simpl; tauto.
  - rewrite (ShowAd_invalid E ad_info category s Hvalid). constructor.
Qed.
#[local] Hint Resolve ShowAd_emits : emits.

Lemma GenerateAdReportingRestartEvent_emits :
  emits complete_notification GenerateAdReportingRestartEvent.
Proof. unfold GenerateAdReportingRestartEvent. emits_auto. Qed.
#[local] Hint Resolve GenerateAdReportingRestartEvent_emits : emits.

Lemma GenerateAdReportingSustainEvent_emits info :
  emits complete_notification (GenerateAdReportingSustainEvent info).
Proof. unfold GenerateAdReportingSustainEvent. emits_auto. Qed.
#[local] Hint Resolve GenerateAdReportingSustainEvent_emits : emits.

Lemma GenerateAdReportingBackgroundEvent_emits :
  emits complete_notification GenerateAdReportingBackgroundEvent.
Proof. unfold GenerateAdReportingBackgroundEvent. emits_auto. Qed.
#[local] Hint Resolve GenerateAdReportingBackgroundEvent_emits : emits.

Lemma GenerateAdReportingForegroundEvent_emits :
  emits complete_notification GenerateAdReportingForegroundEvent.
Proof. unfold GenerateAdReportingForegroundEvent. emits_auto. Qed.
#[local] Hint Resolve GenerateAdReportingForegroundEvent_emits : emits.

Lemma GenerateAdReportingBlurEvent_emits tab_id :
  emits complete_notification (GenerateAdReportingBlurEvent tab_id).
Proof. unfold GenerateAdReportingBlurEvent. emits_auto. Qed.
#[local] Hint Resolve GenerateAdReportingBlurEvent_emits : emits.

Lemma GenerateAdReportingDestroyEvent_emits tab_id :
  emits complete_notification (GenerateAdReportingDestroyEvent tab_id).
Proof. unfold GenerateAdReportingDestroyEvent. emits_auto. Qed.
#[local] Hint Resolve GenerateAdReportingDestroyEvent_emits : emits.

Lemma GenerateAdReportingFocusEvent_emits tab_id :
  emits complete_notification (GenerateAdReportingFocusEvent tab_id).
Proof. unfold GenerateAdReportingFocusEvent. emits_auto. Qed.
#[local] Hint Resolve GenerateAdReportingFocusEvent_emits : emits.

Lemma GenerateAdReportingSettingsEvent_emits E :
  emits complete_notification (GenerateAdReportingSettingsEvent E).
Proof. unfold GenerateAdReportingSettingsEvent. emits_auto. Qed.
#[local] Hint Resolve GenerateAdReportingSettingsEvent_emits : emits.

Lemma IsInitialized_emits E :
  emits complete_notification (IsInitialized E).
Proof. unfold IsInitialized. emits_auto. Qed.
#[local] Hint Resolve IsInitialized_emits : emits.

Lemma OnForeground_emits :
  emits complete_notification OnForeground.
Proof. unfold OnForeground. emits_auto. Qed.
#[local] Hint Resolve OnForeground_emits : emits.

Lemma OnBackground_emits :
  emits complete_notification OnBackground.
Proof. unfold OnBackground. emits_auto. Qed.
#[local] Hint Resolve OnBackground_emits : emits.

Lemma IsForeground_emits :
  emits complete_notification IsForeground.
Proof. unfold IsForeground. emits_auto. Qed.
#[local] Hint Resolve IsForeground_emits : emits.

Lemma OnIdle_emits :
  emits complete_notification OnIdle.
Proof. unfold OnIdle. emits_auto. Qed.
#[local] Hint Resolve OnIdle_emits : emits.

Lemma OnMediaPlaying_emits tab_id :
  emits complete_notification (OnMediaPlaying tab_id).
Proof. unfold OnMediaPlaying. emits_auto. Qed.
#[local] Hint Resolve OnMediaPlaying_emits : emits.

Lemma OnMediaStopped_emits tab_id :
  emits complete_notification (OnMediaStopped tab_id).
Proof. unfold OnMediaStopped. emits_auto. Qed.
#[local] Hint Resolve OnMediaStopped_emits : emits.

Lemma IsMediaPlaying_emits :
  emits complete_notification IsMediaPlaying.
Proof. unfold IsMediaPlaying. emits_auto. Qed.
#[local] Hint Resolve IsMediaPlaying_emits : emits.

Lemma IsCollectingActivity_emits :
  emits complete_notification IsCollectingActivity.
Proof. unfold IsCollectingActivity. emits_auto. Qed.
#[local] Hint Resolve IsCollectingActivity_emits : emits.

Lemma StopCollectingActivity_emits :
  emits complete_notification StopCollectingActivity.
Proof. unfold StopCollectingActivity. emits_auto. Qed.
#[local] Hint Resolve StopCollectingActivity_emits : emits.

Lemma StartCollectingActivity_emits E start_timer_in :
  emits complete_notification (StartCollectingActivity E start_timer_in).
Proof. unfold StartCollectingActivity. emits_auto. Qed.
#[local] Hint Resolve StartCollectingActivity_emits : emits.

Lemma IsSustainingAdInteraction_emits :
  emits complete_notification IsSustainingAdInteraction.
Proof. unfold IsSustainingAdInteraction. emits_auto. Qed.
#[local] Hint Resolve IsSustainingAdInteraction_emits : emits.

Lemma StopSustainingAdInteraction_emits :
  emits complete_notification StopSustainingAdInteraction.
Proof. unfold StopSustainingAdInteraction. emits_auto. Qed.
#[local] Hint Resolve StopSustainingAdInteraction_emits : emits.

Lemma StartSustainingAdInteraction_emits E start_timer_in :
  emits complete_notification (StartSustainingAdInteraction E start_timer_in).
Proof. unfold StartSustainingAdInteraction. emits_auto. Qed.
#[local] Hint Resolve StartSustainingAdInteraction_emits : emits.

Lemma IsStillViewingAd_emits :
  emits complete_notification IsStillViewingAd.
Proof. unfold IsStillViewingAd. emits_auto. Qed.
#[local] Hint Resolve IsStillViewingAd_emits : emits.

Lemma SustainAdInteraction_emits E :
  emits complete_notification (SustainAdInteraction E).
Proof. unfold SustainAdInteraction. emits_auto. Qed.
#[local] Hint Resolve SustainAdInteraction_emits : emits.

Lemma GenerateAdReportingNotificationShownEvent_emits info :
  emits complete_notification (GenerateAdReportingNotificationShownEvent info).
Proof. unfold GenerateAdReportingNotificationShownEvent. emits_auto. Qed.
#[local] Hint Resolve GenerateAdReportingNotificationShownEvent_emits : emits.

Lemma GenerateAdReportingNotificationResultEvent_emits E info type :
  emits complete_notification (GenerateAdReportingNotificationResultEvent E info type).
Proof. unfold GenerateAdReportingNotificationResultEvent. emits_auto. Qed.
#[local] Hint Resolve GenerateAdReportingNotificationResultEvent_emits : emits.

Lemma ConfirmAdUUIDIfAdEnabled_emits E :
  emits complete_notification (ConfirmAdUUIDIfAdEnabled E).
Proof. unfold ConfirmAdUUIDIfAdEnabled. emits_auto. Qed.
#[local] Hint Resolve ConfirmAdUUIDIfAdEnabled_emits : emits.

Lemma RemoveAllHistory_emits E :
  emits complete_notification (RemoveAllHistory E).
Proof. unfold RemoveAllHistory. emits_auto. Qed.
#[local] Hint Resolve RemoveAllHistory_emits : emits.

Lemma SaveCachedInfo_emits E :
  emits complete_notification (SaveCachedInfo E).
Proof. unfold SaveCachedInfo. emits_auto. Qed.
#[local] Hint Resolve SaveCachedInfo_emits : emits.

Lemma RetrieveSSID_emits E :
  emits complete_notification (RetrieveSSID E).
Proof. unfold RetrieveSSID. emits_auto. Qed.
#[local] Hint Resolve RetrieveSSID_emits : emits.

Lemma ProcessLocales_emits locales :
  emits complete_notification (ProcessLocales locales).
Proof. unfold ProcessLocales. emits_auto. Qed.
#[local] Hint Resolve ProcessLocales_emits : emits.

Lemma Deinitialize_emits E :
  emits complete_notification (Deinitialize E).
Proof. unfold Deinitialize. emits_auto. Qed.
#[local] Hint Resolve Deinitialize_emits : emits.

Lemma Initialize_emits E :
  emits complete_notification (Initialize E).
Proof. unfold Initialize. emits_auto. Qed.
#[local] Hint Resolve Initialize_emits : emits.

Lemma LoadUserModel_emits :
  emits complete_notification LoadUserModel.
Proof. unfold LoadUserModel. emits_auto. Qed.
#[local] Hint Resolve LoadUserModel_emits : emits.

Lemma InitializeStep2_emits E :
  emits complete_notification (InitializeStep2 E).
Proof. unfold InitializeStep2. emits_auto. Qed.
#[local] Hint Resolve InitializeStep2_emits : emits.

Lemma AdsShownHistoryRespectsRollingTimeConstraint_emits E seconds_window allowable_ad_count :
  emits complete_notification (AdsShownHistoryRespectsRollingTimeConstraint E seconds_window allowable_ad_count).
Proof. unfold AdsShownHistoryRespectsRollingTimeConstraint. emits_auto. Qed.
#[local] Hint Resolve AdsShownHistoryRespectsRollingTimeConstraint_emits : emits.

Lemma IsAllowedToShowAds_emits E :
  emits complete_notification (IsAllowedToShowAds E).
Proof. unfold IsAllowedToShowAds. emits_auto. Qed.
#[local] Hint Resolve IsAllowedToShowAds_emits : emits.

Lemma GetUnseenAds_emits ads :
  emits complete_notification (GetUnseenAds ads).
Proof. unfold GetUnseenAds. emits_auto. Qed.
#[local] Hint Resolve GetUnseenAds_emits : emits.

Lemma OnGetAds_emits E result region category ads :
  emits complete_notification (OnGetAds E result region category ads).
Proof. unfold OnGetAds. emits_auto. Qed.
#[local] Hint Resolve OnGetAds_emits : emits.

Lemma OnLoadSampleBundle_emits E result json :
  emits complete_notification (OnLoadSampleBundle E result json).
Proof. unfold OnLoadSampleBundle. emits_auto. Qed.
#[local] Hint Resolve OnLoadSampleBundle_emits : emits.

Lemma ServeSampleAd_emits E :
  emits complete_notification (ServeSampleAd E).
Proof. unfold ServeSampleAd. emits_auto. Qed.
#[local] Hint Resolve ServeSampleAd_emits : emits.

Lemma GetWinningCategory_emits page_score :
  emits complete_notification (GetWinningCategory page_score).
Proof. unfold GetWinningCategory. emits_auto. Qed.
#[local] Hint Resolve GetWinningCategory_emits : emits.

Lemma GetWinnerOverTimeCategory_emits :
  emits complete_notification GetWinnerOverTimeCategory.
Proof. unfold GetWinnerOverTimeCategory. emits_auto. Qed.
#[local] Hint Resolve GetWinnerOverTimeCategory_emits : emits.

Lemma CachePageScore_emits url page_score :
  emits complete_notification (CachePageScore url page_score).
Proof. unfold CachePageScore. emits_auto. Qed.
#[local] Hint Resolve CachePageScore_emits : emits.

Lemma ServeAdFromCategory_emits E category :
  emits complete_notification (ServeAdFromCategory E category).
Proof. unfold ServeAdFromCategory. emits_auto. Qed.
#[local] Hint Resolve ServeAdFromCategory_emits : emits.

Lemma CheckReadyAdServe_emits E forced :
  emits complete_notification (CheckReadyAdServe E forced).
Proof. unfold CheckReadyAdServe. emits_auto. Qed.
#[local] Hint Resolve CheckReadyAdServe_emits : emits.

Lemma NotificationAllowedCheck_emits E serve :
  emits complete_notification (NotificationAllowedCheck E serve).
Proof. unfold NotificationAllowedCheck. emits_auto. Qed.
#[local] Hint Resolve NotificationAllowedCheck_emits : emits.

Lemma OnUnIdle_emits E :
  emits complete_notification (OnUnIdle E).
Proof. unfold OnUnIdle. emits_auto. Qed.
#[local] Hint Resolve OnUnIdle_emits : emits.

Lemma InitializeStep3_emits E :
  emits complete_notification (InitializeStep3 E).
Proof. unfold InitializeStep3. emits_auto. Qed.
#[local] Hint Resolve InitializeStep3_emits : emits.

Lemma InitializeUserModel_emits E json :
  emits complete_notification (InitializeUserModel E json).
Proof. unfold InitializeUserModel. emits_auto. Qed.
#[local] Hint Resolve InitializeUserModel_emits : emits.

Lemma OnUserModelLoaded_emits E result json :
  emits complete_notification (OnUserModelLoaded E result json).
Proof. unfold OnUserModelLoaded. emits_auto. Qed.
#[local] Hint Resolve OnUserModelLoaded_emits : emits.

Lemma TestShoppingData_emits E url :
  emits complete_notification (TestShoppingData E url).
Proof. unfold TestShoppingData. emits_auto. Qed.
#[local] Hint Resolve TestShoppingData_emits : emits.

Lemma TestSearchState_emits E url :
  emits complete_notification (TestSearchState E url).
Proof. unfold TestSearchState. emits_auto. Qed.
#[local] Hint Resolve TestSearchState_emits : emits.

Lemma ClassifyPage_emits E url html :
  emits complete_notification (ClassifyPage E url html).
Proof. unfold ClassifyPage. emits_auto. Qed.
#[local] Hint Resolve ClassifyPage_emits : emits.

Lemma ChangeLocale_emits E locale :
  emits complete_notification (ChangeLocale E locale).
Proof. unfold ChangeLocale. emits_auto. Qed.
#[local] Hint Resolve ChangeLocale_emits : emits.

Lemma GenerateAdReportingLoadEvent_emits E info :
  emits complete_notification (GenerateAdReportingLoadEvent E info).
Proof. unfold GenerateAdReportingLoadEvent. emits_auto. Qed.
#[local] Hint Resolve GenerateAdReportingLoadEvent_emits : emits.

Lemma TabUpdated_emits E tab_id url is_active is_incognito :
  emits complete_notification (TabUpdated E tab_id url is_active is_incognito).
Proof. unfold TabUpdated. emits_auto. Qed.
#[local] Hint Resolve TabUpdated_emits : emits.

Lemma TabClosed_emits tab_id :
  emits complete_notification (TabClosed tab_id).
Proof. unfold TabClosed. emits_auto. Qed.
#[local] Hint Resolve TabClosed_emits : emits.

Lemma CollectActivity_emits E :
  emits complete_notification (CollectActivity E).
Proof. unfold CollectActivity. emits_auto. Qed.
#[local] Hint Resolve CollectActivity_emits : emits.

Lemma OnTimer_emits E timer_id :
  emits complete_notification (OnTimer E timer_id).
Proof. unfold OnTimer. emits_auto. Qed.
#[local] Hint Resolve OnTimer_emits : emits.

Lemma OnClientStateLoaded_emits E loaded :
  emits complete_notification (OnClientStateLoaded E loaded).
Proof. unfold OnClientStateLoaded. emits_auto. Qed.
#[local] Hint Resolve OnClientStateLoaded_emits : emits.

(** Invariant 1 of the specification: every notification that an
    invocation hands to the host has an advertiser, a text and a url. *)
Lemma invoke_shows_complete_notifications E i s s' out info :
  invoke E i s = Ok (tt, s', out) ->
  Out.ShowNotification info ∈ out ->
  NotificationInfo.advertiser info ≠ "" ∧
  NotificationInfo.text info ≠ "" ∧
  NotificationInfo.url info ≠ "".
Proof.
  intros Hrun Hin.
  assert (Hemits : emits complete_notification (invoke E i))
    by (destruct i; simpl; eauto with emits).
  specialize (Hemits s). rewrite Hrun in Hemits.
  rewrite Forall_forall in Hemits. exact (Hemits _ Hin).
Qed.

(** ** The load report *)

(** When the host parses the url, line 984 returns before any report. *)
Lemma GenerateAdReportingLoadEvent_parsed E info s :
  (GetUrlComponents E (tab_url info)).1 = true ->
  GenerateAdReportingLoadEvent E info s = Ok (tt, s, []).
Proof.
  intros Hparsed. unfold GenerateAdReportingLoadEvent.
  destruct (GetUrlComponents E (tab_url info)) as [parsed components].
  simpl in Hparsed. subst parsed. reflexivity.
Qed.

(** When the host does not parse the url, the report depends on the scheme
    the host left in the components. *)
Lemma GenerateAdReportingLoadEvent_not_parsed E info s components :
  GetUrlComponents E (tab_url info) = (false, components) ->
  UrlComponents.scheme components = "http" ∨ UrlComponents.scheme components = "https" ->
  _is_testing E = false ->
  GenerateAdReportingLoadEvent E info s
  = Ok (tt, s,
        [Out.EventLog
           (Report.load (tab_id info)
              (if Client.GetSearchState (client_ s) then Report.search else Report.click)
              (tab_url info) (Split (last_page_classification_ s) "-")
              (page_score_cache_ s !! tab_url info))]).
Proof.
  intros Hparse Hscheme Htesting. unfold GenerateAdReportingLoadEvent.
  rewrite Hparse, Htesting.
  destruct Hscheme as [-> | ->]; reflexivity.
Qed.

(** C8: for a tab that is not incognito, [GenerateAdReportingLoadEvent]
    emits a load event if and only if [GetUrlComponents] succeeds and the
    scheme is [http] or [https].  This does not hold of the code.  A tab
    is updated with a url that the host parses, with scheme [https]:
    [TabUpdated] reports the focus and no load.  With a host that fails to
    parse the url and leaves [http] in the components, the load is
    reported.  The condition of line 984 returns when [GetUrlComponents]
    succeeds, where [TestShoppingData] and [TestSearchState] return when it
    fails. *)
Theorem TabUpdated_reports_no_load_for_a_parsed_url :
  let url := "https://example.com/" in
  let s := Sample.running [] [] ∅ in
  let parsing := Sample.host ["en"] 4 20 100000 Sample.parse_https 0 in
  let failing := Sample.host ["en"] 4 20 100000 Sample.parse_fails_http 0 in
  (GetUrlComponents parsing url).1 = true ∧
  UrlComponents.scheme (GetUrlComponents parsing url).2 = "https" ∧
  (∃ s', TabUpdated parsing 1 url true false s
         = Ok (tt, s', [Out.EventLog (Report.focus 1)])) ∧
  (GetUrlComponents failing url).1 = false ∧
  (∃ s' classification,
     TabUpdated failing 1 url true false s
     = Ok (tt, s', [Out.EventLog (Report.load 1 Report.click url classification None);
                    Out.EventLog (Report.focus 1)])).
Proof.
  intros url s parsing failing.
  split; [reflexivity |]. split; [reflexivity |].
  split; [eexists; vm_compute; reflexivity |].
  split; [reflexivity |].
  eexists _, _. vm_compute. reflexivity.
Qed.

(** ** The guard of [user_model_] *)

Lemma triple_bind {A B} (P : AdsImpl -> Prop) (m : M A) (k : A -> M B)
    (Q : A -> AdsImpl -> Prop) (R : B -> AdsImpl -> Prop) :
  triple P m Q -> (∀ a, triple (Q a) (k a) R) -> triple P (bind m k) R.
Proof.
  intros Hm Hk s HP. unfold bind.
  specialize (Hm s HP). destruct (m s) as [[[a s1] out1] | f]; [| exact Hm].
  specialize (Hk a s1 Hm). destruct (k a s1) as [[[b s2] out2] | f]; exact Hk.
Qed.

Lemma triple_weaken {A} (P P' : AdsImpl -> Prop) (m : M A) (Q Q' : A -> AdsImpl -> Prop) :
  (∀ s, P' s -> P s) -> (∀ a s, Q a s -> Q' a s) -> triple P m Q -> triple P' m Q'.
Proof.
  intros HP HQ Hm s HP'. specialize (Hm s (HP s HP')).
  destruct (m s) as [[[a s1] out1] | f]; [apply HQ; exact Hm | exact Hm].
Qed.

Lemma keeps_bind {A B} k (m : M A) (f : A -> M B) (Q : A -> Prop) (R : B -> Prop) :
  keeps k m Q -> (∀ a, Q a -> keeps k (f a) R) -> keeps k (bind m f) R.
Proof.
  intros Hm Hf. unfold keeps. eapply triple_bind; [exact Hm |].
  intros a s [Hs HQ]. exact (Hf a HQ s Hs).
Qed.

Lemma keeps_bind_True {A B} k (m : M A) (f : A -> M B) (R : B -> Prop) :
  keeps k m (λ _, True) -> (∀ a, keeps k (f a) R) -> keeps k (bind m f) R.
Proof. intros Hm Hf. eapply keeps_bind; [exact Hm | intros a _; apply Hf]. Qed.

Lemma keeps_weaken {A} k (m : M A) (Q Q' : A -> Prop) :
  (∀ a, Q a -> Q' a) -> keeps k m Q -> keeps k m Q'.
Proof.
  intros HQ. unfold keeps. apply triple_weaken; [auto |].
  intros a s [Hs Ha]. auto.
Qed.

Lemma keeps_ret {A} k (a : A) : keeps k (ret a) (λ _, True).
Proof. intros s Hs. simpl. auto. Qed.

Lemma keeps_reads {A} k (f : AdsImpl -> A) : keeps k (reads f) (λ _, True).
Proof. intros s Hs. simpl. auto. Qed.

Lemma keeps_modify k (f : AdsImpl -> AdsImpl) :
  (∀ s, guard_fields (f s) = guard_fields s) -> keeps k (modify f) (λ _, True).
Proof. intros Hf s Hs. simpl. rewrite Hf. auto. Qed.

Lemma keeps_client k (f : Client.t -> Client.t) : keeps k (client f) (λ _, True).
Proof. apply keeps_modify. reflexivity. Qed.

Lemma keeps_call k (c : Out.call) : keeps k (call c) (λ _, True).
Proof. intros s Hs. simpl. auto. Qed.

Lemma keeps_crash {A} k (f : fault) (Q : A -> Prop) :
  f ≠ NullDereference -> keeps k (crash f) Q.
Proof. intros Hf s Hs. exact Hf. Qed.

Lemma keeps_at {A} k (v : list A) i : keeps k (at_ v i) (λ _, True).
Proof.
  unfold at_. destruct (v !! i); [apply keeps_ret | apply keeps_crash; discriminate].
Qed.

Lemma keeps_front {A} k (v : list A) : keeps k (front v) (λ _, True).
Proof.
  unfold front. destruct v; [apply keeps_crash; discriminate | apply keeps_ret].
Qed.

Lemma keeps_udiv k a b : keeps k (udiv a b) (λ _, True).
Proof.
  unfold udiv. destruct (b =? 0)%Z; [apply keeps_crash; discriminate | apply keeps_ret].
Qed.

Lemma keeps_user_model k : is_Some k.2 -> keeps k user_model (λ _, True).
Proof.
  intros [um Hum] s Hs. unfold user_model.
  assert (Hs2 : user_model_ s = Some um) by (rewrite <- Hum, <- Hs; reflexivity).
  rewrite Hs2. auto.
Qed.

(** The guard itself: when [is_initialized_] is set only with a user model,
    [IsInitialized] does not fault, and when it returns true there is a
    user model. *)
Lemma keeps_IsInitialized E k :
  guarded k -> keeps k (IsInitialized E) (λ initialized, initialized = true -> is_Some k.2).
Proof.
  intros Hguarded s Hs. rewrite IsInitialized_run.
  assert (His : is_initialized_ s = k.1) by (rewrite <- Hs; reflexivity).
  assert (Hum : user_model_ s = k.2) by (rewrite <- Hs; reflexivity).
  destruct (is_initialized_ s); simpl; [| split; [exact Hs | discriminate]].
  destruct (IsAdsEnabled E); simpl; [| split; [exact Hs | discriminate]].
  destruct (Hguarded (eq_sym His)) as [um Hk].
  rewrite Hum, Hk. split; [exact Hs | eauto].
Qed.

Create HintDb keeps.

#[local] Hint Resolve keeps_ret keeps_reads keeps_client keeps_call keeps_at keeps_front
  keeps_udiv keeps_user_model : keeps.
#[local] Hint Extern 1 (keeps _ (modify _) _) =>
  (apply keeps_modify; reflexivity) : keeps.
#[local] Hint Extern 1 (keeps _ (crash _) _) =>
  (apply keeps_crash; discriminate) : keeps.

(** One step of a proof that a method keeps the fields of the guard: follow
    the structure of the method. *)
Ltac keeps_step :=
  cbv beta zeta;
  lazymatch goal with
  | |- keeps _ (bind (IsInitialized _) _) _ =>
      eapply keeps_bind;
      [ apply keeps_IsInitialized; assumption
      | let initialized := fresh "initialized" in
        let Hinit := fresh "Hinit" in
        intros initialized Hinit; destruct initialized;
        [ specialize (Hinit eq_refl) | clear Hinit ]; cbv beta iota delta [negb] ]
  | |- keeps _ (bind _ _) _ => apply keeps_bind_True; [ | intros ? ]
  | |- keeps _ (when _ _) _ => unfold when
  | |- keeps _ (match ?x with _ => _ end) _ => destruct x
  | |- keeps _ _ _ => solve [ eauto with keeps ]
  end.

Ltac keeps_auto := repeat keeps_step.

(** The methods that do not assign [is_initialized_] or [user_model_]: from
    a state where the guard holds they leave the two fields as they are
    and do not fault on a null [user_model_]. *)

Lemma GenerateAdReportingRestartEvent_keeps k :
  keeps k GenerateAdReportingRestartEvent (λ _, True).
Proof. unfold GenerateAdReportingRestartEvent. keeps_auto. Qed.
#[local] Hint Resolve GenerateAdReportingRestartEvent_keeps : keeps.

Lemma GenerateAdReportingSustainEvent_keeps info k :
  keeps k (GenerateAdReportingSustainEvent info) (λ _, True).
Proof. unfold GenerateAdReportingSustainEvent. keeps_auto. Qed.
#[local] Hint Resolve GenerateAdReportingSustainEvent_keeps : keeps.

Lemma GenerateAdReportingBackgroundEvent_keeps k :
  keeps k GenerateAdReportingBackgroundEvent (λ _, True).
Proof. unfold GenerateAdReportingBackgroundEvent. keeps_auto. Qed.
#[local] Hint Resolve GenerateAdReportingBackgroundEvent_keeps : keeps.

Lemma GenerateAdReportingForegroundEvent_keeps k :
  keeps k GenerateAdReportingForegroundEvent (λ _, True).
Proof. unfold GenerateAdReportingForegroundEvent. keeps_auto. Qed.
#[local] Hint Resolve GenerateAdReportingForegroundEvent_keeps : keeps.

Lemma GenerateAdReportingBlurEvent_keeps tab_id k :
  keeps k (GenerateAdReportingBlurEvent tab_id) (λ _, True).
Proof. unfold GenerateAdReportingBlurEvent. keeps_auto. Qed.
#[local] Hint Resolve GenerateAdReportingBlurEvent_keeps : keeps.

Lemma GenerateAdReportingDestroyEvent_keeps tab_id k :
  keeps k (GenerateAdReportingDestroyEvent tab_id) (λ _, True).
Proof. unfold GenerateAdReportingDestroyEvent. keeps_auto. Qed.
#[local] Hint Resolve GenerateAdReportingDestroyEvent_keeps : keeps.

Lemma GenerateAdReportingFocusEvent_keeps tab_id k :
  keeps k (GenerateAdReportingFocusEvent tab_id) (λ _, True).
Proof. unfold GenerateAdReportingFocusEvent. keeps_auto. Qed.
#[local] Hint Resolve GenerateAdReportingFocusEvent_keeps : keeps.

Lemma GenerateAdReportingSettingsEvent_keeps E k :
  keeps k (GenerateAdReportingSettingsEvent E) (λ _, True).
Proof. unfold GenerateAdReportingSettingsEvent. keeps_auto. Qed.
#[local] Hint Resolve GenerateAdReportingSettingsEvent_keeps : keeps.

Lemma OnForeground_keeps k :
  keeps k OnForeground (λ _, True).
Proof. unfold OnForeground. keeps_auto. Qed.
#[local] Hint Resolve OnForeground_keeps : keeps.

Lemma OnBackground_keeps k :
  keeps k OnBackground (λ _, True).
Proof. unfold OnBackground. keeps_auto. Qed.
#[local] Hint Resolve OnBackground_keeps : keeps.

Lemma IsForeground_keeps k :
  keeps k IsForeground (λ _, True).
Proof. unfold IsForeground. keeps_auto. Qed.
#[local] Hint Resolve IsForeground_keeps : keeps.

Lemma OnIdle_keeps k :
  keeps k OnIdle (λ _, True).
Proof. unfold OnIdle. keeps_auto. Qed.
#[local] Hint Resolve OnIdle_keeps : keeps.

Lemma OnMediaPlaying_keeps tab_id k :
  keeps k (OnMediaPlaying tab_id) (λ _, True).
Proof. unfold OnMediaPlaying. keeps_auto. Qed.
#[local] Hint Resolve OnMediaPlaying_keeps : keeps.

Lemma OnMediaStopped_keeps tab_id k :
  keeps k (OnMediaStopped tab_id) (λ _, True).
Proof. unfold OnMediaStopped. keeps_auto. Qed.
#[local] Hint Resolve OnMediaStopped_keeps : keeps.

Lemma IsMediaPlaying_keeps k :
  keeps k IsMediaPlaying (λ _, True).
Proof. unfold IsMediaPlaying. keeps_auto. Qed.
#[local] Hint Resolve IsMediaPlaying_keeps : keeps.

Lemma IsCollectingActivity_keeps k :
  keeps k IsCollectingActivity (λ _, True).
Proof. unfold IsCollectingActivity. keeps_auto. Qed.
#[local] Hint Resolve IsCollectingActivity_keeps : keeps.

Lemma StopCollectingActivity_keeps k :
  keeps k StopCollectingActivity (λ _, True).
Proof. unfold StopCollectingActivity. keeps_auto. Qed.
#[local] Hint Resolve StopCollectingActivity_keeps : keeps.

Lemma StartCollectingActivity_keeps E start_timer_in k :
  keeps k (StartCollectingActivity E start_timer_in) (λ _, True).
Proof. unfold StartCollectingActivity. keeps_auto. Qed.
#[local] Hint Resolve StartCollectingActivity_keeps : keeps.

Lemma IsSustainingAdInteraction_keeps k :
  keeps k IsSustainingAdInteraction (λ _, True).
Proof. unfold IsSustainingAdInteraction. keeps_auto. Qed.
#[local] Hint Resolve IsSustainingAdInteraction_keeps : keeps.

Lemma StopSustainingAdInteraction_keeps k :
  keeps k StopSustainingAdInteraction (λ _, True).
Proof. unfold StopSustainingAdInteraction. keeps_auto. Qed.
#[local] Hint Resolve StopSustainingAdInteraction_keeps : keeps.

Lemma StartSustainingAdInteraction_keeps E start_timer_in k :
  keeps k (StartSustainingAdInteraction E start_timer_in) (λ _, True).
Proof. unfold StartSustainingAdInteraction. keeps_auto. Qed.
#[local] Hint Resolve StartSustainingAdInteraction_keeps : keeps.

Lemma IsStillViewingAd_keeps k :
  keeps k IsStillViewingAd (λ _, True).
Proof. unfold IsStillViewingAd. keeps_auto. Qed.
#[local] Hint Resolve IsStillViewingAd_keeps : keeps.

Lemma SustainAdInteraction_keeps E k :
  keeps k (SustainAdInteraction E) (λ _, True).
Proof. unfold SustainAdInteraction. keeps_auto. Qed.
#[local] Hint Resolve SustainAdInteraction_keeps : keeps.

Lemma GenerateAdReportingNotificationShownEvent_keeps info k :
  keeps k (GenerateAdReportingNotificationShownEvent info) (λ _, True).
Proof. unfold GenerateAdReportingNotificationShownEvent. keeps_auto. Qed.
#[local] Hint Resolve GenerateAdReportingNotificationShownEvent_keeps : keeps.

Lemma GenerateAdReportingNotificationResultEvent_keeps E info type k :
  keeps k (GenerateAdReportingNotificationResultEvent E info type) (λ _, True).
Proof. unfold GenerateAdReportingNotificationResultEvent. keeps_auto. Qed.
#[local] Hint Resolve GenerateAdReportingNotificationResultEvent_keeps : keeps.

Lemma ConfirmAdUUIDIfAdEnabled_keeps E k :
  keeps k (ConfirmAdUUIDIfAdEnabled E) (λ _, True).
Proof. unfold ConfirmAdUUIDIfAdEnabled. keeps_auto. Qed.
#[local] Hint Resolve ConfirmAdUUIDIfAdEnabled_keeps : keeps.

Lemma RemoveAllHistory_keeps E k :
  keeps k (RemoveAllHistory E) (λ _, True).
Proof. unfold RemoveAllHistory. keeps_auto. Qed.
#[local] Hint Resolve RemoveAllHistory_keeps : keeps.

Lemma SaveCachedInfo_keeps E k :
  keeps k (SaveCachedInfo E) (λ _, True).
Proof. unfold SaveCachedInfo. keeps_auto. Qed.
#[local] Hint Resolve SaveCachedInfo_keeps : keeps.

Lemma RetrieveSSID_keeps E k :
  keeps k (RetrieveSSID E) (λ _, True).
Proof. unfold RetrieveSSID. keeps_auto. Qed.
#[local] Hint Resolve RetrieveSSID_keeps : keeps.

Lemma ProcessLocales_keeps locales k :
  keeps k (ProcessLocales locales) (λ _, True).
Proof. unfold ProcessLocales. keeps_auto. Qed.
#[local] Hint Resolve ProcessLocales_keeps : keeps.

Lemma LoadUserModel_keeps k :
  keeps k LoadUserModel (λ _, True).
Proof. unfold LoadUserModel. keeps_auto. Qed.
#[local] Hint Resolve LoadUserModel_keeps : keeps.

Lemma InitializeStep2_keeps E k :
  keeps k (InitializeStep2 E) (λ _, True).
Proof. unfold InitializeStep2. keeps_auto. Qed.
#[local] Hint Resolve InitializeStep2_keeps : keeps.

Lemma AdsShownHistoryRespectsRollingTimeConstraint_keeps E seconds_window allowable_ad_count k :
  keeps k (AdsShownHistoryRespectsRollingTimeConstraint E seconds_window allowable_ad_count) (λ _, True).
Proof. unfold AdsShownHistoryRespectsRollingTimeConstraint. keeps_auto. Qed.
#[local] Hint Resolve AdsShownHistoryRespectsRollingTimeConstraint_keeps : keeps.

Lemma IsAllowedToShowAds_keeps E k :
  keeps k (IsAllowedToShowAds E) (λ _, True).
Proof. unfold IsAllowedToShowAds. keeps_auto. Qed.
#[local] Hint Resolve IsAllowedToShowAds_keeps : keeps.

Lemma ShowAd_keeps E ad_info category k :
  keeps k (ShowAd E ad_info category) (λ _, True).
Proof. unfold ShowAd. keeps_auto. Qed.
#[local] Hint Resolve ShowAd_keeps : keeps.

Lemma GetUnseenAds_keeps ads k :
  keeps k (GetUnseenAds ads) (λ _, True).
Proof. unfold GetUnseenAds. keeps_auto. Qed.
#[local] Hint Resolve GetUnseenAds_keeps : keeps.

Lemma OnGetAds_keeps E result region category ads k :
  keeps k (OnGetAds E result region category ads) (λ _, True).
Proof. unfold OnGetAds. keeps_auto. Qed.
#[local] Hint Resolve OnGetAds_keeps : keeps.

Lemma OnLoadSampleBundle_keeps E result json k :
  keeps k (OnLoadSampleBundle E result json) (λ _, True).
Proof. unfold OnLoadSampleBundle. keeps_auto. Qed.
#[local] Hint Resolve OnLoadSampleBundle_keeps : keeps.

Lemma CachePageScore_keeps url page_score k :
  keeps k (CachePageScore url page_score) (λ _, True).
Proof. unfold CachePageScore. keeps_auto. Qed.
#[local] Hint Resolve CachePageScore_keeps : keeps.

Lemma ServeAdFromCategory_keeps E category k :
  keeps k (ServeAdFromCategory E category) (λ _, True).
Proof. unfold ServeAdFromCategory. keeps_auto. Qed.
#[local] Hint Resolve ServeAdFromCategory_keeps : keeps.

Lemma TabClosed_keeps tab_id k :
  keeps k (TabClosed tab_id) (λ _, True).
Proof. unfold TabClosed. keeps_auto. Qed.
#[local] Hint Resolve TabClosed_keeps : keeps.

(** The methods that look at the guard or at the user model. *)

Lemma ServeSampleAd_keeps E k :
  guarded k -> keeps k (ServeSampleAd E) (λ _, True).
Proof. intros Hk. unfold ServeSampleAd. keeps_auto. Qed.
#[local] Hint Resolve ServeSampleAd_keeps : keeps.

Lemma GetWinningCategory_keeps page_score k :
  is_Some k.2 -> keeps k (GetWinningCategory page_score) (λ _, True).
Proof. intros Hk. unfold GetWinningCategory. keeps_auto. Qed.
#[local] Hint Resolve GetWinningCategory_keeps : keeps.

Lemma GetWinnerOverTimeCategory_keeps k :
  is_Some k.2 -> keeps k GetWinnerOverTimeCategory (λ _, True).
Proof. intros Hk. unfold GetWinnerOverTimeCategory. keeps_auto. Qed.
#[local] Hint Resolve GetWinnerOverTimeCategory_keeps : keeps.

Lemma CheckReadyAdServe_keeps E forced k :
  guarded k -> keeps k (CheckReadyAdServe E forced) (λ _, True).
Proof. intros Hk. unfold CheckReadyAdServe. keeps_auto. Qed.
#[local] Hint Resolve CheckReadyAdServe_keeps : keeps.

Lemma NotificationAllowedCheck_keeps E serve k :
  guarded k -> keeps k (NotificationAllowedCheck E serve) (λ _, True).
Proof. intros Hk. unfold NotificationAllowedCheck. keeps_auto. Qed.
#[local] Hint Resolve NotificationAllowedCheck_keeps : keeps.

Lemma OnUnIdle_keeps E k :
  guarded k -> keeps k (OnUnIdle E) (λ _, True).
Proof. intros Hk. unfold OnUnIdle. keeps_auto. Qed.
#[local] Hint Resolve OnUnIdle_keeps : keeps.

Lemma TestShoppingData_keeps E url k :
  guarded k -> keeps k (TestShoppingData E url) (λ _, True).
Proof. intros Hk. unfold TestShoppingData. keeps_auto. Qed.
#[local] Hint Resolve TestShoppingData_keeps : keeps.

Lemma TestSearchState_keeps E url k :
  guarded k -> keeps k (TestSearchState E url) (λ _, True).
Proof. intros Hk. unfold TestSearchState. keeps_auto. Qed.
#[local] Hint Resolve TestSearchState_keeps : keeps.

Lemma ClassifyPage_keeps E url html k :
  guarded k -> keeps k (ClassifyPage E url html) (λ _, True).
Proof. intros Hk. unfold ClassifyPage. keeps_auto. Qed.
#[local] Hint Resolve ClassifyPage_keeps : keeps.

Lemma ChangeLocale_keeps E locale k :
  guarded k -> keeps k (ChangeLocale E locale) (λ _, True).
Proof. intros Hk. unfold ChangeLocale. keeps_auto. Qed.
#[local] Hint Resolve ChangeLocale_keeps : keeps.

Lemma GenerateAdReportingLoadEvent_keeps E info k :
  guarded k -> keeps k (GenerateAdReportingLoadEvent E info) (λ _, True).
Proof. intros Hk. unfold GenerateAdReportingLoadEvent. keeps_auto. Qed.
#[local] Hint Resolve GenerateAdReportingLoadEvent_keeps : keeps.

Lemma TabUpdated_keeps E tab_id url is_active is_incognito k :
  guarded k -> keeps k (TabUpdated E tab_id url is_active is_incognito) (λ _, True).
Proof. intros Hk. unfold TabUpdated. keeps_auto. Qed.
#[local] Hint Resolve TabUpdated_keeps : keeps.

Lemma CollectActivity_keeps E k :
  guarded k -> keeps k (CollectActivity E) (λ _, True).
Proof. intros Hk. unfold CollectActivity. keeps_auto. Qed.
#[local] Hint Resolve CollectActivity_keeps : keeps.

Lemma OnTimer_keeps E timer_id k :
  guarded k -> keeps k (OnTimer E timer_id) (λ _, True).
Proof. intros Hk. unfold OnTimer. keeps_auto. Qed.
#[local] Hint Resolve OnTimer_keeps : keeps.

Lemma OnClientStateLoaded_keeps E loaded k :
  keeps k (OnClientStateLoaded E loaded) (λ _, True).
Proof. unfold OnClientStateLoaded. keeps_auto. Qed.
#[local] Hint Resolve OnClientStateLoaded_keeps : keeps.

(** The methods that assign the two fields. *)

Lemma triple_keeps_bind {A B} k (m : M A) (f : A -> M B) (Q : A -> Prop)
    (R : B -> AdsImpl -> Prop) :
  keeps k m Q ->
  (∀ a, Q a -> triple (λ s, guard_fields s = k) (f a) R) ->
  triple (λ s, guard_fields s = k) (bind m f) R.
Proof.
  intros Hm Hf. eapply triple_bind; [exact Hm |].
  intros a s [Hs HQ]. exact (Hf a HQ s Hs).
Qed.

Lemma triple_of_keeps {A} k (m : M A) (Q : A -> Prop) :
  guarded k -> keeps k m Q ->
  triple (λ s, guard_fields s = k) m (λ _ s', guarded (guard_fields s')).
Proof.
  intros Hk. apply triple_weaken; [auto |].
  intros a s [Hs _]. rewrite Hs. exact Hk.
Qed.

Lemma triple_fix_fields {A} (m : M A) (R : A -> AdsImpl -> Prop) :
  (∀ k, guarded k -> triple (λ s, guard_fields s = k) m R) ->
  triple (λ s, guarded (guard_fields s)) m R.
Proof. intros Hm s Hs. exact (Hm (guard_fields s) Hs s eq_refl). Qed.

(** [InitializeStep3] sets [is_initialized_]; it is called when the user
    model has just been created. *)
Lemma InitializeStep3_guarded E k :
  is_Some k.2 ->
  triple (λ s, guard_fields s = k) (InitializeStep3 E)
    (λ _ s', guarded (guard_fields s')).
Proof.
  intros Hum. unfold InitializeStep3.
  assert (Hk : guarded (true, k.2)) by (intros _; exact Hum).
  eapply triple_bind with (Q := λ _ s, guard_fields s = (true, k.2)).
  - intros s Hs. simpl. unfold guard_fields in *. simpl. subst k. reflexivity.
  - intros _. eapply (triple_of_keeps _ _ (λ _, True) Hk). keeps_auto.
Qed.

Lemma OnUserModelLoaded_guarded E result json :
  triple (λ s, guarded (guard_fields s)) (OnUserModelLoaded E result json)
    (λ _ s', guarded (guard_fields s')).
Proof.
  apply triple_fix_fields. intros k Hk. unfold OnUserModelLoaded.
  destruct result; [| eapply triple_of_keeps; [exact Hk | apply keeps_ret]].
  set (k' := (k.1, Some (CreateUserModel E json))).
  assert (Hk' : guarded k') by (intros _; simpl; eauto).
  assert (Hum : is_Some k'.2) by (simpl; eauto).
  eapply triple_bind with (Q := λ _ s, guard_fields s = k').
  - intros s Hs. simpl. unfold guard_fields in *. simpl. subst k. reflexivity.
  - intros _. eapply triple_keeps_bind; [apply keeps_IsInitialized; exact Hk' |].
    intros initialized _. destruct initialized; cbv beta iota delta [negb].
    + eapply triple_of_keeps; [exact Hk' | apply keeps_ret].
    + apply InitializeStep3_guarded. exact Hum.
Qed.

(** [Deinitialize] resets the pointer and clears [is_initialized_] in the
    same invocation. *)
Lemma Deinitialize_guarded E :
  triple (λ s, guarded (guard_fields s)) (Deinitialize E)
    (λ _ s', guarded (guard_fields s')).
Proof.
  apply triple_fix_fields. intros k Hk. unfold Deinitialize.
  eapply triple_keeps_bind; [apply keeps_IsInitialized; exact Hk |].
  intros initialized _. destruct initialized; cbv beta iota delta [negb];
    [| eapply triple_of_keeps; [exact Hk | apply keeps_ret]].
  eapply triple_keeps_bind; [apply keeps_call |]. intros _ _.
  eapply triple_keeps_bind; [apply StopSustainingAdInteraction_keeps |]. intros _ _.
  eapply triple_keeps_bind; [apply RemoveAllHistory_keeps |]. intros _ _.
  eapply triple_keeps_bind; [apply keeps_call |]. intros _ _.
  intros s _. simpl. intros Hset. discriminate Hset.
Qed.

Lemma Initialize_guarded E :
  triple (λ s, guarded (guard_fields s)) (Initialize E)
    (λ _ s', guarded (guard_fields s')).
Proof.
  apply triple_fix_fields. intros k Hk. unfold Initialize.
  eapply triple_keeps_bind; [apply keeps_IsInitialized; exact Hk |].
  intros initialized _. destruct initialized;
    [eapply triple_of_keeps; [exact Hk | apply keeps_ret] |].
  destruct (negb (IsAdsEnabled E)).
  - eapply triple_weaken; [| | apply Deinitialize_guarded]; [| auto].
    intros s Hs. simpl. rewrite Hs. exact Hk.
  - eapply (triple_of_keeps _ _ (λ _, True) Hk). keeps_auto.
Qed.

(** Every invocation keeps the guard: in a state where [is_initialized_]
    is set only with a user model, it does not fault on a null
    [user_model_], and it leaves such a state. *)
Lemma invoke_guarded E i :
  triple (λ s, guarded (guard_fields s)) (invoke E i) (λ _ s', guarded (guard_fields s')).
Proof.
  destruct i; simpl;
    try apply Initialize_guarded;
    try apply Deinitialize_guarded;
    try apply OnUserModelLoaded_guarded;
    (apply triple_fix_fields; intros k Hk;
     eapply (triple_of_keeps _ _ (λ _, True) Hk); eauto with keeps).
Qed.

Lemma reachable_guarded s : reachable s -> guarded (guard_fields s).
Proof.
  induction 1 as [| E i s s' out _ IH Hrun].
  - intros Hinit. discriminate Hinit.
  - pose proof (invoke_guarded E i s IH) as Hstep.
    rewrite Hrun in Hstep. exact Hstep.
Qed.

(** C9, as the code has it: [IsInitialized] dereferences [user_model_] only
    when [is_initialized_] is set and the ads are enabled, the operands of
    [||] before it being false; it faults exactly when, in addition, the
    pointer is null.  In every state the object reaches from its
    construction, [is_initialized_] is set only while a user model exists:
    [IsInitialized] returns in all of them, and no invocation of a method
    faults on a null [user_model_]. *)
Theorem IsInitialized_null_dereference_unreachable :
  (∀ E s,
     IsInitialized E s = Fault NullDereference ↔
     is_initialized_ s = true ∧ IsAdsEnabled E = true ∧ user_model_ s = None) ∧
  (∀ s, reachable s -> is_initialized_ s = true -> is_Some (user_model_ s)) ∧
  (∀ E s, reachable s -> ∃ initialized, IsInitialized E s = Ok (initialized, s, [])) ∧
  (∀ E i s, reachable s -> invoke E i s ≠ Fault NullDereference).
Proof.
  assert (Hfault : ∀ E s,
            IsInitialized E s = Fault NullDereference ↔
            is_initialized_ s = true ∧ IsAdsEnabled E = true ∧ user_model_ s = None).
  { intros E s. rewrite IsInitialized_run.
    destruct (is_initialized_ s), (IsAdsEnabled E), (user_model_ s); simpl;
      split; try discriminate; try tauto; intros (? & ? & ?); discriminate. }
  split; [exact Hfault |]. split; [| split].
  - intros s Hreach. exact (reachable_guarded s Hreach).
  - intros E s Hreach. pose proof (reachable_guarded s Hreach) as Hguard.
    rewrite IsInitialized_run. unfold guarded, guard_fields in Hguard. simpl in Hguard.
    destruct (is_initialized_ s); simpl; [| eauto].
    destruct (IsAdsEnabled E); simpl; [| eauto].
    destruct (Hguard eq_refl) as [um ->]. eauto.
  - intros E i s Hreach Hrun.
    pose proof (invoke_guarded E i s (reachable_guarded s Hreach)) as Hstep.
    rewrite Hrun in Hstep. apply Hstep. reflexivity.
Qed.

Lemma IsInitialized_null_dereference_unreachable_witness :
  let E := Sample.host ["en"] 4 20 100000 Sample.parse_https 0 in
  reachable AdsImpl_new ∧
  (∃ initialized, IsInitialized E AdsImpl_new = Ok (initialized, AdsImpl_new, [])) ∧
  invoke E (DoClassifyPage "https://example.com/" "<html/>") AdsImpl_new
  ≠ Fault NullDereference.
Proof.
  intros E.
  split; [exact reachable_new |].
  split.
  - exact (proj1 (proj2 (proj2 IsInitialized_null_dereference_unreachable))
             E AdsImpl_new reachable_new).
  - exact (proj2 (proj2 (proj2 IsInitialized_null_dereference_unreachable))
             E (DoClassifyPage "https://example.com/" "<html/>") AdsImpl_new reachable_new).
Defined.

(** C9, as the specification states it: [IsInitialized] dereferences
    [user_model_] unconditionally, and faults whenever no user model has
    been loaded.  This does not hold: on the object as constructed, and on
    the object after [Deinitialize], no user model exists and
    [IsInitialized] returns false without a fault, as do the operations
    that begin with it. *)
Lemma IsInitialized_returns_without_a_user_model :
  let E := Sample.host ["en"] 4 20 100000 Sample.parse_https 0 in
  (user_model_ AdsImpl_new = None ∧
   IsInitialized E AdsImpl_new = Ok (false, AdsImpl_new, []) ∧
   ClassifyPage E "https://example.com/" "<html/>" AdsImpl_new = Ok (tt, AdsImpl_new, []) ∧
   ChangeLocale E "fr_CA" AdsImpl_new = Ok (tt, AdsImpl_new, []) ∧
   CheckReadyAdServe E false AdsImpl_new = Ok (tt, AdsImpl_new, [])) ∧
  (∃ s' out,
     Deinitialize E (Sample.running [] [] ∅) = Ok (tt, s', out) ∧
     user_model_ s' = None ∧
     IsInitialized E s' = Ok (false, s', [])) ∧
  ¬ (∀ E s, user_model_ s = None -> IsInitialized E s = Fault NullDereference).
Proof.
  intros E. split; [| split].
  - vm_compute. repeat split; reflexivity.
  - eexists _, _. vm_compute. repeat split; reflexivity.
  - intros Halways. specialize (Halways E AdsImpl_new eq_refl). discriminate Halways.
Qed.

(** The only state in which the guard would fault is not reachable. *)
Example IsInitialized_fault_state :
  let E := Sample.host ["en"] 4 20 100000 Sample.parse_https 0 in
  IsInitialized E (set_is_initialized true AdsImpl_new) = Fault NullDereference ∧
  ¬ reachable (set_is_initialized true AdsImpl_new).
Proof.
  intros E. split; [reflexivity |].
  intros Hreach. apply reachable_guarded in Hreach.
  destruct (Hreach eq_refl) as [um Hum]. discriminate Hum.
Qed.

(** ** A first dispatch

    Scenario S1 of the specification, from the construction of the engine:
    the client state and the user model are loaded, the page is classified
    as ["sports"], the user comes back from idle, the catalog answers with
    one ad and the host reports the notification as shown. *)
Example first_dispatch :
  let E := Sample.host ["en"; "fr"] 4 20 100000 Sample.parse_https 0 in
  let info :=
    {| NotificationInfo.advertiser := "Brave";
       NotificationInfo.category := "sports";
       NotificationInfo.text := "Try the browser";
       NotificationInfo.url := "https://brave.com/";
       NotificationInfo.creative_set_id := "set-1";
       NotificationInfo.uuid := "a1" |} in
  ∃ s',
    invoke_all E
      [DoInitialize; DoClientStateLoaded Client.fresh; DoOnUserModelLoaded SUCCESS "{}";
       DoOnForeground; DoClassifyPage "https://example.com/" "<html/>"; DoOnUnIdle;
       DoOnGetAds SUCCESS "US" "sports" [Sample.ad "a1"];
       DoGenerateAdReportingNotificationShownEvent info]
      AdsImpl_new
    = Ok (tt, s',
          [Out.LoadState; Out.LoadUserModelForLocale ""; Out.SetIdleThreshold 15;
           Out.EventLog (Report.settings true "" "" 20 4); Out.SetTimer 3600;
           Out.DownloadCatalog; Out.EventLog (Report.foreground "");
           Out.GetAds "US" "sports"; Out.ShowNotification info;
           Out.EventLog (Report.restart "");
           Out.EventLog (Report.notify Report.generated ["sports"] "set-1"
                           "https://brave.com/")]) ∧
    is_initialized_ s' = true ∧
    last_page_classification_ s' = "sports" ∧
    Client.GetAdsShownHistory (client_ s') = [100000%Z].
Proof. intros E info. eexists. vm_compute. repeat split; reflexivity. Qed.

(** * The rest of the engine *)

Lemma bind_Ok {A B} (m : M A) (k : A -> M B) s a s1 out1 :
  m s = Ok (a, s1, out1) ->
  bind m k s
  = match k a s1 with
    | Ok (b, s2, out2) => Ok (b, s2, out1 ++ out2)
    | Fault f => Fault f
    end.
Proof. intros Hm. unfold bind. rewrite Hm. reflexivity. Qed.

(** Run the first steps of a method: the basic operations of the monad. *)
Ltac run_basic :=
  repeat (cbv beta iota delta [negb when];
          first [ rewrite bind_assoc | rewrite bind_ret_l | rewrite bind_reads
                | rewrite bind_modify | rewrite bind_client | rewrite bind_call ]);
  cbv beta iota delta [negb when].

(** ** Timers *)

Lemma StopCollectingActivity_run s :
  StopCollectingActivity s
  = Ok (tt,
        if (collect_activity_timer_id_ s =? 0)%Z then s
        else set_collect_activity_timer_id 0 s,
        kill_pending (collect_activity_timer_id_ s)).
Proof.
  unfold StopCollectingActivity, IsCollectingActivity, kill_pending.
  rewrite bind_assoc, bind_reads.
  destruct (collect_activity_timer_id_ s =? 0)%Z eqn:Hid; rewrite bind_ret_l; simpl.
  - reflexivity.
  - rewrite bind_reads. reflexivity.
Qed.

Lemma StartCollectingActivity_run E start_timer_in s :
  StartCollectingActivity E start_timer_in s
  = Ok (tt, set_collect_activity_timer_id (SetTimer E start_timer_in) s,
        kill_pending (collect_activity_timer_id_ s) ++ [Out.SetTimer start_timer_in]).
Proof.
  unfold StartCollectingActivity. unfold bind at 1.
  rewrite StopCollectingActivity_run.
  destruct (collect_activity_timer_id_ s =? 0)%Z;
    unfold bind, call, modify, reads, ret; simpl;
    destruct (SetTimer E start_timer_in =? 0)%Z; reflexivity.
Qed.

Lemma StopSustainingAdInteraction_run s :
  StopSustainingAdInteraction s
  = Ok (tt,
        if (sustained_ad_interaction_timer_id_ s =? 0)%Z then s
        else set_sustained_ad_interaction_timer_id 0 s,
        kill_pending (sustained_ad_interaction_timer_id_ s)).
Proof.
  unfold StopSustainingAdInteraction, IsSustainingAdInteraction, kill_pending.
  rewrite bind_assoc, bind_reads.
  destruct (sustained_ad_interaction_timer_id_ s =? 0)%Z eqn:Hid; rewrite bind_ret_l; simpl.
  - reflexivity.
  - rewrite bind_reads. reflexivity.
Qed.

Lemma StartSustainingAdInteraction_run E start_timer_in s :
  StartSustainingAdInteraction E start_timer_in s
  = Ok (tt, set_sustained_ad_interaction_timer_id (SetTimer E start_timer_in) s,
        kill_pending (sustained_ad_interaction_timer_id_ s)
        ++ [Out.SetTimer start_timer_in]).
Proof.
  unfold StartSustainingAdInteraction. unfold bind at 1.
  rewrite StopSustainingAdInteraction_run.
  destruct (sustained_ad_interaction_timer_id_ s =? 0)%Z;
    unfold bind, call, modify, reads, ret; simpl;
    destruct (SetTimer E start_timer_in =? 0)%Z; reflexivity.
Qed.

(** X1: starting the collection timer never leaves two timers pending: a
    pending timer is cancelled, once, before the new one is requested, and
    the handle the host returns is the one stored (0 when the host refuses
    the timer, which reads as no timer).  Stopping cancels the pending
    timer and clears the handle, so that stopping again cancels nothing.
    The sustain timer follows the same discipline. *)
Theorem timer_discipline E start_timer_in s :
  (∃ s',
     StartCollectingActivity E start_timer_in s
     = Ok (tt, s',
           (if (collect_activity_timer_id_ s =? 0)%Z then []
            else [Out.KillTimer (collect_activity_timer_id_ s)])
           ++ [Out.SetTimer start_timer_in]) ∧
     collect_activity_timer_id_ s' = SetTimer E start_timer_in ∧
     sustained_ad_interaction_timer_id_ s' = sustained_ad_interaction_timer_id_ s) ∧
  (∃ s',
     StopCollectingActivity s
     = Ok (tt, s',
           if (collect_activity_timer_id_ s =? 0)%Z then []
           else [Out.KillTimer (collect_activity_timer_id_ s)]) ∧
     collect_activity_timer_id_ s' = 0%Z ∧
     StopCollectingActivity s' = Ok (tt, s', [])) ∧
  (∃ s',
     StartSustainingAdInteraction E start_timer_in s
     = Ok (tt, s',
           (if (sustained_ad_interaction_timer_id_ s =? 0)%Z then []
            else [Out.KillTimer (sustained_ad_interaction_timer_id_ s)])
           ++ [Out.SetTimer start_timer_in]) ∧
     sustained_ad_interaction_timer_id_ s' = SetTimer E start_timer_in ∧
     collect_activity_timer_id_ s' = collect_activity_timer_id_ s) ∧
  (∃ s',
     StopSustainingAdInteraction s
     = Ok (tt, s',
           if (sustained_ad_interaction_timer_id_ s =? 0)%Z then []
           else [Out.KillTimer (sustained_ad_interaction_timer_id_ s)]) ∧
     sustained_ad_interaction_timer_id_ s' = 0%Z ∧
     StopSustainingAdInteraction s' = Ok (tt, s', [])).
Proof.
  split; [| split; [| split]].
  - eexists. split; [apply StartCollectingActivity_run |]. split; reflexivity.
  - eexists. split; [apply StopCollectingActivity_run |].
    destruct (collect_activity_timer_id_ s =? 0)%Z eqn:Hid.
    + apply Z.eqb_eq in Hid. split; [exact Hid |].
      rewrite StopCollectingActivity_run. unfold kill_pending. rewrite Hid. reflexivity.
    + split; [reflexivity |]. rewrite StopCollectingActivity_run. reflexivity.
  - eexists. split; [apply StartSustainingAdInteraction_run |]. split; reflexivity.
  - eexists. split; [apply StopSustainingAdInteraction_run |].
    destruct (sustained_ad_interaction_timer_id_ s =? 0)%Z eqn:Hid.
    + apply Z.eqb_eq in Hid. split; [exact Hid |].
      rewrite StopSustainingAdInteraction_run. unfold kill_pending. rewrite Hid. reflexivity.
    + split; [reflexivity |]. rewrite StopSustainingAdInteraction_run. reflexivity.
Qed.

Lemma ConfirmAdUUIDIfAdEnabled_run E s :
  ConfirmAdUUIDIfAdEnabled E s
  = if IsAdsEnabled E then
      let delay := if _is_debug E then kDebugOneHourInSeconds E else kOneHourInSeconds in
      Ok (tt,
          set_collect_activity_timer_id (SetTimer E delay)
            (set_client (Client.UpdateAdUUID (GenerateUUID E) (client_ s)) s),
          kill_pending (collect_activity_timer_id_ s) ++ [Out.SetTimer delay])
    else
      Ok (tt,
          if (collect_activity_timer_id_ s =? 0)%Z then s
          else set_collect_activity_timer_id 0 s,
          kill_pending (collect_activity_timer_id_ s)).
Proof.
  unfold ConfirmAdUUIDIfAdEnabled.
  destruct (IsAdsEnabled E); simpl; [| apply StopCollectingActivity_run].
  rewrite bind_client.
  destruct (_is_debug E); rewrite StartCollectingActivity_run; reflexivity.
Qed.

(** X2: after [ConfirmAdUUIDIfAdEnabled] the collection timer is pending
    exactly when the ads are enabled and the host grants the timer: with
    ads disabled the stored handle is 0; with ads enabled it is the handle
    of a new timer of one hour ([kDebugOneHourInSeconds] in a debug build).
    In both cases the timer that was pending is cancelled first, and the
    sustain timer is not touched. *)
Theorem ConfirmAdUUIDIfAdEnabled_timer E s :
  let delay := if _is_debug E then kDebugOneHourInSeconds E else kOneHourInSeconds in
  ∃ s',
    ConfirmAdUUIDIfAdEnabled E s
    = Ok (tt, s',
          kill_pending (collect_activity_timer_id_ s)
          ++ (if IsAdsEnabled E then [Out.SetTimer delay] else [])) ∧
    collect_activity_timer_id_ s' = (if IsAdsEnabled E then SetTimer E delay else 0%Z) ∧
    sustained_ad_interaction_timer_id_ s' = sustained_ad_interaction_timer_id_ s ∧
    guard_fields s' = guard_fields s.
Proof.
  intros delay. rewrite ConfirmAdUUIDIfAdEnabled_run. fold delay.
  destruct (IsAdsEnabled E).
  - eexists. split; [reflexivity |]. repeat split; reflexivity.
  - eexists. rewrite app_nil_r. split; [reflexivity |].
    destruct (collect_activity_timer_id_ s =? 0)%Z eqn:Hid;
      [apply Z.eqb_eq in Hid |]; repeat split; try reflexivity. exact Hid.
Qed.

(** ** Sustaining an ad interaction *)

Lemma SustainAdInteraction_run E s :
  SustainAdInteraction E s
  = if String.eqb (NotificationInfo.url (last_shown_notification_info_ s))
         (last_shown_tab_url_ s)
    then Ok (tt,
             set_sustained_ad_interaction_timer_id
               (SetTimer E (kSustainAdInteractionAfterSeconds E)) s,
             Out.EventLog (Report.sustain (NotificationInfo.uuid (last_shown_notification_info_ s)))
             :: kill_pending (sustained_ad_interaction_timer_id_ s)
             ++ [Out.SetTimer (kSustainAdInteractionAfterSeconds E)])
    else Ok (tt, s, []).
Proof.
  unfold SustainAdInteraction, IsStillViewingAd.
  rewrite bind_assoc, bind_reads, bind_assoc, bind_reads.
  destruct (String.eqb _ _); cbv beta iota delta [negb]; rewrite bind_ret_l;
    cbv beta iota delta [negb]; [| reflexivity].
  rewrite bind_reads. unfold GenerateAdReportingSustainEvent. rewrite bind_call.
  rewrite StartSustainingAdInteraction_run. reflexivity.
Qed.

(** X3: when the sustain timer fires, the interaction is sustained only
    while the tab shown last is the page of the notification shown last:
    then the [sustain] report is sent and the timer is started again, for
    [kSustainAdInteractionAfterSeconds]; otherwise nothing is reported and
    no timer is started.  A tick whose handle is neither of the two stored
    handles does nothing. *)
Theorem OnTimer_sustains_while_viewing E timer_id s :
  timer_id ≠ collect_activity_timer_id_ s ->
  (timer_id ≠ sustained_ad_interaction_timer_id_ s -> OnTimer E timer_id s = Ok (tt, s, [])) ∧
  (timer_id = sustained_ad_interaction_timer_id_ s ->
     (NotificationInfo.url (last_shown_notification_info_ s) ≠ last_shown_tab_url_ s ->
        OnTimer E timer_id s = Ok (tt, s, [])) ∧
     (NotificationInfo.url (last_shown_notification_info_ s) = last_shown_tab_url_ s ->
        ∃ s',
          OnTimer E timer_id s
          = Ok (tt, s',
                Out.EventLog
                  (Report.sustain (NotificationInfo.uuid (last_shown_notification_info_ s)))
                :: kill_pending timer_id
                ++ [Out.SetTimer (kSustainAdInteractionAfterSeconds E)]) ∧
          sustained_ad_interaction_timer_id_ s'
          = SetTimer E (kSustainAdInteractionAfterSeconds E))).
Proof.
  intros Hcollect.
  assert (Hrun : OnTimer E timer_id s
                 = if (timer_id =? sustained_ad_interaction_timer_id_ s)%Z
                   then SustainAdInteraction E s else Ok (tt, s, [])).
  { unfold OnTimer. rewrite !bind_reads.
    destruct (Z.eqb_spec timer_id (collect_activity_timer_id_ s)); [contradiction |].
    destruct (timer_id =? sustained_ad_interaction_timer_id_ s)%Z; reflexivity. }
  rewrite Hrun. split.
  - intros Hne. apply Z.eqb_neq in Hne. rewrite Hne. reflexivity.
  - intros ->. rewrite Z.eqb_refl, SustainAdInteraction_run. split.
    + intros Hne. apply String.eqb_neq in Hne. rewrite Hne. reflexivity.
    + intros Heq. apply String.eqb_eq in Heq. rewrite Heq. eexists. split; reflexivity.
Qed.

Lemma OnTimer_sustains_while_viewing_witness :
  let E := Sample.host ["en"] 4 20 100000 Sample.parse_https 0 in
  let s := Sample.running [] [] ∅ in
  9%Z ≠ collect_activity_timer_id_ s ∧
  9%Z ≠ sustained_ad_interaction_timer_id_ s ∧
  OnTimer E 9 s = Ok (tt, s, []).
Proof.
  intros E s.
  assert (Hcollect : 9%Z ≠ collect_activity_timer_id_ s) by (vm_compute; discriminate).
  assert (Hsustain : 9%Z ≠ sustained_ad_interaction_timer_id_ s) by (vm_compute; discriminate).
  split; [exact Hcollect |]. split; [exact Hsustain |].
  exact (proj1 (OnTimer_sustains_while_viewing E 9 s Hcollect) Hsustain).
Defined.

(** ** Reports of notifications *)

Lemma GenerateAdReportingNotificationShownEvent_run info s :
  GenerateAdReportingNotificationShownEvent info s
  = Ok (tt,
        if is_first_run_ s then set_is_first_run false s else s,
        (if is_first_run_ s
         then [Out.EventLog (Report.restart (Client.GetCurrentPlace (client_ s)))]
         else [])
        ++ [Out.EventLog
              (Report.notify Report.generated (Split (NotificationInfo.category info) "-")
                 (notification_catalog info) (NotificationInfo.url info))]).
Proof.
  unfold GenerateAdReportingNotificationShownEvent. rewrite bind_reads.
  destruct (is_first_run_ s); reflexivity.
Qed.

(** X4: the first report of a notification in a session is preceded by
    exactly one [restart] report, and no later one is: a report of a shown
    notification sends [restart] first exactly when [is_first_run_] is set,
    clears the flag, and changes nothing else of the object; from the state
    it leaves, the next report is sent alone. *)
Theorem restart_is_reported_once info info' s :
  ∃ s1 s2,
    GenerateAdReportingNotificationShownEvent info s
    = Ok (tt, s1,
          (if is_first_run_ s
           then [Out.EventLog (Report.restart (Client.GetCurrentPlace (client_ s)))]
           else [])
          ++ [Out.EventLog
                (Report.notify Report.generated (Split (NotificationInfo.category info) "-")
                   (notification_catalog info) (NotificationInfo.url info))]) ∧
    is_first_run_ s1 = false ∧
    s1 = set_is_first_run false s ∧
    GenerateAdReportingNotificationShownEvent info' s1
    = Ok (tt, s2,
          [Out.EventLog
             (Report.notify Report.generated (Split (NotificationInfo.category info') "-")
                (notification_catalog info') (NotificationInfo.url info'))]) ∧
    s2 = s1.
Proof.
  exists (set_is_first_run false s), (set_is_first_run false s).
  rewrite !GenerateAdReportingNotificationShownEvent_run.
  destruct s as [first ? ? ? ? ? ? ? ? ? ? ? ?]. destruct first; simpl; repeat split; reflexivity.
Qed.

(** X5: a result report marks the ad as seen when the notification was
    clicked or dismissed, and leaves the seen set as it is on a timeout:
    after [CLICKED] or [DISMISSED] no ad with the uuid of the notification
    is among the unseen ads of any candidate list.  Only [CLICKED] starts
    the sustain timer; the other results leave the timer as it is.  The
    report itself is the last call of the invocation. *)
Theorem GenerateAdReportingNotificationResultEvent_marks_seen E info type s :
  ∃ s' out,
    GenerateAdReportingNotificationResultEvent E info type s = Ok (tt, s', out) ∧
    Client.GetAdsUUIDSeen (client_ s')
    = match type with
      | TIMEOUT => Client.GetAdsUUIDSeen (client_ s)
      | _ => <[NotificationInfo.uuid info := 1%Z]> (Client.GetAdsUUIDSeen (client_ s))
      end ∧
    (type ≠ TIMEOUT ->
     ∀ ads ad, ad ∈ unseen (Client.GetAdsUUIDSeen (client_ s')) ads ->
               AdInfo.uuid ad ≠ NotificationInfo.uuid info) ∧
    sustained_ad_interaction_timer_id_ s'
    = match type with
      | CLICKED => SetTimer E (kSustainAdInteractionAfterSeconds E)
      | _ => sustained_ad_interaction_timer_id_ s
      end ∧
    is_first_run_ s' = false ∧
    last out
    = Some (Out.EventLog
              (Report.notify
                 match type with
                 | CLICKED => Report.clicked
                 | DISMISSED => Report.dismissed
                 | TIMEOUT => Report.timeout
                 end
                 (Split (NotificationInfo.category info) "-")
                 (notification_catalog info) (NotificationInfo.url info))).
Proof.
  assert (Hseen : ∀ (seen : gmap string Z) ads ad,
            ad ∈ unseen (<[NotificationInfo.uuid info := 1%Z]> seen) ads ->
            AdInfo.uuid ad ≠ NotificationInfo.uuid info).
  { intros seen ads ad Hin Heq. apply elem_of_unseen in Hin as [_ Hout].
    apply Hout. rewrite Heq. apply elem_of_dom. rewrite lookup_insert_eq. eauto. }
  unfold GenerateAdReportingNotificationResultEvent, GenerateAdReportingRestartEvent.
  rewrite bind_reads.
  destruct type, (is_first_run_ s) eqn:Hfirst; run_basic;
    try rewrite (bind_Ok _ _ _ _ _ _ (StartSustainingAdInteraction_run _ _ _));
    run_basic; unfold call; simpl;
    eexists _, _; (split; [reflexivity |]); simpl;
    repeat split; try reflexivity; try exact Hfirst;
    try (intros _; apply Hseen); try congruence;
    try (rewrite ?app_comm_cons; apply last_snoc).
Qed.

Lemma GenerateAdReportingNotificationResultEvent_marks_seen_witness :
  let E := Sample.host ["en"] 4 20 100000 Sample.parse_https 0 in
  let s := Sample.running [] [] ∅ in
  let info :=
    {| NotificationInfo.advertiser := "Brave";
       NotificationInfo.category := "sports";
       NotificationInfo.text := "Try the browser";
       NotificationInfo.url := "https://brave.com/";
       NotificationInfo.creative_set_id := "set-1";
       NotificationInfo.uuid := "a1" |} in
  DISMISSED ≠ TIMEOUT ∧
  ∃ s' out,
    GenerateAdReportingNotificationResultEvent E info DISMISSED s = Ok (tt, s', out) ∧
    ∀ ads ad, ad ∈ unseen (Client.GetAdsUUIDSeen (client_ s')) ads ->
              AdInfo.uuid ad ≠ NotificationInfo.uuid info.
Proof.
  intros E s info.
  assert (Htype : DISMISSED ≠ TIMEOUT) by discriminate.
  split; [exact Htype |].
  destruct (GenerateAdReportingNotificationResultEvent_marks_seen E info DISMISSED s)
    as (s' & out & Hrun & _ & Hunseen & _).
  exists s', out. split; [exact Hrun | exact (Hunseen Htype)].
Defined.

(** ** Operations behind the initialisation guard *)

(** X6: while [IsInitialized] returns false (the engine is not initialised,
    or the ads are disabled, or the user model is not initialised), the
    operations that begin with the guard return at once: they leave the
    object as it is and call nothing. *)
Theorem guarded_operations_do_nothing E s :
  IsInitialized E s = Ok (false, s, []) ->
  (∀ url html, ClassifyPage E url html s = Ok (tt, s, [])) ∧
  (∀ locale, ChangeLocale E locale s = Ok (tt, s, [])) ∧
  (∀ forced, CheckReadyAdServe E forced s = Ok (tt, s, [])) ∧
  ServeSampleAd E s = Ok (tt, s, []) ∧
  CollectActivity E s = Ok (tt, s, []) ∧
  (∀ url, TestShoppingData E url s = Ok (tt, s, [])) ∧
  (∀ url, TestSearchState E url s = Ok (tt, s, [])) ∧
  Deinitialize E s = Ok (tt, s, []).
Proof.
  intros Hinit.
  repeat split; intros;
    unfold ClassifyPage, ChangeLocale, CheckReadyAdServe, ServeSampleAd, CollectActivity,
      TestShoppingData, TestSearchState, Deinitialize;
    rewrite (bind_pure _ _ _ _ Hinit); reflexivity.
Qed.

Lemma guarded_operations_do_nothing_witness :
  let E := Sample.host ["en"] 4 20 100000 Sample.parse_https 0 in
  IsInitialized E AdsImpl_new = Ok (false, AdsImpl_new, []) ∧
  ServeSampleAd E AdsImpl_new = Ok (tt, AdsImpl_new, []).
Proof.
  intros E.
  assert (Hinit : IsInitialized E AdsImpl_new = Ok (false, AdsImpl_new, []))
    by (vm_compute; reflexivity).
  split; [exact Hinit |].
  apply (guarded_operations_do_nothing E AdsImpl_new Hinit).
Defined.

(** X7: [Initialize] never changes the object.  It asks the client to load
    its state exactly when the engine is not initialised and the ads are
    enabled.  On an initialised engine it does nothing; with the ads
    disabled it does nothing either: the [Deinitialize] it calls begins
    with [IsInitialized], which is false as long as the ads are disabled. *)
Theorem Initialize_requests_the_client_state E s initialized :
  IsInitialized E s = Ok (initialized, s, []) ->
  Initialize E s
  = Ok (tt, s, if negb initialized && IsAdsEnabled E then [Out.LoadState] else []).
Proof.
  intros Hinit. unfold Initialize. rewrite (bind_pure _ _ _ _ Hinit).
  destruct initialized; [reflexivity |]. simpl.
  destruct (IsAdsEnabled E) eqn:Henabled; simpl.
  - rewrite (bind_pure _ _ _ _ Hinit). reflexivity.
  - unfold Deinitialize. rewrite (bind_pure _ _ _ _ Hinit). reflexivity.
Qed.

Lemma Initialize_requests_the_client_state_witness :
  let E := Sample.host ["en"] 4 20 100000 Sample.parse_https 0 in
  IsInitialized E AdsImpl_new = Ok (false, AdsImpl_new, []) ∧
  Initialize E AdsImpl_new = Ok (tt, AdsImpl_new, [Out.LoadState]).
Proof.
  intros E.
  assert (Hinit : IsInitialized E AdsImpl_new = Ok (false, AdsImpl_new, []))
    by (vm_compute; reflexivity).
  split; [exact Hinit |].
  exact (Initialize_requests_the_client_state E AdsImpl_new false Hinit).
Defined.

(** ** Loading the user model *)

Lemma ConfirmAdUUIDIfAdEnabled_enabled E s :
  IsAdsEnabled E = true ->
  ConfirmAdUUIDIfAdEnabled E s
  = Ok (tt,
        set_collect_activity_timer_id
          (SetTimer E (if _is_debug E then kDebugOneHourInSeconds E else kOneHourInSeconds))
          (set_client (Client.UpdateAdUUID (GenerateUUID E) (client_ s)) s),
        kill_pending (collect_activity_timer_id_ s)
        ++ [Out.SetTimer (if _is_debug E then kDebugOneHourInSeconds E
                          else kOneHourInSeconds)]).
Proof. intros Henabled. rewrite ConfirmAdUUIDIfAdEnabled_run, Henabled. reflexivity. Qed.

Lemma ConfirmAdUUIDIfAdEnabled_disabled E s :
  IsAdsEnabled E = false ->
  ConfirmAdUUIDIfAdEnabled E s
  = Ok (tt,
        if (collect_activity_timer_id_ s =? 0)%Z then s
        else set_collect_activity_timer_id 0 s,
        kill_pending (collect_activity_timer_id_ s)).
Proof. intros Hdisabled. rewrite ConfirmAdUUIDIfAdEnabled_run, Hdisabled. reflexivity. Qed.

Lemma NotificationAllowedCheck_false_run E s :
  NotificationAllowedCheck E false s
  = Ok (tt,
        if Bool.eqb (IsNotificationsAvailable E) (Client.GetAvailable (client_ s)) then s
        else set_client (Client.SetAvailable (IsNotificationsAvailable E) (client_ s)) s,
        [Out.EventLog
           (Report.settings (IsNotificationsAvailable E) (Client.GetCurrentPlace (client_ s))
              (Client.GetLocale (client_ s)) (GetAdsPerDay E) (GetAdsPerHour E))]).
Proof.
  unfold NotificationAllowedCheck, GenerateAdReportingSettingsEvent. rewrite bind_reads.
  destruct (Bool.eqb _ _); run_basic; reflexivity.
Qed.

(** What [InitializeStep3] does, whatever the state it starts from. *)
Lemma InitializeStep3_facts E s :
  ∃ s',
    InitializeStep3 E s
    = Ok (tt, s',
          [Out.SetIdleThreshold (kIdleThresholdInSeconds E);
           Out.EventLog
             (Report.settings (IsNotificationsAvailable E)
                (Client.GetCurrentPlace (client_ s)) (Client.GetLocale (client_ s))
                (GetAdsPerDay E) (GetAdsPerHour E))]
          ++ kill_pending (collect_activity_timer_id_ s)
          ++ (if IsAdsEnabled E
              then [Out.SetTimer (if _is_debug E then kDebugOneHourInSeconds E
                                  else kOneHourInSeconds)]
              else [])
          ++ [Out.DownloadCatalog]) ∧
    is_initialized_ s' = true ∧
    user_model_ s' = user_model_ s ∧
    Client.GetAvailable (client_ s') = IsNotificationsAvailable E ∧
    collect_activity_timer_id_ s'
    = (if IsAdsEnabled E
       then SetTimer E (if _is_debug E then kDebugOneHourInSeconds E else kOneHourInSeconds)
       else 0%Z).
Proof.
  unfold InitializeStep3, RetrieveSSID. run_basic.
  rewrite (bind_Ok _ _ _ _ _ _ (NotificationAllowedCheck_false_run E _)).
  run_basic.
  destruct (IsAdsEnabled E) eqn:Henabled.
  - rewrite (bind_Ok _ _ _ _ _ _ (ConfirmAdUUIDIfAdEnabled_enabled E _ Henabled)).
    unfold call. simpl client_. simpl Client.GetAvailable.
    destruct (Bool.eqb _ _) eqn:Heq; simpl;
      (eexists; split; [rewrite <- ?app_assoc; reflexivity |]); simpl;
      repeat split; try reflexivity.
    apply Bool.eqb_prop in Heq. symmetry. exact Heq.
  - rewrite (bind_Ok _ _ _ _ _ _ (ConfirmAdUUIDIfAdEnabled_disabled E _ Henabled)).
    unfold call. simpl client_. simpl Client.GetAvailable.
    destruct (Bool.eqb _ _) eqn:Heq; simpl;
      destruct (collect_activity_timer_id_ s =? 0)%Z eqn:Hid; simpl;
      (eexists; split; [rewrite <- ?app_assoc; reflexivity |]); simpl;
      repeat split; try reflexivity;
      try (apply Z.eqb_eq in Hid; exact Hid);
      try (apply Bool.eqb_prop in Heq; symmetry; exact Heq).
Qed.

Lemma IsInitialized_of_fields E s um :
  is_initialized_ s = true ->
  user_model_ s = Some um ->
  IsInitialized E s = Ok (IsAdsEnabled E && UserModel.IsInitialized um, s, []).
Proof.
  intros Hinit Hum. rewrite IsInitialized_run, Hinit, Hum. simpl.
  destruct (IsAdsEnabled E); reflexivity.
Qed.

(** X8: a user model that fails to load leaves the object as it is.  A
    user model that loads is always installed, and the engine is marked
    initialised afterwards, whatever its state was: from then on
    [IsInitialized] holds exactly when the ads are enabled and the model
    reports itself initialised.  When the engine already passed the guard
    with the new model (the reload after a change of locale), nothing else
    happens; otherwise the third step of the initialisation runs, from
    the idle threshold to the download of the catalog. *)
Theorem OnUserModelLoaded_initializes E json s :
  let um := CreateUserModel E json in
  OnUserModelLoaded E FAILED json s = Ok (tt, s, []) ∧
  ∃ s' out,
    OnUserModelLoaded E SUCCESS json s = Ok (tt, s', out) ∧
    is_initialized_ s' = true ∧
    user_model_ s' = Some um ∧
    IsInitialized E s' = Ok (IsAdsEnabled E && UserModel.IsInitialized um, s', []) ∧
    (if is_initialized_ s && IsAdsEnabled E && UserModel.IsInitialized um
     then s' = set_user_model (Some um) s ∧ out = []
     else head out = Some (Out.SetIdleThreshold (kIdleThresholdInSeconds E)) ∧
          last out = Some Out.DownloadCatalog ∧
          Client.GetAvailable (client_ s') = IsNotificationsAvailable E).
Proof.
  intros um. split; [reflexivity |].
  unfold OnUserModelLoaded, InitializeUserModel. fold um. rewrite bind_modify.
  set (s1 := set_user_model (Some um) s).
  assert (Hguard : IsInitialized E s1
                   = Ok (is_initialized_ s && IsAdsEnabled E && UserModel.IsInitialized um,
                         s1, [])).
  { rewrite IsInitialized_run. subst s1. simpl.
    destruct (is_initialized_ s), (IsAdsEnabled E); reflexivity. }
  rewrite (bind_pure _ _ _ _ Hguard).
  destruct (is_initialized_ s && IsAdsEnabled E && UserModel.IsInitialized um) eqn:Hb;
    cbv beta iota delta [negb].
  - exists s1, []. apply andb_true_iff in Hb as [Hb Hmodel].
    apply andb_true_iff in Hb as [Hinit Henabled].
    split; [reflexivity |]. split; [exact Hinit |]. split; [reflexivity |].
    split; [| split; reflexivity].
    rewrite (IsInitialized_of_fields E s1 um Hinit eq_refl). reflexivity.
  - destruct (InitializeStep3_facts E s1) as (s' & Hrun & Hinit & Hum & Havailable & _).
    eexists s', _. split; [exact Hrun |]. split; [exact Hinit |].
    split; [exact Hum |]. split; [exact (IsInitialized_of_fields E s' um Hinit Hum) |].
    split; [reflexivity |]. split; [| exact Havailable].
    rewrite !app_assoc. apply last_snoc.
Qed.

(** ** Deinitialisation *)

(** X9: what [Deinitialize] does on an engine that passes the guard.  The
    sustain timer is cancelled; the user model, the notification shown
    last, the classification and the cache of page scores are dropped;
    the engine is marked as not initialised, in the background and on its
    first run.  The guard can hold only with the ads enabled, so the
    [RemoveAllHistory] in the middle starts the collection timer again:
    a collection timer is requested and its handle stored.  Afterwards
    the guard is false and a second [Deinitialize] does nothing. *)
Theorem Deinitialize_resets E s :
  IsInitialized E s = Ok (true, s, []) ->
  let delay := if _is_debug E then kDebugOneHourInSeconds E else kOneHourInSeconds in
  ∃ s',
    Deinitialize E s
    = Ok (tt, s',
          [Out.ResetAdsServe]
          ++ kill_pending (sustained_ad_interaction_timer_id_ s)
          ++ kill_pending (collect_activity_timer_id_ s)
          ++ [Out.SetTimer delay; Out.ResetBundle]) ∧
    (is_initialized_ s' = false ∧ user_model_ s' = None ∧ is_first_run_ s' = true ∧
     is_foreground_ s' = false) ∧
    (last_shown_notification_info_ s' = NotificationInfo.default ∧
     last_page_classification_ s' = "" ∧ page_score_cache_ s' = ∅) ∧
    (sustained_ad_interaction_timer_id_ s' = 0%Z ∧
     collect_activity_timer_id_ s' = SetTimer E delay) ∧
    (media_playing_ s' = media_playing_ s ∧
     last_shown_tab_url_ s' = last_shown_tab_url_ s) ∧
    IsInitialized E s' = Ok (false, s', []) ∧
    Deinitialize E s' = Ok (tt, s', []).
Proof.
  intros Hinit delay.
  pose proof (proj1 (IsInitialized_true E s) Hinit) as (_ & Henabled & _).
  assert (Hrun : ∃ s',
            Deinitialize E s
            = Ok (tt, s',
                  [Out.ResetAdsServe]
                  ++ kill_pending (sustained_ad_interaction_timer_id_ s)
                  ++ kill_pending (collect_activity_timer_id_ s)
                  ++ [Out.SetTimer delay; Out.ResetBundle]) ∧
            (is_initialized_ s' = false ∧ user_model_ s' = None ∧ is_first_run_ s' = true ∧
             is_foreground_ s' = false) ∧
            (last_shown_notification_info_ s' = NotificationInfo.default ∧
             last_page_classification_ s' = "" ∧ page_score_cache_ s' = ∅) ∧
            (sustained_ad_interaction_timer_id_ s' = 0%Z ∧
             collect_activity_timer_id_ s' = SetTimer E delay) ∧
            (media_playing_ s' = media_playing_ s ∧
             last_shown_tab_url_ s' = last_shown_tab_url_ s)).
  { unfold Deinitialize, RemoveAllHistory. rewrite (bind_pure _ _ _ _ Hinit).
    run_basic.
    rewrite (bind_Ok _ _ _ _ _ _ (StopSustainingAdInteraction_run _)).
    run_basic.
    rewrite (bind_Ok _ _ _ _ _ _ (ConfirmAdUUIDIfAdEnabled_enabled E _ Henabled)).
    run_basic. unfold modify. fold delay.
    destruct (sustained_ad_interaction_timer_id_ s =? 0)%Z eqn:Hid; simpl;
      (eexists; split; [rewrite <- ?app_assoc; reflexivity |]); simpl;
      repeat split; try reflexivity; apply Z.eqb_eq in Hid; exact Hid. }
  destruct Hrun as (s' & Hrun & Hflags & Hdropped & Htimers & Hkept).
  exists s'. repeat (split; [assumption |]).
  assert (Hafter : IsInitialized E s' = Ok (false, s', [])).
  { rewrite IsInitialized_run. destruct Hflags as (-> & _). reflexivity. }
  split; [exact Hafter |].
  unfold Deinitialize. rewrite (bind_pure _ _ _ _ Hafter). reflexivity.
Qed.

Lemma Deinitialize_resets_witness :
  let E := Sample.host ["en"] 4 20 100000 Sample.parse_https 0 in
  let s := Sample.running [96000]%Z [[0.125; 0.75; 0.25]%float] ∅ in
  IsInitialized E s = Ok (true, s, []) ∧
  ∃ s',
    Deinitialize E s
    = Ok (tt, s', [Out.ResetAdsServe; Out.KillTimer 7; Out.SetTimer 3600; Out.ResetBundle]) ∧
    collect_activity_timer_id_ s' = 7%Z ∧
    IsInitialized E s' = Ok (false, s', []).
Proof.
  intros E s.
  assert (Hinit : IsInitialized E s = Ok (true, s, [])) by (vm_compute; reflexivity).
  split; [exact Hinit |].
  destruct (Deinitialize_resets E s Hinit)
    as (s' & Hrun & _ & _ & (_ & Hcollect) & _ & Hafter & _).
  exists s'. split; [exact Hrun |]. split; [exact Hcollect | exact Hafter].
Defined.

(** ** Tabs that play media *)

Lemma OnMediaPlaying_run tab_id s :
  OnMediaPlaying tab_id s
  = Ok (tt,
        match media_playing_ s !! tab_id with
        | Some _ => s
        | None => set_media_playing (<[tab_id := true]> (media_playing_ s)) s
        end, []).
Proof.
  unfold OnMediaPlaying. rewrite bind_reads.
  destruct (media_playing_ s !! tab_id); reflexivity.
Qed.

Lemma OnMediaStopped_run tab_id s :
  OnMediaStopped tab_id s
  = Ok (tt,
        match media_playing_ s !! tab_id with
        | None => s
        | Some _ => set_media_playing (delete tab_id (media_playing_ s)) s
        end, []).
Proof.
  unfold OnMediaStopped. rewrite bind_reads.
  destruct (media_playing_ s !! tab_id); reflexivity.
Qed.

Lemma IsMediaPlaying_run s :
  IsMediaPlaying s = Ok (negb (bool_decide (media_playing_ s = ∅)), s, []).
Proof.
  unfold IsMediaPlaying. rewrite bind_reads.
  destruct (bool_decide (media_playing_ s = ∅)); reflexivity.
Qed.

(** X10: [media_playing_] holds exactly the tabs whose media started and
    did not stop.  [OnMediaPlaying] adds the tab and is without effect on
    a tab that is already playing; [OnMediaStopped] and [TabClosed] remove
    it and are without effect on a tab that is not playing; playing then
    stopping a tab that was not playing gives back the map.
    [IsMediaPlaying] holds exactly when some tab is left. *)
Theorem media_playing_tracks_the_tabs tab_id s :
  (∃ s1,
     OnMediaPlaying tab_id s = Ok (tt, s1, []) ∧
     dom (media_playing_ s1) = {[tab_id]} ∪ dom (media_playing_ s) ∧
     IsMediaPlaying s1 = Ok (true, s1, []) ∧
     OnMediaPlaying tab_id s1 = Ok (tt, s1, [])) ∧
  (∃ s2,
     OnMediaStopped tab_id s = Ok (tt, s2, []) ∧
     dom (media_playing_ s2) = dom (media_playing_ s) ∖ {[tab_id]} ∧
     OnMediaStopped tab_id s2 = Ok (tt, s2, [])) ∧
  (∃ s3,
     TabClosed tab_id s = Ok (tt, s3, [Out.EventLog (Report.destroy tab_id)]) ∧
     dom (media_playing_ s3) = dom (media_playing_ s) ∖ {[tab_id]}) ∧
  (tab_id ∉ dom (media_playing_ s) ->
   ∃ s1 s2,
     OnMediaPlaying tab_id s = Ok (tt, s1, []) ∧
     OnMediaStopped tab_id s1 = Ok (tt, s2, []) ∧
     media_playing_ s2 = media_playing_ s) ∧
  IsMediaPlaying s = Ok (bool_decide (dom (media_playing_ s) ≠ ∅), s, []).
Proof.
  assert (Hstop : ∃ s2,
            OnMediaStopped tab_id s = Ok (tt, s2, []) ∧
            dom (media_playing_ s2) = dom (media_playing_ s) ∖ {[tab_id]} ∧
            media_playing_ s2 !! tab_id = None).
  { rewrite OnMediaStopped_run.
    destruct (media_playing_ s !! tab_id) as [b |] eqn:Hlookup.
    - eexists. split; [reflexivity |]. simpl.
      split; [apply dom_delete_L | apply lookup_delete_eq].
    - eexists. split; [reflexivity |]. split; [| exact Hlookup].
      apply not_elem_of_dom in Hlookup. apply set_eq. intros x.
      rewrite elem_of_difference, elem_of_singleton.
      split; [| intros [Hx _]; exact Hx].
      intros Hx. split; [exact Hx | intros ->; contradiction]. }
  split; [| split; [| split; [| split]]].
  - rewrite OnMediaPlaying_run.
    destruct (media_playing_ s !! tab_id) as [b |] eqn:Hlookup.
    + exists s. split; [reflexivity |].
      assert (Hin : tab_id ∈ dom (media_playing_ s)) by (apply elem_of_dom; eauto).
      split; [| split].
      * apply set_eq. intros x. rewrite elem_of_union, elem_of_singleton.
        split; [auto | intros [-> | Hx]; assumption].
      * rewrite IsMediaPlaying_run, bool_decide_eq_false_2; [reflexivity |].
        intros Hempty. rewrite Hempty, lookup_empty in Hlookup. discriminate.
      * rewrite OnMediaPlaying_run, Hlookup. reflexivity.
    + eexists. split; [reflexivity |]. simpl. split; [apply dom_insert_L |]. split.
      * rewrite IsMediaPlaying_run. simpl.
        rewrite bool_decide_eq_false_2 by apply insert_non_empty. reflexivity.
      * rewrite OnMediaPlaying_run. simpl. rewrite lookup_insert_eq. reflexivity.
  - destruct Hstop as (s2 & Hrun & Hdom & Hgone). exists s2.
    split; [exact Hrun |]. split; [exact Hdom |].
    rewrite OnMediaStopped_run, Hgone. reflexivity.
  - destruct Hstop as (s2 & Hrun & Hdom & _). exists s2. split; [| exact Hdom].
    unfold TabClosed. rewrite (bind_Ok _ _ _ _ _ _ Hrun). reflexivity.
  - intros Hout. apply not_elem_of_dom in Hout.
    eexists _, _. split; [rewrite OnMediaPlaying_run, Hout; reflexivity |].
    split; [rewrite OnMediaStopped_run; simpl; rewrite lookup_insert_eq; reflexivity |].
    simpl. apply delete_insert_id. exact Hout.
  - rewrite IsMediaPlaying_run. do 3 f_equal.
    destruct (decide (media_playing_ s = ∅)) as [Hempty | Hsome].
    + rewrite bool_decide_eq_true_2 by exact Hempty.
      rewrite bool_decide_eq_false_2; [reflexivity |].
      rewrite Hempty, dom_empty_L. auto.
    + rewrite bool_decide_eq_false_2 by exact Hsome.
      rewrite bool_decide_eq_true_2; [reflexivity |].
      rewrite dom_empty_iff_L. exact Hsome.
Qed.

Lemma media_playing_tracks_the_tabs_witness :
  let s := Sample.running [] [] ∅ in
  (7%Z ∉ dom (media_playing_ s)) ∧
  ∃ s1 s2,
    OnMediaPlaying 7 s = Ok (tt, s1, []) ∧
    OnMediaStopped 7 s1 = Ok (tt, s2, []) ∧
    media_playing_ s2 = media_playing_ s.
Proof.
  intros s.
  assert (Hout : 7%Z ∉ dom (media_playing_ s))
    by (apply not_elem_of_dom; reflexivity).
  split; [exact Hout |].
  exact (proj1 (proj2 (proj2 (proj2 (media_playing_tracks_the_tabs 7 s)))) Hout).
Defined.

(** ** The decision to request an ad *)

Lemma bind_Fault {A B} (m : M A) (k : A -> M B) s f :
  m s = Fault f -> bind m k s = Fault f.
Proof. intros Hm. unfold bind. rewrite Hm. reflexivity. Qed.

Lemma IsInitialized_cases E s :
  IsInitialized E s = Fault NullDereference ∨
  ∃ initialized, IsInitialized E s = Ok (initialized, s, []).
Proof.
  rewrite IsInitialized_run.
  destruct (is_initialized_ s), (IsAdsEnabled E), (user_model_ s); simpl; eauto.
Qed.

Lemma IsAllowedToShowAds_cases E s :
  IsAllowedToShowAds E s = Fault DivisionByZero ∨
  ∃ allowed, IsAllowedToShowAds E s = Ok (allowed, s, []).
Proof.
  destruct (Z.eq_dec (GetAdsPerHour E) 0%Z) as [Hzero | Hpos].
  - left. apply IsAllowedToShowAds_zero. exact Hzero.
  - right. eexists. apply IsAllowedToShowAds_run. exact Hpos.
Qed.

Lemma GetWinnerOverTimeCategory_cases s :
  GetWinnerOverTimeCategory s = Fault NullDereference ∨
  ∃ category, GetWinnerOverTimeCategory s = Ok (category, s, []).
Proof.
  unfold GetWinnerOverTimeCategory. rewrite bind_reads.
  destruct (Client.GetPageScoreHistory (client_ s)) as [| first rest]; [right; eauto |].
  destruct (sum_page_score_history _ _ _); [| right; eauto].
  unfold bind, user_model. destruct (user_model_ s); [right; eauto | left; reflexivity].
Qed.

Lemma ServeAdFromCategory_run E category s :
  ServeAdFromCategory E category s
  = Ok (tt, s,
        if Str.empty (GetCatalogId E) || Str.empty category then []
        else [Out.GetAds (GetCountryCode E (GetAdsLocale E)) category]).
Proof.
  unfold ServeAdFromCategory.
  destruct (Str.empty (GetCatalogId E)), (Str.empty category); reflexivity.
Qed.

(** The run of [CheckReadyAdServe] once the guard and the gates are known. *)
Lemma CheckReadyAdServe_run E forced s :
  IsInitialized E s = Ok (true, s, []) ->
  (forced = false ->
   is_foreground_ s = true ∧ media_playing_ s = ∅ ∧
   IsAllowedToShowAds E s = Ok (true, s, [])) ->
  CheckReadyAdServe E forced s
  = bind GetWinnerOverTimeCategory (ServeAdFromCategory E) s.
Proof.
  intros Hinit Hgates. unfold CheckReadyAdServe.
  rewrite (bind_pure _ _ _ _ Hinit). cbv beta iota delta [negb].
  destruct forced; [rewrite bind_ret_l; reflexivity |].
  destruct (Hgates eq_refl) as (Hforeground & Hmedia & Hallowed).
  cbv beta iota delta [negb]. unfold IsForeground.
  rewrite bind_assoc, bind_reads, Hforeground. cbv beta iota delta [negb].
  rewrite bind_assoc, (bind_pure _ _ _ _ (IsMediaPlaying_run s)), Hmedia.
  rewrite bool_decide_eq_true_2 by reflexivity. cbv beta iota delta [negb].
  rewrite bind_assoc, (bind_pure _ _ _ _ Hallowed). cbv beta iota delta [negb].
  rewrite bind_ret_l. reflexivity.
Qed.

(** X11: [CheckReadyAdServe] never changes the object and never shows an
    ad itself: it either calls nothing or asks the host once for the ads
    of one category.  It asks only when the guard holds, the catalog has
    an id, the category is the winner over time and is not empty, and,
    unless forced, the browser is in the foreground, no tab plays media
    and the history allows an ad; the region of the request is the country
    code of the ads locale.  When all of this holds, it asks. *)
Theorem CheckReadyAdServe_requests_behind_its_gates E forced s :
  (∀ s' out,
     CheckReadyAdServe E forced s = Ok (tt, s', out) ->
     s' = s ∧
     (out = [] ∨
      ∃ category,
        out = [Out.GetAds (GetCountryCode E (GetAdsLocale E)) category] ∧
        category ≠ "" ∧ GetCatalogId E ≠ "" ∧
        GetWinnerOverTimeCategory s = Ok (category, s, []) ∧
        IsInitialized E s = Ok (true, s, []) ∧
        (forced = false ->
         is_foreground_ s = true ∧ media_playing_ s = ∅ ∧
         IsAllowedToShowAds E s = Ok (true, s, [])))) ∧
  (∀ category,
     IsInitialized E s = Ok (true, s, []) ->
     (forced = false ->
      is_foreground_ s = true ∧ media_playing_ s = ∅ ∧
      IsAllowedToShowAds E s = Ok (true, s, [])) ->
     GetWinnerOverTimeCategory s = Ok (category, s, []) ->
     category ≠ "" -> GetCatalogId E ≠ "" ->
     CheckReadyAdServe E forced s
     = Ok (tt, s, [Out.GetAds (GetCountryCode E (GetAdsLocale E)) category])).
Proof.
  assert (Hserve : ∀ category,
            GetWinnerOverTimeCategory s = Ok (category, s, []) ->
            bind GetWinnerOverTimeCategory (ServeAdFromCategory E) s
            = Ok (tt, s,
                  if Str.empty (GetCatalogId E) || Str.empty category then []
                  else [Out.GetAds (GetCountryCode E (GetAdsLocale E)) category])).
  { intros category Hwinner. rewrite (bind_pure _ _ _ _ Hwinner).
    apply ServeAdFromCategory_run. }
  split.
  - intros s' out Hrun.
    destruct (IsInitialized_cases E s) as [Hfault | [initialized Hinit]].
    { unfold CheckReadyAdServe in Hrun. rewrite (bind_Fault _ _ _ _ Hfault) in Hrun.
      discriminate. }
    destruct initialized.
    2:{ unfold CheckReadyAdServe in Hrun. rewrite (bind_pure _ _ _ _ Hinit) in Hrun.
        injection Hrun as <- <-. auto. }
    assert (Hgated : (forced = false ->
                      is_foreground_ s = true ∧ media_playing_ s = ∅ ∧
                      IsAllowedToShowAds E s = Ok (true, s, []))
                     ∨ (s' = s ∧ out = [])).
    { destruct forced; [left; discriminate |].
      unfold CheckReadyAdServe in Hrun. rewrite (bind_pure _ _ _ _ Hinit) in Hrun.
      cbv beta iota delta [negb] in Hrun. unfold IsForeground in Hrun.
      rewrite bind_assoc, bind_reads in Hrun.
      destruct (is_foreground_ s) eqn:Hforeground; cbv beta iota delta [negb] in Hrun.
      2:{ rewrite !bind_ret_l in Hrun. injection Hrun as <- <-. auto. }
      rewrite bind_assoc, (bind_pure _ _ _ _ (IsMediaPlaying_run s)) in Hrun.
      destruct (decide (media_playing_ s = ∅)) as [Hmedia | Hmedia].
      2:{ rewrite bool_decide_eq_false_2 in Hrun by exact Hmedia.
          cbv beta iota delta [negb] in Hrun. rewrite !bind_ret_l in Hrun.
          injection Hrun as <- <-. auto. }
      rewrite bool_decide_eq_true_2 in Hrun by exact Hmedia.
      cbv beta iota delta [negb] in Hrun. rewrite bind_assoc in Hrun.
      destruct (IsAllowedToShowAds_cases E s) as [Hfault | [allowed Hallowed]].
      { rewrite (bind_Fault _ _ _ _ Hfault) in Hrun. discriminate. }
      rewrite (bind_pure _ _ _ _ Hallowed) in Hrun.
      destruct allowed; cbv beta iota delta [negb] in Hrun.
      - left. auto.
      - rewrite !bind_ret_l in Hrun. injection Hrun as <- <-. auto. }
    destruct Hgated as [Hgates | [-> ->]]; [| auto].
    rewrite (CheckReadyAdServe_run E forced s Hinit Hgates) in Hrun.
    destruct (GetWinnerOverTimeCategory_cases s) as [Hfault | [category Hwinner]].
    { rewrite (bind_Fault _ _ _ _ Hfault) in Hrun. discriminate. }
    rewrite (Hserve category Hwinner) in Hrun. injection Hrun as <- <-.
    split; [reflexivity |].
    destruct (Str.empty (GetCatalogId E)) eqn:Hcatalog; [left; reflexivity |].
    destruct (Str.empty category) eqn:Hcategory; [left; reflexivity |].
    right. exists category. apply empty_false_iff in Hcatalog, Hcategory. auto 10.
  - intros category Hinit Hgates Hwinner Hcategory Hcatalog.
    rewrite (CheckReadyAdServe_run E forced s Hinit Hgates), (Hserve category Hwinner).
    apply empty_false_iff in Hcatalog, Hcategory. rewrite Hcatalog, Hcategory. reflexivity.
Qed.

Lemma CheckReadyAdServe_requests_behind_its_gates_witness :
  let E := Sample.host ["en"] 4 20 100000 Sample.parse_https 0 in
  let s := Sample.running [92000]%Z [[0.125; 0.75; 0.25]%float] ∅ in
  IsInitialized E s = Ok (true, s, []) ∧
  (is_foreground_ s = true ∧ media_playing_ s = ∅ ∧
   IsAllowedToShowAds E s = Ok (true, s, [])) ∧
  GetWinnerOverTimeCategory s = Ok ("sports", s, []) ∧
  CheckReadyAdServe E false s = Ok (tt, s, [Out.GetAds "US" "sports"]).
Proof.
  intros E s.
  assert (Hinit : IsInitialized E s = Ok (true, s, [])) by (vm_compute; reflexivity).
  assert (Hgates : is_foreground_ s = true ∧ media_playing_ s = ∅ ∧
                   IsAllowedToShowAds E s = Ok (true, s, []))
    by (vm_compute; repeat split; reflexivity).
  assert (Hwinner : GetWinnerOverTimeCategory s = Ok ("sports", s, []))
    by (vm_compute; reflexivity).
  split; [exact Hinit |]. split; [exact Hgates |]. split; [exact Hwinner |].
  apply (proj2 (CheckReadyAdServe_requests_behind_its_gates E false s) "sports" Hinit
           (λ _, Hgates) Hwinner); discriminate.
Defined.

(** ** Coming back from idle *)

(** X12: [OnUnIdle] records the time and the availability of the
    notifications the host reports, and sends a [settings] report exactly
    when the availability changed.  While the notifications are not
    available it asks for no ad.  When they are available it goes on with
    [CheckReadyAdServe(false)] from the state so updated. *)
Theorem OnUnIdle_serves_when_notifications_are_available E s :
  let ok := IsNotificationsAvailable E in
  let previous := Client.GetAvailable (client_ s) in
  let idle := Client.UpdateLastUserIdleStopTime (Now E) (client_ s) in
  let s1 :=
    if Bool.eqb ok previous then set_client idle s
    else set_client (Client.SetAvailable ok idle) s in
  let report :=
    if Bool.eqb ok previous then []
    else [Out.EventLog
            (Report.settings ok (Client.GetCurrentPlace (client_ s))
               (Client.GetLocale (client_ s)) (GetAdsPerDay E) (GetAdsPerHour E))] in
  Client.GetAvailable (client_ s1) = ok ∧
  Client.last_user_idle_stop_time (client_ s1) = Now E ∧
  (ok = false -> OnUnIdle E s = Ok (tt, s1, report)) ∧
  (ok = true ->
   ∀ s' out,
     CheckReadyAdServe E false s1 = Ok (tt, s', out) ->
     OnUnIdle E s = Ok (tt, s', report ++ out)).
Proof.
  intros ok previous idle s1 report.
  assert (Hrun : OnUnIdle E s
                 = if ok then
                     match CheckReadyAdServe E false s1 with
                     | Ok (b, s2, out2) => Ok (b, s2, report ++ out2)
                     | Fault f => Fault f
                     end
                   else Ok (tt, s1, report)).
  { unfold OnUnIdle. rewrite bind_client. fold idle.
    unfold NotificationAllowedCheck, GenerateAdReportingSettingsEvent.
    rewrite bind_reads.
    change (Client.GetAvailable (client_ (set_client idle s))) with previous.
    subst s1 report ok.
    destruct (IsNotificationsAvailable E);
      destruct (Bool.eqb _ previous) eqn:Heq; run_basic; try reflexivity;
      change (set_client (Client.SetAvailable true idle) (set_client idle s))
        with (set_client (Client.SetAvailable true idle) s);
      destruct (CheckReadyAdServe E false _) as [[[[] s2] out2] | f]; reflexivity. }
  split; [| split; [| split]].
  - subst s1. destruct (Bool.eqb ok previous) eqn:Heq; [| reflexivity].
    apply Bool.eqb_prop in Heq. simpl. symmetry. exact Heq.
  - subst s1. destruct (Bool.eqb ok previous); reflexivity.
  - intros Hok. rewrite Hrun, Hok. reflexivity.
  - intros Hok s' out Hcheck. rewrite Hrun, Hok, Hcheck. reflexivity.
Qed.

Lemma OnUnIdle_serves_when_notifications_are_available_witness :
  let E := Sample.host ["en"] 4 20 100000 Sample.parse_https 0 in
  let s := Sample.running [92000]%Z [[0.125; 0.75; 0.25]%float] ∅ in
  IsNotificationsAvailable E = true ∧
  ∃ s', OnUnIdle E s = Ok (tt, s', [Out.GetAds "US" "sports"]).
Proof.
  intros E s. split; [reflexivity |].
  eexists.
  refine (proj2 (proj2 (proj2 (OnUnIdle_serves_when_notifications_are_available E s)))
            eq_refl _ [Out.GetAds "US" "sports"] _).
  vm_compute. reflexivity.
Defined.

(** ** Where notifications come from *)

#[local] Hint Extern 1 (emits not_notification (call _)) =>
  (apply emits_call; reflexivity) : emits.

(** The methods that do not reach [ShowAd] make no call to
    [ShowNotification]. *)

Lemma GenerateAdReportingRestartEvent_silent :
  emits not_notification GenerateAdReportingRestartEvent.
Proof. unfold GenerateAdReportingRestartEvent. emits_auto. Qed.
#[local] Hint Resolve GenerateAdReportingRestartEvent_silent : emits.

Lemma GenerateAdReportingSustainEvent_silent info :
  emits not_notification (GenerateAdReportingSustainEvent info).
Proof. unfold GenerateAdReportingSustainEvent. emits_auto. Qed.
#[local] Hint Resolve GenerateAdReportingSustainEvent_silent : emits.

Lemma GenerateAdReportingBackgroundEvent_silent :
  emits not_notification GenerateAdReportingBackgroundEvent.
Proof. unfold GenerateAdReportingBackgroundEvent. emits_auto. Qed.
#[local] Hint Resolve GenerateAdReportingBackgroundEvent_silent : emits.

Lemma GenerateAdReportingForegroundEvent_silent :
  emits not_notification GenerateAdReportingForegroundEvent.
Proof. unfold GenerateAdReportingForegroundEvent. emits_auto. Qed.
#[local] Hint Resolve GenerateAdReportingForegroundEvent_silent : emits.

Lemma GenerateAdReportingBlurEvent_silent tab_id :
  emits not_notification (GenerateAdReportingBlurEvent tab_id).
Proof. unfold GenerateAdReportingBlurEvent. emits_auto. Qed.
#[local] Hint Resolve GenerateAdReportingBlurEvent_silent : emits.

Lemma GenerateAdReportingDestroyEvent_silent tab_id :
  emits not_notification (GenerateAdReportingDestroyEvent tab_id).
Proof. unfold GenerateAdReportingDestroyEvent. emits_auto. Qed.
#[local] Hint Resolve GenerateAdReportingDestroyEvent_silent : emits.

Lemma GenerateAdReportingFocusEvent_silent tab_id :
  emits not_notification (GenerateAdReportingFocusEvent tab_id).
Proof. unfold GenerateAdReportingFocusEvent. emits_auto. Qed.
#[local] Hint Resolve GenerateAdReportingFocusEvent_silent : emits.

Lemma GenerateAdReportingSettingsEvent_silent E :
  emits not_notification (GenerateAdReportingSettingsEvent E).
Proof. unfold GenerateAdReportingSettingsEvent. emits_auto. Qed.
#[local] Hint Resolve GenerateAdReportingSettingsEvent_silent : emits.

Lemma IsInitialized_silent E :
  emits not_notification (IsInitialized E).
Proof. unfold IsInitialized. emits_auto. Qed.
#[local] Hint Resolve IsInitialized_silent : emits.

Lemma OnForeground_silent :
  emits not_notification OnForeground.
Proof. unfold OnForeground. emits_auto. Qed.
#[local] Hint Resolve OnForeground_silent : emits.

Lemma OnBackground_silent :
  emits not_notification OnBackground.
Proof. unfold OnBackground. emits_auto. Qed.
#[local] Hint Resolve OnBackground_silent : emits.

Lemma IsForeground_silent :
  emits not_notification IsForeground.
Proof. unfold IsForeground. emits_auto. Qed.
#[local] Hint Resolve IsForeground_silent : emits.

Lemma OnIdle_silent :
  emits not_notification OnIdle.
Proof. unfold OnIdle. emits_auto. Qed.
#[local] Hint Resolve OnIdle_silent : emits.

Lemma OnMediaPlaying_silent tab_id :
  emits not_notification (OnMediaPlaying tab_id).
Proof. unfold OnMediaPlaying. emits_auto. Qed.
#[local] Hint Resolve OnMediaPlaying_silent : emits.

Lemma OnMediaStopped_silent tab_id :
  emits not_notification (OnMediaStopped tab_id).
Proof. unfold OnMediaStopped. emits_auto. Qed.
#[local] Hint Resolve OnMediaStopped_silent : emits.

Lemma IsMediaPlaying_silent :
  emits not_notification IsMediaPlaying.
Proof. unfold IsMediaPlaying. emits_auto. Qed.
#[local] Hint Resolve IsMediaPlaying_silent : emits.

Lemma IsCollectingActivity_silent :
  emits not_notification IsCollectingActivity.
Proof. unfold IsCollectingActivity. emits_auto. Qed.
#[local] Hint Resolve IsCollectingActivity_silent : emits.

Lemma StopCollectingActivity_silent :
  emits not_notification StopCollectingActivity.
Proof. unfold StopCollectingActivity. emits_auto. Qed.
#[local] Hint Resolve StopCollectingActivity_silent : emits.

Lemma StartCollectingActivity_silent E start_timer_in :
  emits not_notification (StartCollectingActivity E start_timer_in).
Proof. unfold StartCollectingActivity. emits_auto. Qed.
#[local] Hint Resolve StartCollectingActivity_silent : emits.

Lemma IsSustainingAdInteraction_silent :
  emits not_notification IsSustainingAdInteraction.
Proof. unfold IsSustainingAdInteraction. emits_auto. Qed.
#[local] Hint Resolve IsSustainingAdInteraction_silent : emits.

Lemma StopSustainingAdInteraction_silent :
  emits not_notification StopSustainingAdInteraction.
Proof. unfold StopSustainingAdInteraction. emits_auto. Qed.
#[local] Hint Resolve StopSustainingAdInteraction_silent : emits.

Lemma StartSustainingAdInteraction_silent E start_timer_in :
  emits not_notification (StartSustainingAdInteraction E start_timer_in).
Proof. unfold StartSustainingAdInteraction. emits_auto. Qed.
#[local] Hint Resolve StartSustainingAdInteraction_silent : emits.

Lemma IsStillViewingAd_silent :
  emits not_notification IsStillViewingAd.
Proof. unfold IsStillViewingAd. emits_auto. Qed.
#[local] Hint Resolve IsStillViewingAd_silent : emits.

Lemma SustainAdInteraction_silent E :
  emits not_notification (SustainAdInteraction E).
Proof. unfold SustainAdInteraction. emits_auto. Qed.
#[local] Hint Resolve SustainAdInteraction_silent : emits.

Lemma GenerateAdReportingNotificationShownEvent_silent info :
  emits not_notification (GenerateAdReportingNotificationShownEvent info).
Proof. unfold GenerateAdReportingNotificationShownEvent. emits_auto. Qed.
#[local] Hint Resolve GenerateAdReportingNotificationShownEvent_silent : emits.

Lemma GenerateAdReportingNotificationResultEvent_silent E info type :
  emits not_notification (GenerateAdReportingNotificationResultEvent E info type).
Proof. unfold GenerateAdReportingNotificationResultEvent. emits_auto. Qed.
#[local] Hint Resolve GenerateAdReportingNotificationResultEvent_silent : emits.

Lemma ConfirmAdUUIDIfAdEnabled_silent E :
  emits not_notification (ConfirmAdUUIDIfAdEnabled E).
Proof. unfold ConfirmAdUUIDIfAdEnabled. emits_auto. Qed.
#[local] Hint Resolve ConfirmAdUUIDIfAdEnabled_silent : emits.

Lemma RemoveAllHistory_silent E :
  emits not_notification (RemoveAllHistory E).
Proof. unfold RemoveAllHistory. emits_auto. Qed.
#[local] Hint Resolve RemoveAllHistory_silent : emits.

Lemma SaveCachedInfo_silent E :
  emits not_notification (SaveCachedInfo E).
Proof. unfold SaveCachedInfo. emits_auto. Qed.
#[local] Hint Resolve SaveCachedInfo_silent : emits.

Lemma RetrieveSSID_silent E :
  emits not_notification (RetrieveSSID E).
Proof. unfold RetrieveSSID. emits_auto. Qed.
#[local] Hint Resolve RetrieveSSID_silent : emits.

Lemma ProcessLocales_silent locales :
  emits not_notification (ProcessLocales locales).
Proof. unfold ProcessLocales. emits_auto. Qed.
#[local] Hint Resolve ProcessLocales_silent : emits.

Lemma Deinitialize_silent E :
  emits not_notification (Deinitialize E).
Proof. unfold Deinitialize. emits_auto. Qed.
#[local] Hint Resolve Deinitialize_silent : emits.

Lemma Initialize_silent E :
  emits not_notification (Initialize E).
Proof. unfold Initialize. emits_auto. Qed.
#[local] Hint Resolve Initialize_silent : emits.

Lemma LoadUserModel_silent :
  emits not_notification LoadUserModel.
Proof. unfold LoadUserModel. emits_auto. Qed.
#[local] Hint Resolve LoadUserModel_silent : emits.

Lemma InitializeStep2_silent E :
  emits not_notification (InitializeStep2 E).
Proof. unfold InitializeStep2. emits_auto. Qed.
#[local] Hint Resolve InitializeStep2_silent : emits.

Lemma AdsShownHistoryRespectsRollingTimeConstraint_silent E seconds_window allowable_ad_count :
  emits not_notification (AdsShownHistoryRespectsRollingTimeConstraint E seconds_window allowable_ad_count).
Proof. unfold AdsShownHistoryRespectsRollingTimeConstraint. emits_auto. Qed.
#[local] Hint Resolve AdsShownHistoryRespectsRollingTimeConstraint_silent : emits.

Lemma IsAllowedToShowAds_silent E :
  emits not_notification (IsAllowedToShowAds E).
Proof. unfold IsAllowedToShowAds. emits_auto. Qed.
#[local] Hint Resolve IsAllowedToShowAds_silent : emits.

Lemma GetUnseenAds_silent ads :
  emits not_notification (GetUnseenAds ads).
Proof. unfold GetUnseenAds. emits_auto. Qed.
#[local] Hint Resolve GetUnseenAds_silent : emits.

Lemma ServeSampleAd_silent E :
  emits not_notification (ServeSampleAd E).
Proof. unfold ServeSampleAd. emits_auto. Qed.
#[local] Hint Resolve ServeSampleAd_silent : emits.

Lemma GetWinningCategory_silent page_score :
  emits not_notification (GetWinningCategory page_score).
Proof. unfold GetWinningCategory. emits_auto. Qed.
#[local] Hint Resolve GetWinningCategory_silent : emits.

Lemma GetWinnerOverTimeCategory_silent :
  emits not_notification GetWinnerOverTimeCategory.
Proof. unfold GetWinnerOverTimeCategory. emits_auto. Qed.
#[local] Hint Resolve GetWinnerOverTimeCategory_silent : emits.

Lemma CachePageScore_silent url page_score :
  emits not_notification (CachePageScore url page_score).
Proof. unfold CachePageScore. emits_auto. Qed.
#[local] Hint Resolve CachePageScore_silent : emits.

Lemma ServeAdFromCategory_silent E category :
  emits not_notification (ServeAdFromCategory E category).
Proof. unfold ServeAdFromCategory. emits_auto. Qed.
#[local] Hint Resolve ServeAdFromCategory_silent : emits.

Lemma CheckReadyAdServe_silent E forced :
  emits not_notification (CheckReadyAdServe E forced).
Proof. unfold CheckReadyAdServe. emits_auto. Qed.
#[local] Hint Resolve CheckReadyAdServe_silent : emits.

Lemma NotificationAllowedCheck_silent E serve :
  emits not_notification (NotificationAllowedCheck E serve).
Proof. unfold NotificationAllowedCheck. emits_auto. Qed.
#[local] Hint Resolve NotificationAllowedCheck_silent : emits.

Lemma OnUnIdle_silent E :
  emits not_notification (OnUnIdle E).
Proof. unfold OnUnIdle. emits_auto. Qed.
#[local] Hint Resolve OnUnIdle_silent : emits.

Lemma InitializeStep3_silent E :
  emits not_notification (InitializeStep3 E).
Proof. unfold InitializeStep3. emits_auto. Qed.
#[local] Hint Resolve InitializeStep3_silent : emits.

Lemma InitializeUserModel_silent E json :
  emits not_notification (InitializeUserModel E json).
Proof. unfold InitializeUserModel. emits_auto. Qed.
#[local] Hint Resolve InitializeUserModel_silent : emits.

Lemma OnUserModelLoaded_silent E result json :
  emits not_notification (OnUserModelLoaded E result json).
Proof. unfold OnUserModelLoaded. emits_auto. Qed.
#[local] Hint Resolve OnUserModelLoaded_silent : emits.

Lemma TestShoppingData_silent E url :
  emits not_notification (TestShoppingData E url).
Proof. unfold TestShoppingData. emits_auto. Qed.
#[local] Hint Resolve TestShoppingData_silent : emits.

Lemma TestSearchState_silent E url :
  emits not_notification (TestSearchState E url).
Proof. unfold TestSearchState. emits_auto. Qed.
#[local] Hint Resolve TestSearchState_silent : emits.

Lemma ClassifyPage_silent E url html :
  emits not_notification (ClassifyPage E url html).
Proof. unfold ClassifyPage. emits_auto. Qed.
#[local] Hint Resolve ClassifyPage_silent : emits.

Lemma ChangeLocale_silent E locale :
  emits not_notification (ChangeLocale E locale).
Proof. unfold ChangeLocale. emits_auto. Qed.
#[local] Hint Resolve ChangeLocale_silent : emits.

Lemma GenerateAdReportingLoadEvent_silent E info :
  emits not_notification (GenerateAdReportingLoadEvent E info).
Proof. unfold GenerateAdReportingLoadEvent. emits_auto. Qed.
#[local] Hint Resolve GenerateAdReportingLoadEvent_silent : emits.

Lemma TabUpdated_silent E tab_id url is_active is_incognito :
  emits not_notification (TabUpdated E tab_id url is_active is_incognito).
Proof. unfold TabUpdated. emits_auto. Qed.
#[local] Hint Resolve TabUpdated_silent : emits.

Lemma TabClosed_silent tab_id :
  emits not_notification (TabClosed tab_id).
Proof. unfold TabClosed. emits_auto. Qed.
#[local] Hint Resolve TabClosed_silent : emits.

Lemma CollectActivity_silent E :
  emits not_notification (CollectActivity E).
Proof. unfold CollectActivity. emits_auto. Qed.
#[local] Hint Resolve CollectActivity_silent : emits.

Lemma OnTimer_silent E timer_id :
  emits not_notification (OnTimer E timer_id).
Proof. unfold OnTimer. emits_auto. Qed.
#[local] Hint Resolve OnTimer_silent : emits.

Lemma OnClientStateLoaded_silent E loaded :
  emits not_notification (OnClientStateLoaded E loaded).
Proof. unfold OnClientStateLoaded. emits_auto. Qed.
#[local] Hint Resolve OnClientStateLoaded_silent : emits.

(** X13: a notification is handed to the host only while the engine
    handles an answer that brings ads, [OnGetAds] or [OnLoadSampleBundle]:
    no other invocation calls [ShowNotification], whatever the state and
    the environment. *)
Theorem notifications_come_from_answers E i s s' out info :
  brings_ads i = false ->
  invoke E i s = Ok (tt, s', out) ->
  Out.ShowNotification info ∉ out.
Proof.
  intros Hanswer Hrun Hin.
  assert (Hsilent : emits not_notification (invoke E i))
    by (destruct i; try discriminate Hanswer; simpl; eauto with emits).
  specialize (Hsilent s). rewrite Hrun in Hsilent.
  rewrite Forall_forall in Hsilent. specialize (Hsilent _ Hin). discriminate Hsilent.
Qed.

Lemma notifications_come_from_answers_witness :
  let E := Sample.host ["en"] 4 20 100000 Sample.parse_https 0 in
  let s := Sample.running [92000]%Z [[0.125; 0.75; 0.25]%float] ∅ in
  brings_ads DoOnUnIdle = false ∧
  ∃ s' out,
    invoke E DoOnUnIdle s = Ok (tt, s', out) ∧
    ∀ info, Out.ShowNotification info ∉ out.
Proof.
  intros E s. split; [reflexivity |].
  eexists _, _. split; [vm_compute; reflexivity |].
  intros info.
  eapply (notifications_come_from_answers E DoOnUnIdle s); [reflexivity |].
  vm_compute. reflexivity.
Defined.

(** ** What an answer shows *)

Lemma show_at_run E category candidates rand s :
  show_at E category candidates rand s
  = match candidates !! rand with
    | None => Fault OutOfRange
    | Some ad =>
        if IsAdValid ad
        then Ok (tt, after_show E (notification_of ad category) s,
                 [Out.ShowNotification (notification_of ad category)])
        else Ok (tt, s, [])
    end.
Proof.
  unfold show_at, at_. destruct (candidates !! rand) as [ad |]; [| reflexivity].
  rewrite bind_ret_l. unfold ShowAd. destruct (IsAdValid ad); reflexivity.
Qed.

(** What a run of [show_at] that returns did: nothing, for an ad that is
    not valid, or one notification for a valid ad of the list. *)
Lemma show_at_Ok E category candidates rand s s' out :
  show_at E category candidates rand s = Ok (tt, s', out) ->
  (s' = s ∧ out = []) ∨
  ∃ ad,
    candidates !! rand = Some ad ∧ IsAdValid ad = true ∧
    s' = after_show E (notification_of ad category) s ∧
    out = [Out.ShowNotification (notification_of ad category)].
Proof.
  rewrite show_at_run. destruct (candidates !! rand) as [ad |]; [| discriminate].
  destruct (IsAdValid ad) eqn:Hvalid; intros Hrun; injection Hrun as <- <-.
  - right. exists ad. auto.
  - left. auto.
Qed.

Lemma notifications_silent out : Forall not_notification out -> notifications out = 0.
Proof.
  unfold notifications. induction 1 as [| c out Hc _ IH]; [reflexivity |].
  rewrite filter_cons_False; [exact IH |]. unfold not_notification in Hc. congruence.
Qed.

Lemma show_at_notifications E category candidates rand s s' out :
  show_at E category candidates rand s = Ok (tt, s', out) -> notifications out ≤ 1.
Proof.
  intros Hrun. apply show_at_Ok in Hrun as [[_ ->] | (ad & _ & _ & _ & ->)].
  - unfold notifications. simpl. lia.
  - unfold notifications. rewrite filter_cons_True by reflexivity. simpl. lia.
Qed.

(** The three ways [OnGetAds] ends when it returns: in the first block,
    with a new request or with nothing, or in the selection, from the
    object as it is or from the object after the reset. *)
Lemma OnGetAds_Ok E result region category ads s s' out :
  OnGetAds E result region category ads s = Ok (tt, s', out) ->
  let seen := Client.GetAdsUUIDSeen (client_ s) in
  let reset := set_client (Client.ResetAdsUUIDSeen ads (client_ s)) s in
  (∃ pos,
     result = FAILED ∧ Str.find_last_of category "-" = Some pos ∧
     s' = s ∧ out = [Out.GetAds region (Str.substr category 0 pos)]) ∨
  (ads = [] ∧ out = [] ∧ (s' = s ∨ s' = reset)) ∨
  (unseen seen ads ≠ [] ∧
   show_drawn E category (unseen seen ads) s = Ok (tt, s', out)) ∨
  (ads ≠ [] ∧ unseen seen ads = [] ∧
   show_drawn E category ads reset = Ok (tt, s', out)).
Proof.
  intros Hrun seen reset.
  assert (Hselect :
            reaches_selection result category ads ->
            (ads = [] ∧ out = [] ∧ (s' = s ∨ s' = reset)) ∨
            (unseen seen ads ≠ [] ∧
             show_drawn E category (unseen seen ads) s = Ok (tt, s', out)) ∨
            (ads ≠ [] ∧ unseen seen ads = [] ∧
             show_drawn E category ads reset = Ok (tt, s', out))).
  { intros Hreach.
    rewrite (OnGetAds_reaches_selection E result region category ads s Hreach) in Hrun.
    fold seen reset in Hrun.
    assert (Hreset : unseen (Client.GetAdsUUIDSeen (client_ reset)) ads = ads)
      by exact (unseen_after_reset ads (client_ s)).
    rewrite Hreset in Hrun.
    destruct (unseen seen ads) as [| ad0 rest] eqn:Hunseen.
    - destruct ads as [| ad1 ads1].
      + injection Hrun as <- <-. left. auto.
      + right. right. split; [discriminate |]. split; [reflexivity | exact Hrun].
    - right. left. split; [discriminate | exact Hrun]. }
  destruct result.
  - right. apply Hselect. left. reflexivity.
  - destruct (Str.find_last_of category "-") as [pos |] eqn:Hfind.
    + left. exists pos. rewrite (OnGetAds_failed_retry _ _ _ _ _ _ Hfind) in Hrun.
      injection Hrun as <- <-. auto.
    + right. destruct ads as [| ad1 ads1].
      * rewrite (OnGetAds_failed_no_ads _ _ _ _ Hfind) in Hrun.
        injection Hrun as <- <-. left. auto.
      * apply Hselect. right. split; [exact Hfind | discriminate].
Qed.

Lemma OnLoadSampleBundle_Ok E result json s s' out :
  OnLoadSampleBundle E result json s = Ok (tt, s', out) ->
  (s' = s ∧ out = []) ∨
  ∃ categories category ads,
    result = SUCCESS ∧
    LoadFromJson E json (LoadJsonSchema E (_bundle_schema_name E)) = Some categories ∧
    categories !! Random E SampleCategoryDraw (length categories - 1) = Some (category, ads) ∧
    show_at E category ads (Random E SampleAdDraw (length ads - 1)) s = Ok (tt, s', out).
Proof.
  unfold OnLoadSampleBundle. destruct result.
  2: { intros Hrun. injection Hrun as <- <-. left. auto. }
  destruct (LoadFromJson E json _) as [categories |] eqn:Hload.
  2: { intros Hrun. injection Hrun as <- <-. left. auto. }
  destruct (length categories =? 0)%nat.
  { intros Hrun. injection Hrun as <- <-. left. auto. }
  unfold at_ at 1.
  match goal with
  | |- context [match ?entry with Some _ => _ | None => _ end] =>
      destruct entry as [[category ads] |] eqn:Hentry
  end; [| rewrite bind_crash; discriminate].
  rewrite bind_ret_l. cbv beta iota delta [fst snd].
  match goal with
  | |- context [if ?none then _ else _] => destruct none
  end.
  { intros Hrun. injection Hrun as <- <-. left. auto. }
  intros Hrun. right. exists categories, category, ads. auto.
Qed.

(** X14: no invocation hands more than one notification to the host. *)
Theorem invoke_shows_at_most_one_notification E i s s' out :
  invoke E i s = Ok (tt, s', out) -> notifications out ≤ 1.
Proof.
  intros Hrun. destruct (brings_ads i) eqn:Hanswer.
  - destruct i; try discriminate Hanswer; simpl in Hrun.
    + apply OnGetAds_Ok in Hrun
        as [(pos & _ & _ & _ & ->) | [(_ & -> & _) | [(_ & Hshow) | (_ & _ & Hshow)]]].
      * unfold notifications. rewrite filter_cons_False by discriminate. simpl. lia.
      * unfold notifications. simpl. lia.
      * exact (show_at_notifications _ _ _ _ _ _ _ Hshow).
      * exact (show_at_notifications _ _ _ _ _ _ _ Hshow).
    + apply OnLoadSampleBundle_Ok in Hrun as [[_ ->] | (? & ? & ? & _ & _ & _ & Hshow)].
      * unfold notifications. simpl. lia.
      * exact (show_at_notifications _ _ _ _ _ _ _ Hshow).
  - assert (Hsilent : emits not_notification (invoke E i))
      by (destruct i; try discriminate Hanswer; simpl; eauto with emits).
    specialize (Hsilent s). rewrite Hrun in Hsilent.
    rewrite (notifications_silent _ Hsilent). lia.
Qed.

Lemma invoke_shows_at_most_one_notification_witness :
  let E := Sample.host ["en"] 4 20 100000 Sample.parse_https 0 in
  let s := Sample.running [] [] ∅ in
  let ads := [Sample.ad "a1"; Sample.ad "a2"] in
  ∃ s' out,
    invoke E (DoOnGetAds SUCCESS "US" "sports" ads) s = Ok (tt, s', out) ∧
    notifications out ≤ 1.
Proof.
  intros E s ads. eexists _, _. split; [vm_compute; reflexivity |].
  eapply (invoke_shows_at_most_one_notification E (DoOnGetAds SUCCESS "US" "sports" ads) s).
  vm_compute. reflexivity.
Defined.

(** X15: the ad of a notification that [OnGetAds] shows is a valid ad of
    the answer, shown under the category of the answer.  It is an ad the
    user has not seen, unless the user has seen every ad of the answer:
    only then the seen set is reset for these ads, and one of them is
    shown again.  Showing the ad does not mark it as seen: afterwards its
    uuid is not in the seen set.  The time of the invocation is appended
    to the ads-shown history. *)
Theorem OnGetAds_shows_an_unseen_ad E result region category ads s s' out info :
  OnGetAds E result region category ads s = Ok (tt, s', out) ->
  Out.ShowNotification info ∈ out ->
  let seen := Client.GetAdsUUIDSeen (client_ s) in
  ∃ ad,
    ad ∈ ads ∧ IsAdValid ad = true ∧
    info = notification_of ad category ∧
    out = [Out.ShowNotification info] ∧
    (AdInfo.uuid ad ∉ dom seen ∨ ∀ ad', ad' ∈ ads -> AdInfo.uuid ad' ∈ dom seen) ∧
    (AdInfo.uuid ad ∉ dom (Client.GetAdsUUIDSeen (client_ s'))) ∧
    last_shown_notification_info_ s' = info ∧
    Client.GetAdsShownHistory (client_ s')
    = Client.GetAdsShownHistory (client_ s) ++ [Now E].
Proof.
  intros Hrun Hin seen.
  apply OnGetAds_Ok in Hrun
    as [(pos & _ & _ & _ & ->) | [(_ & -> & _) | [(_ & Hshow) | (_ & Hnone & Hshow)]]].
  - apply list_elem_of_singleton in Hin. discriminate.
  - inversion Hin.
  - apply show_at_Ok in Hshow as [[_ ->] | (ad & Had & Hvalid & -> & ->)];
      [inversion Hin |].
    apply list_elem_of_singleton in Hin. injection Hin as ->.
    apply list_elem_of_lookup_2, elem_of_unseen in Had as [Hads Hunseen].
    exists ad. repeat split; auto.
  - apply show_at_Ok in Hshow as [[_ ->] | (ad & Had & Hvalid & -> & ->)];
      [inversion Hin |].
    apply list_elem_of_singleton in Hin. injection Hin as ->.
    apply list_elem_of_lookup_2 in Had.
    exists ad. repeat split; auto.
    + right. intros ad' Had'. fold seen in Hnone.
      destruct (decide (AdInfo.uuid ad' ∈ dom seen)) as [Hseen | Hunseen]; [exact Hseen |].
      assert (Hin' : ad' ∈ unseen seen ads) by (apply elem_of_unseen; auto).
      rewrite Hnone in Hin'. inversion Hin'.
    + change (AdInfo.uuid ad
              ∉ dom (Client.GetAdsUUIDSeen (Client.ResetAdsUUIDSeen ads (client_ s)))).
      rewrite ResetAdsUUIDSeen_dom, elem_of_difference, elem_of_list_to_set.
      intros [_ Hout]. apply Hout. apply list_elem_of_fmap. eauto.
Qed.

Lemma OnGetAds_shows_an_unseen_ad_witness :
  let E := Sample.host ["en"] 4 20 100000 Sample.parse_https 0 in
  let s := Sample.running [] [] {[ "a1" := 1%Z ]} in
  let ads := [Sample.ad "a1"; Sample.ad "a2"] in
  ∃ s' out,
    OnGetAds E SUCCESS "US" "sports" ads s = Ok (tt, s', out) ∧
    out = [Out.ShowNotification (notification_of (Sample.ad "a2") "sports")] ∧
    ∃ ad,
      ad ∈ ads ∧ IsAdValid ad = true ∧
      notification_of (Sample.ad "a2") "sports" = notification_of ad "sports" ∧
      (AdInfo.uuid ad ∉ dom (Client.GetAdsUUIDSeen (client_ s'))).
Proof.
  intros E s ads.
  destruct (OnGetAds E SUCCESS "US" "sports" ads s)
    as [[[[] s'] out] | f] eqn:Hrun; [| vm_compute in Hrun; discriminate].
  assert (Hout : out = [Out.ShowNotification (notification_of (Sample.ad "a2") "sports")])
    by (vm_compute in Hrun; injection Hrun as _ <-; reflexivity).
  exists s', out. split; [reflexivity |]. split; [exact Hout |].
  destruct (OnGetAds_shows_an_unseen_ad E SUCCESS "US" "sports" ads s s' out
              (notification_of (Sample.ad "a2") "sports") Hrun)
    as (ad & Hads & Hvalid & Hinfo & _ & _ & Hunseen & _).
  - rewrite Hout. apply list_elem_of_here.
  - exists ad. auto.
Defined.

(** ** The fallback to the parent category *)

Lemma chars_append a b : Str.chars (a +:+ b) = Str.chars a ++ Str.chars b.
Proof. induction a as [| c a IH]; simpl; [reflexivity | rewrite IH; reflexivity]. Qed.

Lemma hyphens_append a b : hyphens (a +:+ b) = hyphens a + hyphens b.
Proof. unfold hyphens. rewrite chars_append, filter_app, length_app. reflexivity. Qed.

Lemma hyphens_0 category : hyphens category = 0 ↔ "-"%char ∉ Str.chars category.
Proof.
  unfold hyphens. induction (Str.chars category) as [| a l IH].
  - split; [intros _ Hin; inversion Hin | reflexivity].
  - rewrite filter_cons, not_elem_of_cons.
    destruct (decide (a = "-"%char)) as [-> | Hne]; simpl.
    + split; [discriminate | intros [Hne _]; congruence].
    + rewrite IH. split; [intros Hout; split; [congruence | exact Hout] | tauto].
Qed.

(** X16: a failed answer moves the request one level up the category.
    For a category with [n + 1] hyphens the engine asks again, once, for
    the same region and for the category without its last segment, which
    has [n] hyphens, and leaves the object as it is.  For a category
    without a hyphen no request is made.  So a run of failed answers, each
    to the request before it, ends after as many requests as the category
    has hyphens. *)
Theorem OnGetAds_failure_goes_one_level_up E region category ads s :
  (∀ n, hyphens category = S n ->
     ∃ parent leaf,
       OnGetAds E FAILED region category ads s = Ok (tt, s, [Out.GetAds region parent]) ∧
       category = (parent +:+ String "-" leaf) ∧
       hyphens leaf = 0 ∧
       hyphens parent = n) ∧
  (hyphens category = 0 ->
     ∀ s' out region' category',
       OnGetAds E FAILED region category ads s = Ok (tt, s', out) ->
       Out.GetAds region' category' ∉ out).
Proof.
  split.
  - intros n Hn.
    assert (Hin : "-"%char ∈ Str.chars category).
    { destruct (decide ("-"%char ∈ Str.chars category)) as [Hin | Hout]; [exact Hin |].
      apply hyphens_0 in Hout. congruence. }
    destruct (find_last_of_is_Some _ _ Hin) as [pos Hfind].
    destruct (find_last_of_Some _ _ _ Hfind) as (leaf & Hsplit & Hout & _).
    exists (Str.substr category 0 pos), leaf.
    split; [apply OnGetAds_failed_retry; exact Hfind |].
    split; [exact Hsplit |].
    apply hyphens_0 in Hout. split; [exact Hout |].
    rewrite Hsplit in Hn at 1. rewrite hyphens_append in Hn.
    change (String "-" leaf) with ("-" +:+ leaf) in Hn.
    rewrite hyphens_append, Hout in Hn.
    change (hyphens "-") with 1 in Hn. lia.
  - intros Hzero s' out region' category' Hrun Hin.
    apply hyphens_0, find_last_of_None in Hzero.
    apply OnGetAds_Ok in Hrun
      as [(pos & _ & Hfind & _) | [(_ & -> & _) | [(_ & Hshow) | (_ & _ & Hshow)]]].
    + congruence.
    + inversion Hin.
    + apply show_at_Ok in Hshow as [[_ ->] | (ad & _ & _ & _ & ->)];
        [inversion Hin | apply list_elem_of_singleton in Hin; discriminate].
    + apply show_at_Ok in Hshow as [[_ ->] | (ad & _ & _ & _ & ->)];
        [inversion Hin | apply list_elem_of_singleton in Hin; discriminate].
Qed.

Lemma OnGetAds_failure_goes_one_level_up_witness :
  let E := Sample.host ["en"] 4 20 100000 Sample.parse_https 0 in
  let s := Sample.running [] [] ∅ in
  hyphens "news-finance-crypto" = 2 ∧
  ∃ parent leaf,
    OnGetAds E FAILED "US" "news-finance-crypto" [] s
    = Ok (tt, s, [Out.GetAds "US" parent]) ∧
    "news-finance-crypto" = (parent +:+ String "-" leaf) ∧
    hyphens leaf = 0 ∧
    hyphens parent = 1.
Proof.
  intros E s. split; [reflexivity |].
  exact (proj1 (OnGetAds_failure_goes_one_level_up E "US" "news-finance-crypto" [] s)
           1 eq_refl).
Defined.

(** ** The sample bundle *)

(** X17: [OnLoadSampleBundle] shows at most one ad, and only an ad of the
    bundle: a notification it hands to the host is the one of a valid ad
    of a category of the parsed bundle, under the name of that category.
    The seen set is neither read nor changed.  A failed load, a bundle
    that does not parse and a bundle without categories leave the object
    as it is and call nothing.  With draws within their bounds the method
    returns. *)
Theorem OnLoadSampleBundle_shows_an_ad_of_the_bundle E result json s :
  let bundle := LoadFromJson E json (LoadJsonSchema E (_bundle_schema_name E)) in
  (result = FAILED ∨ bundle = None ∨ bundle = Some [] ->
   OnLoadSampleBundle E result json s = Ok (tt, s, [])) ∧
  (∀ s' out,
     OnLoadSampleBundle E result json s = Ok (tt, s', out) ->
     Client.GetAdsUUIDSeen (client_ s') = Client.GetAdsUUIDSeen (client_ s) ∧
     ∀ info,
       Out.ShowNotification info ∈ out ->
       ∃ categories category ads ad,
         result = SUCCESS ∧ bundle = Some categories ∧
         ((category, ads) ∈ categories) ∧ (ad ∈ ads) ∧ IsAdValid ad = true ∧
         info = notification_of ad category ∧
         out = [Out.ShowNotification info] ∧
         s' = after_show E info s) ∧
  ((∀ site bound, Random E site bound ≤ bound) ->
   ∃ s' out, OnLoadSampleBundle E result json s = Ok (tt, s', out)).
Proof.
  intros bundle. split; [| split].
  - unfold OnLoadSampleBundle. fold bundle.
    intros [-> | [-> | ->]]; [reflexivity | destruct result; reflexivity ..].
  - intros s' out Hrun.
    apply OnLoadSampleBundle_Ok in Hrun
      as [[-> ->] | (categories & category & ads & -> & Hload & Hentry & Hshow)].
    + split; [reflexivity |]. intros info Hin. inversion Hin.
    + apply show_at_Ok in Hshow as [[-> ->] | (ad & Had & Hvalid & -> & ->)].
      * split; [reflexivity |]. intros info Hin. inversion Hin.
      * split; [reflexivity |]. intros info Hin.
        apply list_elem_of_singleton in Hin. injection Hin as ->.
        exists categories, category, ads, ad.
        apply list_elem_of_lookup_2 in Hentry, Had. auto 10.
  - intros Hdraw. unfold OnLoadSampleBundle. fold bundle.
    destruct result; [| eauto].
    destruct bundle as [categories |]; [| eauto].
    destruct categories as [| entry0 categories]; [simpl; eauto |].
    change (length (entry0 :: categories) =? 0)%nat with false. cbv iota.
    destruct (lookup_lt_is_Some_2 (entry0 :: categories)
                (Random E SampleCategoryDraw (length (entry0 :: categories) - 1)))
      as [[category ads] Hentry].
    { specialize (Hdraw SampleCategoryDraw (length (entry0 :: categories) - 1)).
      simpl length in *. lia. }
    unfold at_ at 1. rewrite Hentry, bind_ret_l. cbv beta iota delta [fst snd].
    destruct ads as [| ad0 ads]; [simpl; eauto |].
    change (length (ad0 :: ads) =? 0)%nat with false. cbv iota.
    destruct (lookup_lt_is_Some_2 (ad0 :: ads)
                (Random E SampleAdDraw (length (ad0 :: ads) - 1)))
      as [ad Had].
    { specialize (Hdraw SampleAdDraw (length (ad0 :: ads) - 1)).
      simpl length in *. lia. }
    pose proof (show_at_run E category (ad0 :: ads)
                  (Random E SampleAdDraw (length (ad0 :: ads) - 1)) s) as Hshow.
    unfold show_at in Hshow. rewrite Hshow, Had.
    destruct (IsAdValid ad); eauto.
Qed.

Lemma OnLoadSampleBundle_shows_an_ad_of_the_bundle_witness :
  let bundle := [("sports", [Sample.ad "a1"; Sample.ad "a2"]); ("tech", [Sample.ad "a3"])] in
  let E := host_with false (Some bundle)
             (Sample.host ["en"] 4 20 100000 Sample.parse_https 0) in
  let s := Sample.running [] [] {[ "a1" := 1%Z ]} in
  ∃ s',
    OnLoadSampleBundle E SUCCESS "{}" s
    = Ok (tt, s', [Out.ShowNotification (notification_of (Sample.ad "a1") "sports")]) ∧
    Client.GetAdsUUIDSeen (client_ s') = Client.GetAdsUUIDSeen (client_ s).
Proof.
  intros bundle E s.
  eexists. split; [vm_compute; reflexivity |].
  eapply (proj1 (proj2 (OnLoadSampleBundle_shows_an_ad_of_the_bundle E SUCCESS "{}" s))).
  vm_compute. reflexivity.
Defined.

(** ** The minimum wait *)

Lemma shown_within_app now window history history' :
  shown_within now window (history ++ history')
  = (shown_within now window history + shown_within now window history')%Z.
Proof. unfold shown_within. rewrite filter_app, length_app. lia. Qed.

(** [ShowAd] changes neither of the fields the guard looks at, nor the
    foreground flag, nor the media map. *)
Lemma IsInitialized_after_show E E' info s initialized :
  IsInitialized E' s = Ok (initialized, s, []) ->
  IsInitialized E' (after_show E info s)
  = Ok (initialized, after_show E info s, []).
Proof.
  rewrite !IsInitialized_run.
  change (is_initialized_ (after_show E info s)) with (is_initialized_ s).
  change (user_model_ (after_show E info s)) with (user_model_ s).
  destruct (is_initialized_ s), (IsAdsEnabled E'), (user_model_ s) as [um |]; simpl;
    try discriminate; try (intros H; injection H as <-; reflexivity).
Qed.

(** X18: after [ShowAd] showed an ad, [IsAllowedToShowAds] returns false
    for the minimum wait of [3600 / GetAdsPerHour()] seconds, whatever the
    history was before, and during that time an unforced
    [CheckReadyAdServe] asks for no ad.  The ad is shown at the time of
    [E], the question is asked at the time of [E']. *)
Theorem no_ad_is_allowed_within_the_minimum_wait E E' ad category s :
  IsAdValid ad = true ->
  IsInitialized E' s = Ok (true, s, []) ->
  (0 < GetAdsPerHour E')%Z ->
  (0 ≤ Now E ≤ Now E')%Z ->
  (Now E' < 2 ^ 64)%Z ->
  (Now E' - Now E < 3600 / GetAdsPerHour E')%Z ->
  (Z.of_nat (length (Client.GetAdsShownHistory (client_ s))) + 1 < 2 ^ 64)%Z ->
  ∃ s',
    ShowAd E ad category s
    = Ok (true, s', [Out.ShowNotification (notification_of ad category)]) ∧
    IsAllowedToShowAds E' s' = Ok (false, s', []) ∧
    CheckReadyAdServe E' false s' = Ok (tt, s', []).
Proof.
  intros Hvalid Hinit Hhour Hpast Hnow Hwait Hlen.
  exists (after_show E (notification_of ad category) s).
  split; [exact (ShowAd_valid E ad category s Hvalid) |].
  assert (Hallowed :
            IsAllowedToShowAds E' (after_show E (notification_of ad category) s)
            = Ok (false, after_show E (notification_of ad category) s, [])).
  { rewrite IsAllowedToShowAds_run by lia.
    change (Client.GetAdsShownHistory (client_ (after_show E (notification_of ad category) s)))
      with (Client.GetAdsShownHistory (client_ s) ++ [Now E]).
    rewrite !count_recent_shown_within by (rewrite length_app; simpl; lia).
    change kOneHourInSeconds with 3600%Z.
    do 3 f_equal.
    assert (Hcount :
              (1 ≤ shown_within (Now E') (3600 / GetAdsPerHour E')
                     (Client.GetAdsShownHistory (client_ s) ++ [Now E]))%Z).
    { rewrite shown_within_app, shown_within_cons, shown_within_nil.
      rewrite (elapsed_past (Now E') (Now E)) by lia.
      rewrite bool_decide_eq_true_2 by exact Hwait.
      pose proof (shown_within_bounds (Now E') (3600 / GetAdsPerHour E')
                    (Client.GetAdsShownHistory (client_ s))). lia. }
    apply andb_false_iff. right. apply Z.leb_gt. lia. }
  split; [exact Hallowed |].
  unfold CheckReadyAdServe.
  rewrite (bind_pure _ _ _ _ (IsInitialized_after_show E E' _ s true Hinit)).
  cbv beta iota delta [negb]. unfold IsForeground.
  rewrite bind_assoc, bind_reads.
  destruct (is_foreground_ _); cbv beta iota delta [negb];
    [| rewrite bind_ret_l; reflexivity].
  rewrite bind_assoc, (bind_pure _ _ _ _ (IsMediaPlaying_run _)).
  destruct (negb _); cbv beta iota; [rewrite bind_ret_l; reflexivity |].
  rewrite bind_assoc, (bind_pure _ _ _ _ Hallowed). cbv beta iota delta [negb].
  rewrite bind_ret_l. reflexivity.
Qed.

Lemma no_ad_is_allowed_within_the_minimum_wait_witness :
  let E := Sample.host ["en"] 4 20 100000 Sample.parse_https 0 in
  let E' := Sample.host ["en"] 4 20 100899 Sample.parse_https 0 in
  let s := Sample.running [] [[0.125; 0.75; 0.25]%float] ∅ in
  ∃ s',
    ShowAd E (Sample.ad "a1") "sports" s
    = Ok (true, s', [Out.ShowNotification (notification_of (Sample.ad "a1") "sports")]) ∧
    IsAllowedToShowAds E' s' = Ok (false, s', []) ∧
    CheckReadyAdServe E' false s' = Ok (tt, s', []).
Proof.
  intros E E' s.
  apply (no_ad_is_allowed_within_the_minimum_wait E E' (Sample.ad "a1") "sports" s);
    vm_compute; try reflexivity; try (split; discriminate).
Defined.

(** ** Forgetting the history *)

(** The guard looks at [is_initialized_] and [user_model_] only. *)
Lemma IsInitialized_same_fields E s s' initialized :
  guard_fields s' = guard_fields s ->
  IsInitialized E s = Ok (initialized, s, []) ->
  IsInitialized E s' = Ok (initialized, s', []).
Proof.
  unfold guard_fields. intros Hfields. injection Hfields as Hinit Hmodel.
  rewrite !IsInitialized_run, Hinit, Hmodel.
  destruct (is_initialized_ s), (IsAdsEnabled E), (user_model_ s) as [um |]; simpl;
    try discriminate; try (intros H; injection H as <-; reflexivity).
Qed.

(** With an empty page-score history the decision cycle asks for nothing. *)
Lemma CheckReadyAdServe_without_page_scores E forced s initialized :
  IsInitialized E s = Ok (initialized, s, []) ->
  (forced = false -> GetAdsPerHour E ≠ 0%Z) ->
  Client.GetPageScoreHistory (client_ s) = [] ->
  CheckReadyAdServe E forced s = Ok (tt, s, []).
Proof.
  intros Hinit Hhour Hnone.
  assert (Hserve : bind GetWinnerOverTimeCategory (ServeAdFromCategory E) s = Ok (tt, s, [])).
  { unfold GetWinnerOverTimeCategory. rewrite bind_assoc, bind_reads, Hnone, bind_ret_l.
    rewrite ServeAdFromCategory_run. change (Str.empty "") with true.
    rewrite orb_true_r. reflexivity. }
  unfold CheckReadyAdServe. rewrite (bind_pure _ _ _ _ Hinit).
  destruct initialized; cbv beta iota delta [negb]; [| reflexivity].
  destruct forced; cbv beta iota delta [negb]; [rewrite bind_ret_l; exact Hserve |].
  unfold IsForeground. rewrite bind_assoc, bind_reads.
  destruct (is_foreground_ s); cbv beta iota delta [negb];
    [| rewrite bind_ret_l; reflexivity].
  rewrite bind_assoc, (bind_pure _ _ _ _ (IsMediaPlaying_run s)).
  destruct (negb _); cbv beta iota; [rewrite bind_ret_l; reflexivity |].
  destruct (IsAllowedToShowAds_cases E s) as [Hfault | [allowed Hallowed]].
  { exfalso.
    destruct (Z.eq_dec (GetAdsPerHour E) 0%Z) as [Hzero | Hpos];
      [exact (Hhour eq_refl Hzero) |].
    rewrite (IsAllowedToShowAds_run E s Hpos) in Hfault. discriminate Hfault. }
  rewrite bind_assoc, (bind_pure _ _ _ _ Hallowed).
  destruct allowed; cbv beta iota delta [negb]; rewrite bind_ret_l;
    [exact Hserve | reflexivity].
Qed.

(** X19: [RemoveAllHistory] empties the ads-shown history and the
    page-score history of the client and then confirms the collection
    timer; it leaves the guard as it is.  From the state it leaves, the
    limits allow an ad at any time, and yet the decision cycle asks for no
    ad, forced or not: without page scores the winner over time is the
    empty category.  [SaveCachedInfo] forgets the same histories exactly
    when the ads are disabled, and saves the client state in both cases. *)
Theorem RemoveAllHistory_silences_the_decision_cycle E s :
  let delay := if _is_debug E then kDebugOneHourInSeconds E else kOneHourInSeconds in
  (∃ s',
     RemoveAllHistory E s
     = Ok (tt, s',
           kill_pending (collect_activity_timer_id_ s)
           ++ (if IsAdsEnabled E then [Out.SetTimer delay] else [])) ∧
     Client.GetAdsShownHistory (client_ s') = [] ∧
     Client.GetPageScoreHistory (client_ s') = [] ∧
     guard_fields s' = guard_fields s ∧
     GetWinnerOverTimeCategory s' = Ok ("", s', []) ∧
     (∀ E',
        (0 < GetAdsPerHour E')%Z -> (0 ≤ GetAdsPerDay E')%Z ->
        IsAllowedToShowAds E' s' = Ok (true, s', [])) ∧
     (∀ E' forced initialized,
        IsInitialized E' s = Ok (initialized, s, []) ->
        (forced = false -> GetAdsPerHour E' ≠ 0%Z) ->
        CheckReadyAdServe E' forced s' = Ok (tt, s', []))) ∧
  SaveCachedInfo E s
  = Ok (tt,
        (if IsAdsEnabled E then s else set_client (Client.RemoveAllHistory (client_ s)) s),
        [Out.SaveState]).
Proof.
  intros delay. split.
  - assert (Hrun : ∃ s',
              RemoveAllHistory E s
              = Ok (tt, s',
                    kill_pending (collect_activity_timer_id_ s)
                    ++ (if IsAdsEnabled E then [Out.SetTimer delay] else [])) ∧
              Client.GetAdsShownHistory (client_ s') = [] ∧
              Client.GetPageScoreHistory (client_ s') = [] ∧
              guard_fields s' = guard_fields s).
    { unfold RemoveAllHistory. rewrite bind_client, ConfirmAdUUIDIfAdEnabled_run.
      subst delay. destruct (IsAdsEnabled E).
      - eexists. split; [reflexivity |]. auto.
      - change (collect_activity_timer_id_
                  (set_client (Client.RemoveAllHistory (client_ s)) s))
          with (collect_activity_timer_id_ s).
        rewrite app_nil_r.
        destruct (collect_activity_timer_id_ s =? 0)%Z;
          (eexists; split; [reflexivity |]; auto). }
    destruct Hrun as (s' & Hrun & Hshown & Hscores & Hfields).
    exists s'. split; [exact Hrun |]. split; [exact Hshown |].
    split; [exact Hscores |]. split; [exact Hfields |]. split; [| split].
    + unfold GetWinnerOverTimeCategory. rewrite bind_reads, Hscores. reflexivity.
    + intros E' Hhour Hday. rewrite IsAllowedToShowAds_run by lia.
      rewrite Hshown. change (count_recent _ _ []) with 0%Z.
      do 3 f_equal. rewrite !andb_true_iff, !Z.leb_le. lia.
    + intros E' forced initialized Hinit Hhour.
      apply (CheckReadyAdServe_without_page_scores E' forced s' initialized);
        [| exact Hhour | exact Hscores].
      apply (IsInitialized_same_fields E' s s' initialized Hfields Hinit).
  - unfold SaveCachedInfo. destruct (IsAdsEnabled E); reflexivity.
Qed.

Lemma RemoveAllHistory_silences_the_decision_cycle_witness :
  let E := Sample.host ["en"] 4 20 100000 Sample.parse_https 0 in
  let s := Sample.running [99990]%Z [[0.125; 0.75; 0.25]%float] ∅ in
  CheckReadyAdServe E true s = Ok (tt, s, [Out.GetAds "US" "sports"]) ∧
  ∃ s',
    RemoveAllHistory E s = Ok (tt, s', [Out.KillTimer 7; Out.SetTimer 3600]) ∧
    IsAllowedToShowAds E s' = Ok (true, s', []) ∧
    CheckReadyAdServe E true s' = Ok (tt, s', []).
Proof.
  intros E s. split; [vm_compute; reflexivity |].
  destruct (proj1 (RemoveAllHistory_silences_the_decision_cycle E s))
    as (s' & Hrun & _ & _ & _ & _ & Hallowed & Hserve).
  exists s'. split; [exact Hrun |]. split.
  - apply Hallowed; vm_compute; [reflexivity | discriminate].
  - apply (Hserve E true true); [vm_compute; reflexivity | discriminate].
Defined.

(** ** Tabs *)

Lemma bind_quiet {A B} (m : M A) (k : A -> M B) s a s1 :
  m s = Ok (a, s1, []) -> bind m k s = k a s1.
Proof.
  intros Hm. unfold bind. rewrite Hm.
  destruct (k a s1) as [[[b s2] out2] | f]; reflexivity.
Qed.

(** The load report of line 1020 for a tab, from the object as it is. *)
Lemma GenerateAdReportingLoadEvent_production E tab url s :
  _is_testing E = false ->
  let parsed := (GetUrlComponents E url).1 in
  let scheme := UrlComponents.scheme (GetUrlComponents E url).2 in
  GenerateAdReportingLoadEvent E {| tab_id := tab; tab_url := url |} s
  = Ok (tt, s,
        if negb parsed && (String.eqb scheme "http" || String.eqb scheme "https")
        then [Out.EventLog
                (Report.load tab
                   (if Client.GetSearchState (client_ s) then Report.search else Report.click)
                   url (Split (last_page_classification_ s) "-")
                   (page_score_cache_ s !! url))]
        else []).
Proof.
  intros Htesting parsed scheme. subst parsed scheme.
  unfold GenerateAdReportingLoadEvent. rewrite Htesting.
  cbv beta iota delta [tab_url tab_id].
  destruct (GetUrlComponents E url) as [parsed components].
  cbv beta iota delta [fst snd].
  destruct parsed; [reflexivity |].
  destruct (String.eqb (UrlComponents.scheme components) "http"),
    (String.eqb (UrlComponents.scheme components) "https"); reflexivity.
Qed.

Lemma TestShoppingData_run E url s initialized :
  IsInitialized E s = Ok (initialized, s, []) ->
  TestShoppingData E url s
  = Ok (tt,
        (if initialized && (GetUrlComponents E url).1
         then set_client
                (Client.set_shop_state
                   (String.eqb (UrlComponents.hostname (GetUrlComponents E url).2)
                      "www.amazon.com")
                   (client_ s)) s
         else s),
        []).
Proof.
  intros Hinit. unfold TestShoppingData. rewrite (bind_pure _ _ _ _ Hinit).
  destruct initialized; [| reflexivity]. cbv beta iota delta [negb andb].
  destruct (GetUrlComponents E url) as [parsed components].
  cbv beta iota delta [fst snd negb].
  destruct parsed; [| reflexivity].
  destruct (String.eqb (UrlComponents.hostname components) "www.amazon.com"); reflexivity.
Qed.

Lemma TestSearchState_run E url s initialized :
  IsInitialized E s = Ok (initialized, s, []) ->
  TestSearchState E url s
  = Ok (tt,
        (if initialized && (GetUrlComponents E url).1
         then set_client
                (Client.set_search_state (IsSearchEngine E (GetUrlComponents E url).2)
                   (client_ s)) s
         else s),
        []).
Proof.
  intros Hinit. unfold TestSearchState. rewrite (bind_pure _ _ _ _ Hinit).
  destruct initialized; [| reflexivity]. cbv beta iota delta [negb andb].
  destruct (GetUrlComponents E url) as [parsed components].
  cbv beta iota delta [fst snd negb].
  destruct parsed; [| reflexivity].
  destruct (IsSearchEngine E components); reflexivity.
Qed.

(** X20: an update of an incognito tab leaves no trace: the object is
    unchanged and nothing is called.  For any other tab, outside a testing
    build, [TabUpdated] records the time of the activity and ends with the
    [focus] report of an active tab or the [blur] report of any other;
    only an active tab becomes the tab shown last.  A [load] report comes
    first exactly when the host does not parse the url and leaves the
    scheme [http] or [https]; its type is the search flag as it was before
    the update.  The search and shopping flags follow the url exactly when
    the tab is active, the guard holds and the host parses the url: an
    update that reports a load leaves both flags as they are. *)
Theorem TabUpdated_reports E tab_id url is_active s initialized :
  _is_testing E = false ->
  IsInitialized E s = Ok (initialized, s, []) ->
  let parsed := (GetUrlComponents E url).1 in
  let components := (GetUrlComponents E url).2 in
  let scheme := UrlComponents.scheme components in
  let loads := negb parsed && (String.eqb scheme "http" || String.eqb scheme "https") in
  let flags := is_active && initialized && parsed in
  TabUpdated E tab_id url is_active true s = Ok (tt, s, []) ∧
  ∃ s',
    TabUpdated E tab_id url is_active false s
    = Ok (tt, s',
          (if loads
           then [Out.EventLog
                   (Report.load tab_id
                      (if Client.GetSearchState (client_ s) then Report.search
                       else Report.click)
                      url (Split (last_page_classification_ s) "-")
                      (page_score_cache_ s !! url))]
           else [])
          ++ [Out.EventLog (if is_active then Report.focus tab_id else Report.blur tab_id)]) ∧
    Client.last_user_activity (client_ s') = Now E ∧
    last_shown_tab_url_ s' = (if is_active then url else last_shown_tab_url_ s) ∧
    Client.GetSearchState (client_ s')
    = (if flags then IsSearchEngine E components else Client.GetSearchState (client_ s)) ∧
    Client.shop_state (client_ s')
    = (if flags then String.eqb (UrlComponents.hostname components) "www.amazon.com"
       else Client.shop_state (client_ s)) ∧
    (loads = true -> flags = false).
Proof.
  intros Htesting Hinit parsed components scheme loads flags.
  split; [reflexivity |].
  unfold TabUpdated. rewrite bind_client.
  set (s1 := set_client (Client.UpdateLastUserActivity (Now E) (client_ s)) s).
  rewrite (bind_Ok _ _ _ _ _ _
             (GenerateAdReportingLoadEvent_production E tab_id url s1 Htesting)).
  fold parsed components scheme loads.
  assert (Hlast : loads = true -> flags = false).
  { subst loads flags. destruct parsed; [discriminate |]. intros _. apply andb_false_r. }
  destruct is_active.
  - rewrite bind_modify.
    set (s2 := set_last_shown_tab_url url s1).
    assert (Hinit2 : IsInitialized E s2 = Ok (initialized, s2, []))
      by (apply (IsInitialized_same_fields E s s2 initialized eq_refl Hinit)).
    rewrite (bind_quiet _ _ _ _ _ (TestShoppingData_run E url s2 initialized Hinit2)).
    fold parsed components.
    set (s3 := if initialized && parsed
               then set_client
                      (Client.set_shop_state
                         (String.eqb (UrlComponents.hostname components) "www.amazon.com")
                         (client_ s2)) s2
               else s2).
    assert (Hinit3 : IsInitialized E s3 = Ok (initialized, s3, [])).
    { apply (IsInitialized_same_fields E s s3 initialized); [| exact Hinit].
      subst s3. destruct (initialized && parsed); reflexivity. }
    rewrite (bind_quiet _ _ _ _ _ (TestSearchState_run E url s3 initialized Hinit3)).
    fold parsed components.
    unfold GenerateAdReportingFocusEvent, call.
    eexists. split; [reflexivity |].
    subst flags s3. cbv beta iota delta [andb].
    destruct initialized, parsed; cbv beta iota delta [andb]; auto.
  - unfold GenerateAdReportingBlurEvent, call.
    eexists. split; [reflexivity |].
    subst flags. cbv beta iota delta [andb]. auto.
Qed.

Lemma TabUpdated_reports_witness :
  let E := Sample.host ["en"] 4 20 100000 Sample.parse_fails_http 0 in
  let s := Sample.running [] [] ∅ in
  TabUpdated E 1 "http://example.com/" true true s = Ok (tt, s, []) ∧
  ∃ s',
    TabUpdated E 1 "http://example.com/" true false s
    = Ok (tt, s',
          [Out.EventLog (Report.load 1 Report.click "http://example.com/" [""] None);
           Out.EventLog (Report.focus 1)]) ∧
    Client.last_user_activity (client_ s') = 100000%Z ∧
    Client.GetSearchState (client_ s') = Client.GetSearchState (client_ s).
Proof.
  intros E s.
  destruct (TabUpdated_reports E 1 "http://example.com/" true s true)
    as (Hincognito & s' & Hrun & Hactivity & _ & Hsearch & _);
    [reflexivity | vm_compute; reflexivity |].
  split; [exact Hincognito |].
  exists s'. split; [exact Hrun |]. split; [exact Hactivity | exact Hsearch].
Defined.

(** ** Pages *)

(** X21: on an engine that passes the guard, [ClassifyPage] calls nothing
    outside.  It appends the score of the page, as the user model
    classifies the html, to the page-score history, and stores the winning
    category of that score as the last classification.  The search and
    shopping flags follow the url when the host parses it and stay as they
    are when it does not.  The ads-shown history, the seen set and the
    guard are left as they are. *)
Theorem ClassifyPage_records_the_page E url html s :
  IsInitialized E s = Ok (true, s, []) ->
  let parsed := (GetUrlComponents E url).1 in
  let components := (GetUrlComponents E url).2 in
  ∃ um s',
    user_model_ s = Some um ∧
    ClassifyPage E url html s = Ok (tt, s', []) ∧
    Client.GetPageScoreHistory (client_ s')
    = Client.GetPageScoreHistory (client_ s) ++ [UserModel.classifyPage um html] ∧
    last_page_classification_ s'
    = UserModel.winningCategory um (UserModel.classifyPage um html) ∧
    Client.GetSearchState (client_ s')
    = (if parsed then IsSearchEngine E components else Client.GetSearchState (client_ s)) ∧
    Client.shop_state (client_ s')
    = (if parsed then String.eqb (UrlComponents.hostname components) "www.amazon.com"
       else Client.shop_state (client_ s)) ∧
    Client.GetAdsShownHistory (client_ s') = Client.GetAdsShownHistory (client_ s) ∧
    Client.GetAdsUUIDSeen (client_ s') = Client.GetAdsUUIDSeen (client_ s) ∧
    guard_fields s' = guard_fields s.
Proof.
  intros Hinit parsed components.
  destruct (proj1 (IsInitialized_true E s) Hinit) as (_ & _ & um & Hum & _).
  set (s1 := if parsed
             then set_client
                    (Client.set_shop_state
                       (String.eqb (UrlComponents.hostname components) "www.amazon.com")
                       (client_ s)) s
             else s).
  set (s2 := if parsed
             then set_client
                    (Client.set_search_state (IsSearchEngine E components) (client_ s1)) s1
             else s1).
  set (page_score := UserModel.classifyPage um html).
  set (s3 := set_last_page_classification (UserModel.winningCategory um page_score)
               (set_client
                  (Client.AppendPageScoreToPageScoreHistory page_score (client_ s2)) s2)).
  assert (Hmodel : ∀ t, user_model_ t = Some um -> user_model t = Ok (um, t, []))
    by (intros t Ht; unfold user_model; rewrite Ht; reflexivity).
  assert (Hum2 : user_model_ s2 = Some um)
    by (subst s2 s1; destruct parsed; exact Hum).
  assert (Hrun : ClassifyPage E url html s = Ok (tt, s3, [])).
  { unfold ClassifyPage.
    rewrite (bind_pure _ _ _ _ Hinit). cbv beta iota delta [negb].
    rewrite (bind_quiet _ _ _ _ _ (TestShoppingData_run E url s true Hinit)).
    fold parsed components. cbv beta iota delta [andb]. fold s1.
    assert (Hinit1 : IsInitialized E s1 = Ok (true, s1, [])).
    { apply (IsInitialized_same_fields E s s1 true); [| exact Hinit].
      subst s1. destruct parsed; reflexivity. }
    rewrite (bind_quiet _ _ _ _ _ (TestSearchState_run E url s1 true Hinit1)).
    fold parsed components. cbv beta iota delta [andb]. fold s2.
    rewrite (bind_pure _ _ _ _ (Hmodel s2 Hum2)), bind_client.
    unfold GetWinningCategory.
    rewrite bind_assoc, (bind_pure _ _ _ _ (Hmodel (set_client _ s2) Hum2)), bind_ret_l.
    reflexivity. }
  exists um, s3. split; [exact Hum |]. split; [exact Hrun |].
  subst s3 s2 s1. destruct parsed; cbv beta iota; auto 10.
Qed.

Lemma ClassifyPage_records_the_page_witness :
  let E := Sample.host ["en"] 4 20 100000 Sample.parse_https 0 in
  let s := Sample.running [] [] ∅ in
  ∃ s',
    ClassifyPage E "https://example.com/" "<html/>" s = Ok (tt, s', []) ∧
    Client.GetPageScoreHistory (client_ s') = [[0.125; 0.75; 0.25]%float] ∧
    last_page_classification_ s' = "sports".
Proof.
  intros E s.
  destruct (ClassifyPage_records_the_page E "https://example.com/" "<html/>" s)
    as (um & s' & Hum & Hrun & Hhistory & Hlast & _); [vm_compute; reflexivity |].
  injection Hum as <-.
  exists s'. split; [exact Hrun |]. split; [exact Hhistory | exact Hlast].
Defined.

(** ** The start of the engine *)

(** X22: the start of the engine, from its construction, with the ads
    enabled: [Initialize] asks for the client state; when the state is
    loaded, the locales of the host are stored, unless the host has none,
    and the user model is requested for the locale of the loaded state;
    when the model is loaded, the third step runs.  The calls are, in this
    order: [LoadState], [LoadUserModelForLocale], [SetIdleThreshold], the
    [settings] report, [SetTimer] for the collection of activity and
    [DownloadCatalog].  Afterwards the guard holds exactly when the user
    model reports itself initialised. *)
Theorem the_engine_starts_in_three_steps E loaded json :
  IsAdsEnabled E = true ->
  let um := CreateUserModel E json in
  let delay := if _is_debug E then kDebugOneHourInSeconds E else kOneHourInSeconds in
  ∃ s',
    invoke_all E
      [DoInitialize; DoClientStateLoaded loaded; DoOnUserModelLoaded SUCCESS json]
      AdsImpl_new
    = Ok (tt, s',
          [Out.LoadState;
           Out.LoadUserModelForLocale (Client.GetLocale loaded);
           Out.SetIdleThreshold (kIdleThresholdInSeconds E);
           Out.EventLog
             (Report.settings (IsNotificationsAvailable E) (Client.GetCurrentPlace loaded)
                (Client.GetLocale loaded) (GetAdsPerDay E) (GetAdsPerHour E));
           Out.SetTimer delay;
           Out.DownloadCatalog]) ∧
    IsInitialized E s' = Ok (UserModel.IsInitialized um, s', []) ∧
    user_model_ s' = Some um ∧
    collect_activity_timer_id_ s' = SetTimer E delay ∧
    Client.GetAvailable (client_ s') = IsNotificationsAvailable E.
Proof.
  intros Henabled um delay.
  set (c1 := if is_empty (GetLocales E) then loaded
             else Client.SetLocales (GetLocales E) loaded).
  set (s1 := set_client c1 AdsImpl_new).
  set (s2 := set_user_model (Some um) s1).
  destruct (InitializeStep3_facts E s2) as (s' & Hstep3 & Hinit & Hmodel & Havailable & Htimer).
  rewrite Henabled in Hstep3, Htimer.
  exists s'.
  assert (Hfirst : invoke E DoInitialize AdsImpl_new = Ok (tt, AdsImpl_new, [Out.LoadState])).
  { simpl. unfold Initialize.
    assert (Hguard : IsInitialized E AdsImpl_new = Ok (false, AdsImpl_new, []))
      by reflexivity.
    rewrite (bind_pure _ _ _ _ Hguard), Henabled. cbv beta iota delta [negb].
    rewrite (bind_pure _ _ _ _ Hguard). reflexivity. }
  assert (Hsecond :
            invoke E (DoClientStateLoaded loaded) AdsImpl_new
            = Ok (tt, s1, [Out.LoadUserModelForLocale (Client.GetLocale loaded)])).
  { simpl. unfold OnClientStateLoaded, InitializeStep2, ProcessLocales.
    rewrite bind_client. subst s1 c1.
    destruct (is_empty (GetLocales E)); reflexivity. }
  assert (Hthird :
            invoke E (DoOnUserModelLoaded SUCCESS json) s1
            = Ok (tt, s',
                  [Out.SetIdleThreshold (kIdleThresholdInSeconds E);
                   Out.EventLog
                     (Report.settings (IsNotificationsAvailable E)
                        (Client.GetCurrentPlace loaded) (Client.GetLocale loaded)
                        (GetAdsPerDay E) (GetAdsPerHour E));
                   Out.SetTimer delay;
                   Out.DownloadCatalog])).
  { simpl. unfold OnUserModelLoaded, InitializeUserModel. rewrite bind_modify.
    fold um. fold s2.
    assert (Hguard : IsInitialized E s2 = Ok (false, s2, [])) by reflexivity.
    rewrite (bind_pure _ _ _ _ Hguard). cbv beta iota delta [negb].
    rewrite Hstep3. subst s2 s1 c1 delay.
    destruct (is_empty (GetLocales E)); reflexivity. }
  split.
  - unfold invoke_all.
    rewrite (bind_Ok _ _ _ _ _ _ Hfirst), (bind_Ok _ _ _ _ _ _ Hsecond),
      (bind_Ok _ _ _ _ _ _ Hthird).
    reflexivity.
  - split; [| split; [| split]].
    + rewrite (IsInitialized_of_fields E s' um Hinit); [| rewrite Hmodel; reflexivity].
      rewrite Henabled. reflexivity.
    + rewrite Hmodel. reflexivity.
    + exact Htimer.
    + exact Havailable.
Qed.

Lemma the_engine_starts_in_three_steps_witness :
  let E := Sample.host ["en"; "fr"] 4 20 100000 Sample.parse_https 0 in
  ∃ s',
    invoke_all E
      [DoInitialize; DoClientStateLoaded Client.fresh; DoOnUserModelLoaded SUCCESS "{}"]
      AdsImpl_new
    = Ok (tt, s',
          [Out.LoadState; Out.LoadUserModelForLocale ""; Out.SetIdleThreshold 15;
           Out.EventLog (Report.settings true "" "" 20 4); Out.SetTimer 3600;
           Out.DownloadCatalog]) ∧
    IsInitialized E s' = Ok (true, s', []).
Proof.
  intros E.
  destruct (the_engine_starts_in_three_steps E Client.fresh "{}" eq_refl)
    as (s' & Hrun & Hinit & _).
  exists s'. split; [exact Hrun | exact Hinit].
Defined.

(** ** The cache of page scores *)

(** X23: [CachePageScore] stores the score under the url, whether the url
    was cached before or not, and changes nothing else: the score read
    back for the url is the one stored last, the scores of the other urls
    are the ones before, and caching again keeps the set of cached urls.
    The score is what a load report for the url carries afterwards. *)
Theorem CachePageScore_round_trip url page_score s :
  let s' := set_page_score_cache (<[url := page_score]> (page_score_cache_ s)) s in
  CachePageScore url page_score s = Ok (tt, s', []) ∧
  page_score_cache_ s' !! url = Some page_score ∧
  (∀ url', url' ≠ url -> page_score_cache_ s' !! url' = page_score_cache_ s !! url') ∧
  (∀ page_score',
     ∃ s'',
       CachePageScore url page_score' s' = Ok (tt, s'', []) ∧
       page_score_cache_ s'' !! url = Some page_score' ∧
       dom (page_score_cache_ s'') = dom (page_score_cache_ s')) ∧
  (∀ E tab,
     _is_testing E = false ->
     (GetUrlComponents E url).1 = false ->
     UrlComponents.scheme (GetUrlComponents E url).2 = "http"
     ∨ UrlComponents.scheme (GetUrlComponents E url).2 = "https" ->
     GenerateAdReportingLoadEvent E {| tab_id := tab; tab_url := url |} s'
     = Ok (tt, s',
           [Out.EventLog
              (Report.load tab
                 (if Client.GetSearchState (client_ s) then Report.search else Report.click)
                 url (Split (last_page_classification_ s) "-") (Some page_score))])).
Proof.
  intros s'.
  assert (Hrun : ∀ score t,
            CachePageScore url score t
            = Ok (tt, set_page_score_cache (<[url := score]> (page_score_cache_ t)) t, [])).
  { intros score t. unfold CachePageScore. rewrite bind_reads.
    destruct (page_score_cache_ t !! url); reflexivity. }
  split; [apply Hrun |].
  split; [apply lookup_insert_eq |].
  split; [intros url' Hne; apply lookup_insert_ne; congruence |].
  split.
  - intros page_score'. eexists. split; [apply Hrun |].
    split; [apply lookup_insert_eq |].
    subst s'. simpl. rewrite !dom_insert_L.
    apply set_eq. intros url'. rewrite !elem_of_union. tauto.
  - intros E tab Htesting Hparsed Hscheme.
    rewrite (GenerateAdReportingLoadEvent_production E tab url s' Htesting).
    rewrite Hparsed.
    assert (Hloads : String.eqb (UrlComponents.scheme (GetUrlComponents E url).2) "http"
                     || String.eqb (UrlComponents.scheme (GetUrlComponents E url).2) "https"
                     = true)
      by (destruct Hscheme as [-> | ->]; reflexivity).
    rewrite Hloads. cbv beta iota delta [negb andb].
    subst s'. simpl page_score_cache_. rewrite lookup_insert_eq. reflexivity.
Qed.

Lemma CachePageScore_round_trip_witness :
  let E := Sample.host ["en"] 4 20 100000 Sample.parse_fails_http 0 in
  let s := Sample.running [] [] ∅ in
  let url := "http://example.com/" in
  let score := [0.125; 0.75; 0.25]%float in
  ∃ s',
    CachePageScore url score s = Ok (tt, s', []) ∧
    GenerateAdReportingLoadEvent E {| tab_id := 1; tab_url := url |} s'
    = Ok (tt, s', [Out.EventLog (Report.load 1 Report.click url [""] (Some score))]).
Proof.
  intros E s url score.
  destruct (CachePageScore_round_trip url score s) as (Hrun & _ & _ & _ & Hload).
  eexists. split; [exact Hrun |].
  apply (Hload E 1%Z); [reflexivity | reflexivity | left; reflexivity].
Defined.

(** ** The easter egg of the testing build *)

Lemma CheckReadyAdServe_Ok E forced s s' out :
  CheckReadyAdServe E forced s = Ok (tt, s', out) ->
  s' = s ∧
  (out = [] ∨ ∃ category, out = [Out.GetAds (GetCountryCode E (GetAdsLocale E)) category]).
Proof.
  assert (Hserve : ∀ s' out,
            bind GetWinnerOverTimeCategory (ServeAdFromCategory E) s = Ok (tt, s', out) ->
            s' = s ∧
            (out = []
             ∨ ∃ category, out = [Out.GetAds (GetCountryCode E (GetAdsLocale E)) category])).
  { clear s' out. intros s' out Hrun.
    destruct (GetWinnerOverTimeCategory_cases s) as [Hfault | [category Hwinner]].
    { rewrite (bind_Fault _ _ _ _ Hfault) in Hrun. discriminate. }
    rewrite (bind_pure _ _ _ _ Hwinner), ServeAdFromCategory_run in Hrun.
    injection Hrun as <- <-. split; [reflexivity |].
    destruct (Str.empty (GetCatalogId E) || Str.empty category); eauto. }
  intros Hrun. unfold CheckReadyAdServe in Hrun.
  destruct (IsInitialized_cases E s) as [Hfault | [initialized Hinit]].
  { rewrite (bind_Fault _ _ _ _ Hfault) in Hrun. discriminate. }
  rewrite (bind_pure _ _ _ _ Hinit) in Hrun.
  destruct initialized; cbv beta iota delta [negb] in Hrun.
  2:{ injection Hrun as <- <-. auto. }
  destruct forced; cbv beta iota delta [negb] in Hrun.
  { rewrite bind_ret_l in Hrun. apply Hserve. exact Hrun. }
  unfold IsForeground in Hrun. rewrite bind_assoc, bind_reads in Hrun.
  destruct (is_foreground_ s); cbv beta iota delta [negb] in Hrun.
  2:{ rewrite bind_ret_l in Hrun. injection Hrun as <- <-. auto. }
  rewrite bind_assoc, (bind_pure _ _ _ _ (IsMediaPlaying_run s)) in Hrun.
  destruct (negb _); cbv beta iota in Hrun.
  { rewrite bind_ret_l in Hrun. injection Hrun as <- <-. auto. }
  rewrite bind_assoc in Hrun.
  destruct (IsAllowedToShowAds_cases E s) as [Hfault | [allowed Hallowed]].
  { rewrite (bind_Fault _ _ _ _ Hfault) in Hrun. discriminate. }
  rewrite (bind_pure _ _ _ _ Hallowed) in Hrun.
  destruct allowed; cbv beta iota delta [negb] in Hrun; rewrite bind_ret_l in Hrun.
  - apply Hserve. exact Hrun.
  - injection Hrun as <- <-. auto.
Qed.

(** X24: in a testing build a load report for [https://www.iab.com/] is
    followed by a forced [CheckReadyAdServe], at most once per
    [kNextEasterEggStartsInSeconds]: the cycle runs only when the time is
    past [next_easter_egg_], which is then moved to the time plus that
    delay, and a load of the url before the new time is reported without
    the cycle.  The report comes first and is the only report; the cycle
    adds at most one request for ads.  As this code follows the load
    report, it runs only for a url that the host does not parse: when the
    host parses the url, nothing happens at all. *)
Theorem easter_egg_is_throttled E tab s :
  _is_testing E = true ->
  let url := "https://www.iab.com/" in
  let info := {| tab_id := tab; tab_url := url |} in
  let report :=
    Out.EventLog
      (Report.load tab
         (if Client.GetSearchState (client_ s) then Report.search else Report.click)
         url (Split (last_page_classification_ s) "-") (page_score_cache_ s !! url)) in
  let next := wrap64 (Now E + kNextEasterEggStartsInSeconds E) in
  ((GetUrlComponents E url).1 = true ->
   GenerateAdReportingLoadEvent E info s = Ok (tt, s, [])) ∧
  ((GetUrlComponents E url).1 = false ->
   UrlComponents.scheme (GetUrlComponents E url).2 = "http"
   ∨ UrlComponents.scheme (GetUrlComponents E url).2 = "https" ->
   ((Now E ≤ next_easter_egg_ s)%Z ->
    GenerateAdReportingLoadEvent E info s = Ok (tt, s, [report])) ∧
   ((next_easter_egg_ s < Now E)%Z ->
    ∀ s' out,
      GenerateAdReportingLoadEvent E info s = Ok (tt, s', out) ->
      s' = set_next_easter_egg next s ∧
      (out = [report]
       ∨ ∃ category,
           out = [report; Out.GetAds (GetCountryCode E (GetAdsLocale E)) category]) ∧
      ((Now E ≤ next)%Z ->
       GenerateAdReportingLoadEvent E info s' = Ok (tt, s', [report])))).
Proof.
  intros Htesting url info report next.
  split; [intros Hparsed; apply GenerateAdReportingLoadEvent_parsed; exact Hparsed |].
  intros Hparsed Hscheme.
  assert (Hrun : ∀ t,
            GenerateAdReportingLoadEvent E info t
            = match
                (if (next_easter_egg_ t <? Now E)%Z
                 then
                   modify (set_next_easter_egg next) ;;
                   CheckReadyAdServe E true
                 else ret tt) t
              with
              | Ok (b, t', out) =>
                  Ok (b, t',
                      Out.EventLog
                        (Report.load tab
                           (if Client.GetSearchState (client_ t) then Report.search
                            else Report.click)
                           url (Split (last_page_classification_ t) "-")
                           (page_score_cache_ t !! url)) :: out)
              | Fault f => Fault f
              end).
  { intros t. unfold GenerateAdReportingLoadEvent. subst info.
    cbv beta iota delta [tab_url tab_id]. rewrite Htesting. fold url.
    destruct (GetUrlComponents E url) as [parsed components].
    simpl in Hparsed, Hscheme. subst parsed.
    assert (Hskip : (false
                     || negb (String.eqb (UrlComponents.scheme components) "http")
                        && negb (String.eqb (UrlComponents.scheme components) "https"))
                    = false)
      by (destruct Hscheme as [-> | ->]; reflexivity).
    rewrite Hskip. cbv beta iota.
    rewrite !bind_reads, bind_call, bind_reads.
    destruct (next_easter_egg_ t <? Now E)%Z; reflexivity. }
  split.
  - intros Hearly. rewrite Hrun.
    destruct (Z.ltb_spec (next_easter_egg_ s) (Now E)) as [Hlt | _]; [lia | reflexivity].
  - intros Hlate s' out Hload.
    rewrite Hrun in Hload.
    destruct (Z.ltb_spec (next_easter_egg_ s) (Now E)) as [_ | Hge]; [| lia].
    rewrite bind_modify in Hload.
    destruct (CheckReadyAdServe E true (set_next_easter_egg next s))
      as [[[[] s1] out1] | f] eqn:Hserve; [| discriminate].
    injection Hload as <- <-.
    apply CheckReadyAdServe_Ok in Hserve as [-> Hout].
    split; [reflexivity |]. split.
    + destruct Hout as [-> | [category ->]]; [left; reflexivity | right; eauto].
    + intros Hnext. rewrite Hrun.
      change (next_easter_egg_ (set_next_easter_egg next s)) with next.
      destruct (Z.ltb_spec next (Now E)) as [Hlt | _]; [lia | reflexivity].
Qed.

Lemma easter_egg_is_throttled_witness :
  let E := host_with true None (Sample.host ["en"] 4 20 100000 Sample.parse_fails_http 0) in
  let s := Sample.running [99990]%Z [[0.125; 0.75; 0.25]%float] ∅ in
  let info := {| tab_id := 1; tab_url := "https://www.iab.com/" |} in
  let report := Out.EventLog (Report.load 1 Report.click "https://www.iab.com/" [""] None) in
  ∃ s',
    GenerateAdReportingLoadEvent E info s = Ok (tt, s', [report; Out.GetAds "US" "sports"]) ∧
    s' = set_next_easter_egg 100030 s ∧
    GenerateAdReportingLoadEvent E info s' = Ok (tt, s', [report]).
Proof.
  intros E s info report.
  destruct (GenerateAdReportingLoadEvent E info s) as [[[[] s'] out] | f] eqn:Hrun;
    [| vm_compute in Hrun; discriminate].
  destruct (proj2 (easter_egg_is_throttled E 1 s eq_refl) eq_refl (or_introl eq_refl))
    as [_ Hlate].
  destruct (Hlate ltac:(reflexivity) s' out Hrun) as (Hstate & _ & Hagain).
  exists s'. split; [| split].
  - vm_compute in Hrun. injection Hrun as _ <-. reflexivity.
  - exact Hstate.
  - apply Hagain. vm_compute. discriminate.
Defined.

(** ** Where faults come from *)

Lemma faults_ret {A} F (a : A) : faults F (ret a).
Proof. intros s. exact I. Qed.

Lemma faults_bind {A B} F (m : M A) (k : A -> M B) :
  faults F m -> (∀ a, faults F (k a)) -> faults F (bind m k).
Proof.
  intros Hm Hk s. unfold bind. specialize (Hm s).
  destruct (m s) as [[[a s1] out1] | f]; [| exact Hm].
  specialize (Hk a s1). destruct (k a s1) as [[[b s2] out2] | f]; [exact I | exact Hk].
Qed.

Lemma faults_reads {A} F (f : AdsImpl -> A) : faults F (reads f).
Proof. intros s. exact I. Qed.

Lemma faults_modify F (f : AdsImpl -> AdsImpl) : faults F (modify f).
Proof. intros s. exact I. Qed.

Lemma faults_client F (f : Client.t -> Client.t) : faults F (client f).
Proof. intros s. exact I. Qed.

Lemma faults_call F (c : Out.call) : faults F (call c).
Proof. intros s. exact I. Qed.

Lemma faults_user_model E : faults (explained E) user_model.
Proof. intros s. unfold user_model. destruct (user_model_ s); [exact I | left; reflexivity]. Qed.

Create HintDb faults.

#[local] Hint Resolve faults_ret faults_reads faults_modify faults_client faults_call
  faults_user_model : faults.

Ltac faults_step :=
  cbv beta zeta;
  lazymatch goal with
  | |- faults _ (bind _ _) => apply faults_bind; [ | intros ? ]
  | |- faults _ (when _ _) => unfold when
  | |- faults _ (match ?x with _ => _ end) => destruct x
  | |- faults _ _ => solve [ eauto with faults ]
  end.

Ltac faults_auto := repeat faults_step.



Section Faults.

Context (E : Env).

Lemma GenerateAdReportingRestartEvent_faults :
  faults (explained E) GenerateAdReportingRestartEvent.
Proof. unfold GenerateAdReportingRestartEvent. faults_auto. Qed.
#[local] Hint Resolve GenerateAdReportingRestartEvent_faults : faults.

Lemma GenerateAdReportingSustainEvent_faults info :
  faults (explained E) (GenerateAdReportingSustainEvent info).
Proof. unfold GenerateAdReportingSustainEvent. faults_auto. Qed.
#[local] Hint Resolve GenerateAdReportingSustainEvent_faults : faults.

Lemma GenerateAdReportingBackgroundEvent_faults :
  faults (explained E) GenerateAdReportingBackgroundEvent.
Proof. unfold GenerateAdReportingBackgroundEvent. faults_auto. Qed.
#[local] Hint Resolve GenerateAdReportingBackgroundEvent_faults : faults.

Lemma GenerateAdReportingForegroundEvent_faults :
  faults (explained E) GenerateAdReportingForegroundEvent.
Proof. unfold GenerateAdReportingForegroundEvent. faults_auto. Qed.
#[local] Hint Resolve GenerateAdReportingForegroundEvent_faults : faults.

Lemma GenerateAdReportingBlurEvent_faults tab_id :
  faults (explained E) (GenerateAdReportingBlurEvent tab_id).
Proof. unfold GenerateAdReportingBlurEvent. faults_auto. Qed.
#[local] Hint Resolve GenerateAdReportingBlurEvent_faults : faults.

Lemma GenerateAdReportingDestroyEvent_faults tab_id :
  faults (explained E) (GenerateAdReportingDestroyEvent tab_id).
Proof. unfold GenerateAdReportingDestroyEvent. faults_auto. Qed.
#[local] Hint Resolve GenerateAdReportingDestroyEvent_faults : faults.

Lemma GenerateAdReportingFocusEvent_faults tab_id :
  faults (explained E) (GenerateAdReportingFocusEvent tab_id).
Proof. unfold GenerateAdReportingFocusEvent. faults_auto. Qed.
#[local] Hint Resolve GenerateAdReportingFocusEvent_faults : faults.

Lemma GenerateAdReportingSettingsEvent_faults :
  faults (explained E) (GenerateAdReportingSettingsEvent E).
Proof. unfold GenerateAdReportingSettingsEvent. faults_auto. Qed.
#[local] Hint Resolve GenerateAdReportingSettingsEvent_faults : faults.

Lemma IsInitialized_faults :
  faults (explained E) (IsInitialized E).
Proof. unfold IsInitialized. faults_auto. Qed.
#[local] Hint Resolve IsInitialized_faults : faults.

Lemma OnForeground_faults :
  faults (explained E) OnForeground.
Proof. unfold OnForeground. faults_auto. Qed.
#[local] Hint Resolve OnForeground_faults : faults.

Lemma OnBackground_faults :
  faults (explained E) OnBackground.
Proof. unfold OnBackground. faults_auto. Qed.
#[local] Hint Resolve OnBackground_faults : faults.

Lemma IsForeground_faults :
  faults (explained E) IsForeground.
Proof. unfold IsForeground. faults_auto. Qed.
#[local] Hint Resolve IsForeground_faults : faults.

Lemma OnIdle_faults :
  faults (explained E) OnIdle.
Proof. unfold OnIdle. faults_auto. Qed.
#[local] Hint Resolve OnIdle_faults : faults.

Lemma OnMediaPlaying_faults tab_id :
  faults (explained E) (OnMediaPlaying tab_id).
Proof. unfold OnMediaPlaying. faults_auto. Qed.
#[local] Hint Resolve OnMediaPlaying_faults : faults.

Lemma OnMediaStopped_faults tab_id :
  faults (explained E) (OnMediaStopped tab_id).
Proof. unfold OnMediaStopped. faults_auto. Qed.
#[local] Hint Resolve OnMediaStopped_faults : faults.

Lemma IsMediaPlaying_faults :
  faults (explained E) IsMediaPlaying.
Proof. unfold IsMediaPlaying. faults_auto. Qed.
#[local] Hint Resolve IsMediaPlaying_faults : faults.

Lemma IsCollectingActivity_faults :
  faults (explained E) IsCollectingActivity.
Proof. unfold IsCollectingActivity. faults_auto. Qed.
#[local] Hint Resolve IsCollectingActivity_faults : faults.

Lemma StopCollectingActivity_faults :
  faults (explained E) StopCollectingActivity.
Proof. unfold StopCollectingActivity. faults_auto. Qed.
#[local] Hint Resolve StopCollectingActivity_faults : faults.

Lemma StartCollectingActivity_faults start_timer_in :
  faults (explained E) (StartCollectingActivity E start_timer_in).
Proof. unfold StartCollectingActivity. faults_auto. Qed.
#[local] Hint Resolve StartCollectingActivity_faults : faults.

Lemma IsSustainingAdInteraction_faults :
  faults (explained E) IsSustainingAdInteraction.
Proof. unfold IsSustainingAdInteraction. faults_auto. Qed.
#[local] Hint Resolve IsSustainingAdInteraction_faults : faults.

Lemma StopSustainingAdInteraction_faults :
  faults (explained E) StopSustainingAdInteraction.
Proof. unfold StopSustainingAdInteraction. faults_auto. Qed.
#[local] Hint Resolve StopSustainingAdInteraction_faults : faults.

Lemma StartSustainingAdInteraction_faults start_timer_in :
  faults (explained E) (StartSustainingAdInteraction E start_timer_in).
Proof. unfold StartSustainingAdInteraction. faults_auto. Qed.
#[local] Hint Resolve StartSustainingAdInteraction_faults : faults.

Lemma IsStillViewingAd_faults :
  faults (explained E) IsStillViewingAd.
Proof. unfold IsStillViewingAd. faults_auto. Qed.
#[local] Hint Resolve IsStillViewingAd_faults : faults.

Lemma SustainAdInteraction_faults :
  faults (explained E) (SustainAdInteraction E).
Proof. unfold SustainAdInteraction. faults_auto. Qed.
#[local] Hint Resolve SustainAdInteraction_faults : faults.

Lemma GenerateAdReportingNotificationShownEvent_faults info :
  faults (explained E) (GenerateAdReportingNotificationShownEvent info).
Proof. unfold GenerateAdReportingNotificationShownEvent. faults_auto. Qed.
#[local] Hint Resolve GenerateAdReportingNotificationShownEvent_faults : faults.

Lemma GenerateAdReportingNotificationResultEvent_faults info type :
  faults (explained E) (GenerateAdReportingNotificationResultEvent E info type).
Proof. unfold GenerateAdReportingNotificationResultEvent. faults_auto. Qed.
#[local] Hint Resolve GenerateAdReportingNotificationResultEvent_faults : faults.

Lemma ConfirmAdUUIDIfAdEnabled_faults :
  faults (explained E) (ConfirmAdUUIDIfAdEnabled E).
Proof. unfold ConfirmAdUUIDIfAdEnabled. faults_auto. Qed.
#[local] Hint Resolve ConfirmAdUUIDIfAdEnabled_faults : faults.

Lemma RemoveAllHistory_faults :
  faults (explained E) (RemoveAllHistory E).
Proof. unfold RemoveAllHistory. faults_auto. Qed.
#[local] Hint Resolve RemoveAllHistory_faults : faults.

Lemma SaveCachedInfo_faults :
  faults (explained E) (SaveCachedInfo E).
Proof. unfold SaveCachedInfo. faults_auto. Qed.
#[local] Hint Resolve SaveCachedInfo_faults : faults.

Lemma RetrieveSSID_faults :
  faults (explained E) (RetrieveSSID E).
Proof. unfold RetrieveSSID. faults_auto. Qed.
#[local] Hint Resolve RetrieveSSID_faults : faults.

Lemma ProcessLocales_faults locales :
  faults (explained E) (ProcessLocales locales).
Proof. unfold ProcessLocales. faults_auto. Qed.
#[local] Hint Resolve ProcessLocales_faults : faults.

Lemma Deinitialize_faults :
  faults (explained E) (Deinitialize E).
Proof. unfold Deinitialize. faults_auto. Qed.
#[local] Hint Resolve Deinitialize_faults : faults.

Lemma Initialize_faults :
  faults (explained E) (Initialize E).
Proof. unfold Initialize. faults_auto. Qed.
#[local] Hint Resolve Initialize_faults : faults.

Lemma LoadUserModel_faults :
  faults (explained E) LoadUserModel.
Proof. unfold LoadUserModel. faults_auto. Qed.
#[local] Hint Resolve LoadUserModel_faults : faults.

Lemma InitializeStep2_faults :
  faults (explained E) (InitializeStep2 E).
Proof. unfold InitializeStep2. faults_auto. Qed.
#[local] Hint Resolve InitializeStep2_faults : faults.

Lemma AdsShownHistoryRespectsRollingTimeConstraint_faults seconds_window allowable_ad_count :
  faults (explained E) (AdsShownHistoryRespectsRollingTimeConstraint E seconds_window allowable_ad_count).
Proof. unfold AdsShownHistoryRespectsRollingTimeConstraint. faults_auto. Qed.
#[local] Hint Resolve AdsShownHistoryRespectsRollingTimeConstraint_faults : faults.

Lemma IsAllowedToShowAds_faults :
  faults (explained E) (IsAllowedToShowAds E).
Proof.
  intros s. destruct (Z.eq_dec (GetAdsPerHour E) 0%Z) as [Hzero | Hpos].
  - rewrite (IsAllowedToShowAds_zero E s Hzero). right. left. auto.
  - rewrite (IsAllowedToShowAds_run E s Hpos). exact I.
Qed.
#[local] Hint Resolve IsAllowedToShowAds_faults : faults.

Lemma ServeSampleAd_faults :
  faults (explained E) (ServeSampleAd E).
Proof. unfold ServeSampleAd. faults_auto. Qed.
#[local] Hint Resolve ServeSampleAd_faults : faults.

Lemma GetWinningCategory_faults page_score :
  faults (explained E) (GetWinningCategory page_score).
Proof. unfold GetWinningCategory. faults_auto. Qed.
#[local] Hint Resolve GetWinningCategory_faults : faults.

Lemma GetWinnerOverTimeCategory_faults :
  faults (explained E) GetWinnerOverTimeCategory.
Proof. unfold GetWinnerOverTimeCategory. faults_auto. Qed.
#[local] Hint Resolve GetWinnerOverTimeCategory_faults : faults.

Lemma CachePageScore_faults url page_score :
  faults (explained E) (CachePageScore url page_score).
Proof. unfold CachePageScore. faults_auto. Qed.
#[local] Hint Resolve CachePageScore_faults : faults.

Lemma ServeAdFromCategory_faults category :
  faults (explained E) (ServeAdFromCategory E category).
Proof. unfold ServeAdFromCategory. faults_auto. Qed.
#[local] Hint Resolve ServeAdFromCategory_faults : faults.

Lemma CheckReadyAdServe_faults forced :
  faults (explained E) (CheckReadyAdServe E forced).
Proof. unfold CheckReadyAdServe. faults_auto. Qed.
#[local] Hint Resolve CheckReadyAdServe_faults : faults.

Lemma NotificationAllowedCheck_faults serve :
  faults (explained E) (NotificationAllowedCheck E serve).
Proof. unfold NotificationAllowedCheck. faults_auto. Qed.
#[local] Hint Resolve NotificationAllowedCheck_faults : faults.

Lemma OnUnIdle_faults :
  faults (explained E) (OnUnIdle E).
Proof. unfold OnUnIdle. faults_auto. Qed.
#[local] Hint Resolve OnUnIdle_faults : faults.

Lemma InitializeStep3_faults :
  faults (explained E) (InitializeStep3 E).
Proof. unfold InitializeStep3. faults_auto. Qed.
#[local] Hint Resolve InitializeStep3_faults : faults.

Lemma InitializeUserModel_faults json :
  faults (explained E) (InitializeUserModel E json).
Proof. unfold InitializeUserModel. faults_auto. Qed.
#[local] Hint Resolve InitializeUserModel_faults : faults.

Lemma OnUserModelLoaded_faults result json :
  faults (explained E) (OnUserModelLoaded E result json).
Proof. unfold OnUserModelLoaded. faults_auto. Qed.
#[local] Hint Resolve OnUserModelLoaded_faults : faults.

Lemma TestShoppingData_faults url :
  faults (explained E) (TestShoppingData E url).
Proof. unfold TestShoppingData. faults_auto. Qed.
#[local] Hint Resolve TestShoppingData_faults : faults.

Lemma TestSearchState_faults url :
  faults (explained E) (TestSearchState E url).
Proof. unfold TestSearchState. faults_auto. Qed.
#[local] Hint Resolve TestSearchState_faults : faults.

Lemma ClassifyPage_faults url html :
  faults (explained E) (ClassifyPage E url html).
Proof. unfold ClassifyPage. faults_auto. Qed.
#[local] Hint Resolve ClassifyPage_faults : faults.

(** [Split] gives at least one segment: [front()] is defined. *)
Lemma ChangeLocale_faults locale :
  faults (explained E) (ChangeLocale E locale).
Proof.
  unfold ChangeLocale. destruct (Split_first_segment locale "_") as [segments ->].
  unfold front. faults_auto.
Qed.
#[local] Hint Resolve ChangeLocale_faults : faults.

Lemma GenerateAdReportingLoadEvent_faults info :
  faults (explained E) (GenerateAdReportingLoadEvent E info).
Proof. unfold GenerateAdReportingLoadEvent. faults_auto. Qed.
#[local] Hint Resolve GenerateAdReportingLoadEvent_faults : faults.

Lemma TabUpdated_faults tab_id url is_active is_incognito :
  faults (explained E) (TabUpdated E tab_id url is_active is_incognito).
Proof. unfold TabUpdated. faults_auto. Qed.
#[local] Hint Resolve TabUpdated_faults : faults.

Lemma TabClosed_faults tab_id :
  faults (explained E) (TabClosed tab_id).
Proof. unfold TabClosed. faults_auto. Qed.
#[local] Hint Resolve TabClosed_faults : faults.

Lemma CollectActivity_faults :
  faults (explained E) (CollectActivity E).
Proof. unfold CollectActivity. faults_auto. Qed.
#[local] Hint Resolve CollectActivity_faults : faults.

Lemma OnTimer_faults timer_id :
  faults (explained E) (OnTimer E timer_id).
Proof. unfold OnTimer. faults_auto. Qed.
#[local] Hint Resolve OnTimer_faults : faults.

Lemma OnClientStateLoaded_faults loaded :
  faults (explained E) (OnClientStateLoaded E loaded).
Proof. unfold OnClientStateLoaded. faults_auto. Qed.
#[local] Hint Resolve OnClientStateLoaded_faults : faults.




End Faults.



(** ** The ads-shown history is the record of the dispatches *)

Lemma notifications_app out out' :
  notifications (out ++ out') = notifications out + notifications out'.
Proof. unfold notifications. rewrite filter_app, length_app. reflexivity. Qed.

Section Records.

Context (E : Env).

Lemma records_quiet {A} (m : M A) :
  (∀ s, match m s with Ok (_, s', out) => s' = s ∧ out = [] | Fault _ => True end) ->
  records_dispatches E m.
Proof.
  intros Hm s. specialize (Hm s). destruct (m s) as [[[a s'] out] | f]; [| exact I].
  destruct Hm as [-> ->]. simpl. rewrite app_nil_r. reflexivity.
Qed.

Lemma records_ret {A} (a : A) : records_dispatches E (ret a).
Proof. apply records_quiet. intros s. simpl. auto. Qed.

Lemma records_reads {A} (f : AdsImpl -> A) : records_dispatches E (reads f).
Proof. apply records_quiet. intros s. simpl. auto. Qed.

Lemma records_crash {A} (f : fault) : records_dispatches E (crash (A := A) f).
Proof. intros s. exact I. Qed.

Lemma records_user_model : records_dispatches E user_model.
Proof.
  apply records_quiet. intros s. unfold user_model. destruct (user_model_ s); auto.
Qed.

Lemma records_at {A} (v : list A) i : records_dispatches E (at_ v i).
Proof. unfold at_. destruct (v !! i); [apply records_ret | apply records_crash]. Qed.

Lemma records_front {A} (v : list A) : records_dispatches E (front v).
Proof. unfold front. destruct v; [apply records_crash | apply records_ret]. Qed.

Lemma records_udiv a b : records_dispatches E (udiv a b).
Proof. unfold udiv. destruct (b =? 0)%Z; [apply records_crash | apply records_ret]. Qed.

Lemma records_modify (f : AdsImpl -> AdsImpl) :
  (∀ s, client_ (f s) = client_ s) -> records_dispatches E (modify f).
Proof. intros Hf s. simpl. rewrite Hf, app_nil_r. reflexivity. Qed.

Lemma records_client (f : Client.t -> Client.t) :
  (∀ c, Client.GetAdsShownHistory (f c) = Client.GetAdsShownHistory c) ->
  records_dispatches E (client f).
Proof. intros Hf s. simpl. rewrite Hf, app_nil_r. reflexivity. Qed.

Lemma records_call (c : Out.call) :
  is_notification c = false -> records_dispatches E (call c).
Proof.
  intros Hc s. simpl. unfold notifications.
  rewrite filter_cons_False by congruence. simpl. rewrite app_nil_r. reflexivity.
Qed.

Lemma records_bind {A B} (m : M A) (k : A -> M B) :
  records_dispatches E m -> (∀ a, records_dispatches E (k a)) ->
  records_dispatches E (bind m k).
Proof.
  intros Hm Hk s. unfold bind. specialize (Hm s).
  destruct (m s) as [[[a s1] out1] | f]; [| exact I].
  specialize (Hk a s1). destruct (k a s1) as [[[b s2] out2] | f]; [| exact I].
  rewrite Hk, Hm, notifications_app, replicate_add, app_assoc. reflexivity.
Qed.

Create HintDb records.

#[local] Hint Resolve records_ret records_reads records_crash records_user_model
  records_at records_front records_udiv : records.
#[local] Hint Extern 1 (records_dispatches _ (modify _)) =>
  (apply records_modify; intros; reflexivity) : records.
#[local] Hint Extern 1 (records_dispatches _ (client _)) =>
  (apply records_client; intros; reflexivity) : records.
#[local] Hint Extern 1 (records_dispatches _ (call _)) =>
  (apply records_call; reflexivity) : records.

Ltac records_step :=
  cbv beta zeta;
  lazymatch goal with
  | |- records_dispatches _ (bind _ _) => apply records_bind; [ | intros ? ]
  | |- records_dispatches _ (when _ _) => unfold when
  | |- records_dispatches _ (match ?x with _ => _ end) => destruct x
  | |- records_dispatches _ _ => solve [ eauto with records ]
  end.

Ltac records_auto := repeat records_step.

Lemma GenerateAdReportingRestartEvent_records :
  records_dispatches E GenerateAdReportingRestartEvent.
Proof. unfold GenerateAdReportingRestartEvent. records_auto. Qed.
#[local] Hint Resolve GenerateAdReportingRestartEvent_records : records.

Lemma GenerateAdReportingSustainEvent_records info :
  records_dispatches E (GenerateAdReportingSustainEvent info).
Proof. unfold GenerateAdReportingSustainEvent. records_auto. Qed.
#[local] Hint Resolve GenerateAdReportingSustainEvent_records : records.

Lemma GenerateAdReportingBackgroundEvent_records :
  records_dispatches E GenerateAdReportingBackgroundEvent.
Proof. unfold GenerateAdReportingBackgroundEvent. records_auto. Qed.
#[local] Hint Resolve GenerateAdReportingBackgroundEvent_records : records.

Lemma GenerateAdReportingForegroundEvent_records :
  records_dispatches E GenerateAdReportingForegroundEvent.
Proof. unfold GenerateAdReportingForegroundEvent. records_auto. Qed.
#[local] Hint Resolve GenerateAdReportingForegroundEvent_records : records.

Lemma GenerateAdReportingBlurEvent_records tab_id :
  records_dispatches E (GenerateAdReportingBlurEvent tab_id).
Proof. unfold GenerateAdReportingBlurEvent. records_auto. Qed.
#[local] Hint Resolve GenerateAdReportingBlurEvent_records : records.

Lemma GenerateAdReportingDestroyEvent_records tab_id :
  records_dispatches E (GenerateAdReportingDestroyEvent tab_id).
Proof. unfold GenerateAdReportingDestroyEvent. records_auto. Qed.
#[local] Hint Resolve GenerateAdReportingDestroyEvent_records : records.

Lemma GenerateAdReportingFocusEvent_records tab_id :
  records_dispatches E (GenerateAdReportingFocusEvent tab_id).
Proof. unfold GenerateAdReportingFocusEvent. records_auto. Qed.
#[local] Hint Resolve GenerateAdReportingFocusEvent_records : records.

Lemma GenerateAdReportingSettingsEvent_records :
  records_dispatches E (GenerateAdReportingSettingsEvent E).
Proof. unfold GenerateAdReportingSettingsEvent. records_auto. Qed.
#[local] Hint Resolve GenerateAdReportingSettingsEvent_records : records.

Lemma IsInitialized_records :
  records_dispatches E (IsInitialized E).
Proof. unfold IsInitialized. records_auto. Qed.
#[local] Hint Resolve IsInitialized_records : records.

Lemma OnForeground_records :
  records_dispatches E OnForeground.
Proof. unfold OnForeground. records_auto. Qed.
#[local] Hint Resolve OnForeground_records : records.

Lemma OnBackground_records :
  records_dispatches E OnBackground.
Proof. unfold OnBackground. records_auto. Qed.
#[local] Hint Resolve OnBackground_records : records.

Lemma IsForeground_records :
  records_dispatches E IsForeground.
Proof. unfold IsForeground. records_auto. Qed.
#[local] Hint Resolve IsForeground_records : records.

Lemma OnIdle_records :
  records_dispatches E OnIdle.
Proof. unfold OnIdle. records_auto. Qed.
#[local] Hint Resolve OnIdle_records : records.

Lemma OnMediaPlaying_records tab_id :
  records_dispatches E (OnMediaPlaying tab_id).
Proof. unfold OnMediaPlaying. records_auto. Qed.
#[local] Hint Resolve OnMediaPlaying_records : records.

Lemma OnMediaStopped_records tab_id :
  records_dispatches E (OnMediaStopped tab_id).
Proof. unfold OnMediaStopped. records_auto. Qed.
#[local] Hint Resolve OnMediaStopped_records : records.

Lemma IsMediaPlaying_records :
  records_dispatches E IsMediaPlaying.
Proof. unfold IsMediaPlaying. records_auto. Qed.
#[local] Hint Resolve IsMediaPlaying_records : records.

Lemma IsCollectingActivity_records :
  records_dispatches E IsCollectingActivity.
Proof. unfold IsCollectingActivity. records_auto. Qed.
#[local] Hint Resolve IsCollectingActivity_records : records.

Lemma StopCollectingActivity_records :
  records_dispatches E StopCollectingActivity.
Proof. unfold StopCollectingActivity. records_auto. Qed.
#[local] Hint Resolve StopCollectingActivity_records : records.

Lemma StartCollectingActivity_records start_timer_in :
  records_dispatches E (StartCollectingActivity E start_timer_in).
Proof. unfold StartCollectingActivity. records_auto. Qed.
#[local] Hint Resolve StartCollectingActivity_records : records.

Lemma IsSustainingAdInteraction_records :
  records_dispatches E IsSustainingAdInteraction.
Proof. unfold IsSustainingAdInteraction. records_auto. Qed.
#[local] Hint Resolve IsSustainingAdInteraction_records : records.

Lemma StopSustainingAdInteraction_records :
  records_dispatches E StopSustainingAdInteraction.
Proof. unfold StopSustainingAdInteraction. records_auto. Qed.
#[local] Hint Resolve StopSustainingAdInteraction_records : records.

Lemma StartSustainingAdInteraction_records start_timer_in :
  records_dispatches E (StartSustainingAdInteraction E start_timer_in).
Proof. unfold StartSustainingAdInteraction. records_auto. Qed.
#[local] Hint Resolve StartSustainingAdInteraction_records : records.

Lemma IsStillViewingAd_records :
  records_dispatches E IsStillViewingAd.
Proof. unfold IsStillViewingAd. records_auto. Qed.
#[local] Hint Resolve IsStillViewingAd_records : records.

Lemma SustainAdInteraction_records :
  records_dispatches E (SustainAdInteraction E).
Proof. unfold SustainAdInteraction. records_auto. Qed.
#[local] Hint Resolve SustainAdInteraction_records : records.

Lemma GenerateAdReportingNotificationShownEvent_records info :
  records_dispatches E (GenerateAdReportingNotificationShownEvent info).
Proof. unfold GenerateAdReportingNotificationShownEvent. records_auto. Qed.
#[local] Hint Resolve GenerateAdReportingNotificationShownEvent_records : records.

Lemma GenerateAdReportingNotificationResultEvent_records info type :
  records_dispatches E (GenerateAdReportingNotificationResultEvent E info type).
Proof. unfold GenerateAdReportingNotificationResultEvent. records_auto. Qed.
#[local] Hint Resolve GenerateAdReportingNotificationResultEvent_records : records.

Lemma ConfirmAdUUIDIfAdEnabled_records :
  records_dispatches E (ConfirmAdUUIDIfAdEnabled E).
Proof. unfold ConfirmAdUUIDIfAdEnabled. records_auto. Qed.
#[local] Hint Resolve ConfirmAdUUIDIfAdEnabled_records : records.

Lemma RetrieveSSID_records :
  records_dispatches E (RetrieveSSID E).
Proof. unfold RetrieveSSID. records_auto. Qed.
#[local] Hint Resolve RetrieveSSID_records : records.

Lemma ProcessLocales_records locales :
  records_dispatches E (ProcessLocales locales).
Proof. unfold ProcessLocales. records_auto. Qed.
#[local] Hint Resolve ProcessLocales_records : records.

(** [Initialize] reaches [Deinitialize] only with the ads disabled, when
    the guard of [Deinitialize] is false. *)
Lemma Initialize_records :
  records_dispatches E (Initialize E).
Proof.
  intros s. unfold Initialize.
  destruct (IsInitialized_cases E s) as [Hfault | [initialized Hinit]].
  { rewrite (bind_Fault _ _ _ _ Hfault). exact I. }
  rewrite (bind_pure _ _ _ _ Hinit).
  destruct initialized; [simpl; rewrite app_nil_r; reflexivity |].
  destruct (IsAdsEnabled E); cbv beta iota delta [negb].
  - rewrite (bind_pure _ _ _ _ Hinit). simpl. rewrite app_nil_r. reflexivity.
  - unfold Deinitialize. rewrite (bind_pure _ _ _ _ Hinit). simpl.
    rewrite app_nil_r. reflexivity.
Qed.
#[local] Hint Resolve Initialize_records : records.

Lemma LoadUserModel_records :
  records_dispatches E LoadUserModel.
Proof. unfold LoadUserModel. records_auto. Qed.
#[local] Hint Resolve LoadUserModel_records : records.

Lemma InitializeStep2_records :
  records_dispatches E (InitializeStep2 E).
Proof. unfold InitializeStep2. records_auto. Qed.
#[local] Hint Resolve InitializeStep2_records : records.

Lemma AdsShownHistoryRespectsRollingTimeConstraint_records seconds_window allowable_ad_count :
  records_dispatches E (AdsShownHistoryRespectsRollingTimeConstraint E seconds_window allowable_ad_count).
Proof. unfold AdsShownHistoryRespectsRollingTimeConstraint. records_auto. Qed.
#[local] Hint Resolve AdsShownHistoryRespectsRollingTimeConstraint_records : records.

Lemma IsAllowedToShowAds_records :
  records_dispatches E (IsAllowedToShowAds E).
Proof. unfold IsAllowedToShowAds. records_auto. Qed.
#[local] Hint Resolve IsAllowedToShowAds_records : records.

Lemma GetUnseenAds_records ads :
  records_dispatches E (GetUnseenAds ads).
Proof. unfold GetUnseenAds. records_auto. Qed.
#[local] Hint Resolve GetUnseenAds_records : records.

(** [ShowAd] hands the notification to the host and appends the time. *)
Lemma ShowAd_records ad_info category :
  records_dispatches E (ShowAd E ad_info category).
Proof.
  intros s. destruct (IsAdValid ad_info) eqn:Hvalid.
  - rewrite (ShowAd_valid E ad_info category s Hvalid). reflexivity.
  - rewrite (ShowAd_invalid E ad_info category s Hvalid). simpl.
    rewrite app_nil_r. reflexivity.
Qed.
#[local] Hint Resolve ShowAd_records : records.

Lemma OnGetAds_records result region category ads :
  records_dispatches E (OnGetAds E result region category ads).
Proof. unfold OnGetAds. records_auto. Qed.
#[local] Hint Resolve OnGetAds_records : records.

Lemma OnLoadSampleBundle_records result json :
  records_dispatches E (OnLoadSampleBundle E result json).
Proof. unfold OnLoadSampleBundle. records_auto. Qed.
#[local] Hint Resolve OnLoadSampleBundle_records : records.

Lemma ServeSampleAd_records :
  records_dispatches E (ServeSampleAd E).
Proof. unfold ServeSampleAd. records_auto. Qed.
#[local] Hint Resolve ServeSampleAd_records : records.

Lemma GetWinningCategory_records page_score :
  records_dispatches E (GetWinningCategory page_score).
Proof. unfold GetWinningCategory. records_auto. Qed.
#[local] Hint Resolve GetWinningCategory_records : records.

Lemma GetWinnerOverTimeCategory_records :
  records_dispatches E GetWinnerOverTimeCategory.
Proof. unfold GetWinnerOverTimeCategory. records_auto. Qed.
#[local] Hint Resolve GetWinnerOverTimeCategory_records : records.

Lemma CachePageScore_records url page_score :
  records_dispatches E (CachePageScore url page_score).
Proof. unfold CachePageScore. records_auto. Qed.
#[local] Hint Resolve CachePageScore_records : records.

Lemma ServeAdFromCategory_records category :
  records_dispatches E (ServeAdFromCategory E category).
Proof. unfold ServeAdFromCategory. records_auto. Qed.
#[local] Hint Resolve ServeAdFromCategory_records : records.

Lemma CheckReadyAdServe_records forced :
  records_dispatches E (CheckReadyAdServe E forced).
Proof. unfold CheckReadyAdServe. records_auto. Qed.
#[local] Hint Resolve CheckReadyAdServe_records : records.

Lemma NotificationAllowedCheck_records serve :
  records_dispatches E (NotificationAllowedCheck E serve).
Proof. unfold NotificationAllowedCheck. records_auto. Qed.
#[local] Hint Resolve NotificationAllowedCheck_records : records.

Lemma OnUnIdle_records :
  records_dispatches E (OnUnIdle E).
Proof. unfold OnUnIdle. records_auto. Qed.
#[local] Hint Resolve OnUnIdle_records : records.

Lemma InitializeStep3_records :
  records_dispatches E (InitializeStep3 E).
Proof. unfold InitializeStep3. records_auto. Qed.
#[local] Hint Resolve InitializeStep3_records : records.

Lemma InitializeUserModel_records json :
  records_dispatches E (InitializeUserModel E json).
Proof. unfold InitializeUserModel. records_auto. Qed.
#[local] Hint Resolve InitializeUserModel_records : records.

Lemma OnUserModelLoaded_records result json :
  records_dispatches E (OnUserModelLoaded E result json).
Proof. unfold OnUserModelLoaded. records_auto. Qed.
#[local] Hint Resolve OnUserModelLoaded_records : records.

Lemma TestShoppingData_records url :
  records_dispatches E (TestShoppingData E url).
Proof. unfold TestShoppingData. records_auto. Qed.
#[local] Hint Resolve TestShoppingData_records : records.

Lemma TestSearchState_records url :
  records_dispatches E (TestSearchState E url).
Proof. unfold TestSearchState. records_auto. Qed.
#[local] Hint Resolve TestSearchState_records : records.

Lemma ClassifyPage_records url html :
  records_dispatches E (ClassifyPage E url html).
Proof. unfold ClassifyPage. records_auto. Qed.
#[local] Hint Resolve ClassifyPage_records : records.

Lemma ChangeLocale_records locale :
  records_dispatches E (ChangeLocale E locale).
Proof. unfold ChangeLocale. records_auto. Qed.
#[local] Hint Resolve ChangeLocale_records : records.

Lemma GenerateAdReportingLoadEvent_records info :
  records_dispatches E (GenerateAdReportingLoadEvent E info).
Proof. unfold GenerateAdReportingLoadEvent. records_auto. Qed.
#[local] Hint Resolve GenerateAdReportingLoadEvent_records : records.

Lemma TabUpdated_records tab_id url is_active is_incognito :
  records_dispatches E (TabUpdated E tab_id url is_active is_incognito).
Proof. unfold TabUpdated. records_auto. Qed.
#[local] Hint Resolve TabUpdated_records : records.

Lemma TabClosed_records tab_id :
  records_dispatches E (TabClosed tab_id).
Proof. unfold TabClosed. records_auto. Qed.
#[local] Hint Resolve TabClosed_records : records.

Lemma CollectActivity_records :
  records_dispatches E (CollectActivity E).
Proof. unfold CollectActivity. records_auto. Qed.
#[local] Hint Resolve CollectActivity_records : records.

Lemma OnTimer_records timer_id :
  records_dispatches E (OnTimer E timer_id).
Proof. unfold OnTimer. records_auto. Qed.
#[local] Hint Resolve OnTimer_records : records.

Lemma invoke_records i :
  replaces_history i = false -> records_dispatches E (invoke E i).
Proof. destruct i; try discriminate; intros _; simpl; eauto with records. Qed.

End Records.

(** X26: the ads-shown history is the record of the dispatches.  Apart
    from the invocations that clear the histories or replace the client
    state ([Deinitialize], [RemoveAllHistory], [SaveCachedInfo] and the
    completion of [LoadState]), an invocation leaves the history it found
    with the time of the invocation appended once for each notification it
    handed to the host: nothing else enters the history, nothing leaves
    it, and a notification is never shown without its time being
    recorded. *)
Theorem the_history_records_the_dispatches E i s s' out :
  replaces_history i = false ->
  invoke E i s = Ok (tt, s', out) ->
  Client.GetAdsShownHistory (client_ s')
  = Client.GetAdsShownHistory (client_ s) ++ replicate (notifications out) (Now E).
Proof.
  intros Hkeeps Hrun.
  pose proof (invoke_records E i Hkeeps s) as Hrecords.
  rewrite Hrun in Hrecords. exact Hrecords.
Qed.

Lemma the_history_records_the_dispatches_witness :
  let E := Sample.host ["en"] 4 20 100000 Sample.parse_https 0 in
  let s := Sample.running [92000]%Z [] ∅ in
  ∃ s' info,
    invoke E (DoOnGetAds SUCCESS "US" "sports" [Sample.ad "a1"]) s
    = Ok (tt, s', [Out.ShowNotification info]) ∧
    Client.GetAdsShownHistory (client_ s') = [92000; 100000]%Z.
Proof.
  intros E s.
  destruct (invoke E (DoOnGetAds SUCCESS "US" "sports" [Sample.ad "a1"]) s)
    as [[[[] s'] out] | f] eqn:Hrun; [| vm_compute in Hrun; discriminate].
  pose proof (the_history_records_the_dispatches E
                (DoOnGetAds SUCCESS "US" "sports" [Sample.ad "a1"]) s s' out eq_refl Hrun)
    as Hhistory.
  vm_compute in Hrun. injection Hrun as <- <-.
  eexists _, _. split; [reflexivity | exact Hhistory].
Defined.
